(** * BLS signature aggregation (src/bls/bls_aggregator.cpp)

    A shallow embedding of the [eth::BLSAggregator] translation unit:
    the three responder endpoints ([get_reward_balance], [get_exit],
    [get_liquidation]), the request-argument decoder
    [extract_1part_msg], the fan-out [nodesRequest] and the two
    aggregation entry points ([rewards_request],
    [aggregateExitOrLiquidate]).

    Conventions.
    - A [std::string] / [std::string_view] is a [string]: a sequence of
      8-bit characters.  A value of a [safe_to_memcpy] type [T]
      ([eth::address], [eth::bls_public_key], [eth::bls_signature],
      [crypto::hash]) is represented by its "guts", the [sizeof(T)] raw
      bytes.
    - [uint64_t] and [size_t] counters are [Z] / [nat]; the places where
      the source can wrap around are written out.
    - C++ exceptions are the [inl] side of the error monad [M].
    - The cryptographic primitives (Keccak, the BLS curve operations)
      are an interface, the class [Primitives], and what is read from
      [cryptonote::core] is a record; the code is verified for every
      implementation.  Module [Toy] is a small implementation that
      serves to run the definitions at explicit inputs.
    - The threads of [nodesRequest] are modelled by the interleavings
      of its atomic steps (module [FanOut]); the entry points take the
      schedule of the transport as an argument. *)

From Stdlib Require Import List String Ascii ZArith NArith Arith Bool Lia.
From Stdlib Require Import Permutation DecimalString DecimalN DecimalPos.
Import ListNotations.

Local Open Scope string_scope.

(** ** Exceptions *)

(** The exception classes that occur in the translation unit.  All of
    them derive from [std::exception]. *)
Inductive exn : Type :=
| runtime_error (what : string)
| invalid_argument (what : string)
| out_of_range (what : string)
| bt_deserialize_invalid (what : string).

Definition M (A : Type) : Type := (exn + A)%type.

Definition ret {A} (a : A) : M A := inr a.
Definition throw {A} (e : exn) : M A := inl e.
Definition bind {A B} (m : M A) (k : A -> M B) : M B :=
  match m with
  | inl e => inl e
  | inr a => k a
  end.

Notation "x <- m ;; k" := (bind m (fun x => k))
  (at level 61, m at next level, right associativity).
Notation "' pat <- m ;; k" := (bind m (fun x => match x with pat => k end))
  (at level 61, pat pattern, m at next level, right associativity).

Definition succeeded {A} (m : M A) : bool :=
  match m with inr _ => true | inl _ => false end.

(** ** Characters, hex and raw bytes *)

(** A [size_t] or [uint64_t] printed in decimal. *)
Definition format_decimal (n : N) : string :=
  NilZero.string_of_uint (N.to_uint n).

Definition format_size (n : nat) : string := format_decimal (N.of_nat n).

Definition char_range (lo hi c : ascii) : bool :=
  (nat_of_ascii lo <=? nat_of_ascii c)%nat && (nat_of_ascii c <=? nat_of_ascii hi)%nat.

Definition is_digit (c : ascii) : bool := char_range "0" "9" c.

Module oxenc.

(** [oxenc::detail::hex_lut.from_hex]: the value of a hex digit, [0]
    for every character that is not one. *)
Definition from_hex_digit (c : ascii) : nat :=
  if char_range "0" "9" c then nat_of_ascii c - nat_of_ascii "0"
  else if char_range "a" "f" c then 10 + (nat_of_ascii c - nat_of_ascii "a")
  else if char_range "A" "F" c then 10 + (nat_of_ascii c - nat_of_ascii "A")
  else 0.

Definition is_hex_digit (c : ascii) : bool :=
  negb (from_hex_digit c =? 0)%nat || Ascii.eqb c "0".

Fixpoint all_hex (s : string) : bool :=
  match s with
  | EmptyString => true
  | String c s' => is_hex_digit c && all_hex s'
  end.

(** [oxenc::is_hex]: every character is a hex digit and the length is
    a multiple of two. *)
Definition is_hex (s : string) : bool :=
  Nat.even (String.length s) && all_hex s.

(** [oxenc::from_hex]: two hex digits per output byte. *)
Fixpoint from_hex (s : string) : string :=
  match s with
  | String hi (String lo s') =>
      String (ascii_of_nat (16 * from_hex_digit hi + from_hex_digit lo)) (from_hex s')
  | _ => EmptyString
  end.

End oxenc.

Fixpoint starts_with (s p : string) : bool :=
  match p, s with
  | EmptyString, _ => true
  | String pc p', String sc s' => Ascii.eqb pc sc && starts_with s' p'
  | String _ _, EmptyString => false
  end.

Fixpoint remove_prefix (n : nat) (s : string) : string :=
  match n, s with
  | O, _ => s
  | S n', String _ s' => remove_prefix n' s'
  | S _, EmptyString => EmptyString
  end.

Fixpoint take (n : nat) (s : string) : string :=
  match n, s with
  | S n', String c s' => String c (take n' s')
  | _, _ => EmptyString
  end.

Module tools.

(** Modelled from the spec: [tools::make_from_guts<T>] of
    common/guts.h, which is not among the sources.  A value of a
    fixed-size type is rebuilt from exactly [sizeof(T)] raw bytes
    ("raw fixed-size bytes"); any other size is an error. *)
Definition make_from_guts (sizeof_T : nat) (s : string) : M string :=
  if (String.length s =? sizeof_T)%nat then ret s
  else throw (runtime_error "Cannot reconstitute type: wrong type content size").

(** Modelled from the spec: [tools::make_from_hex_guts<T>] of
    common/guts.h, which is not among the sources.  The hex digits
    decode "to the same fixed-size binary value"; with [check] set the
    digits are validated first. *)
Definition make_from_hex_guts (sizeof_T : nat) (hex : string) (check : bool) : M string :=
  if check && negb (oxenc.is_hex hex) then
    throw (invalid_argument "Cannot reconstitute type from hex: input is not valid hex")
  else if negb (String.length hex =? 2 * sizeof_T)%nat then
    throw (invalid_argument "Cannot reconstitute type from hex: wrong size")
  else ret (oxenc.from_hex hex).

(** Modelled from the spec: [tools::encode_integer_be<N>] of
    common/bigint.h, which is not among the sources: the value "as
    32-byte big endian", most significant byte first. *)
Fixpoint encode_integer_be (n : nat) (v : Z) : string :=
  match n with
  | O => EmptyString
  | S n' =>
      String (ascii_of_N (Z.to_N (Z.land (Z.shiftr v (8 * Z.of_nat n')) 255)))
             (encode_integer_be n' v)
  end.

Fixpoint decode_integer_be (s : string) (acc : Z) : Z :=
  match s with
  | EmptyString => acc
  | String c s' => decode_integer_be s' (Z.lor (Z.shiftl acc 8) (Z.of_N (N_of_ascii c)))
  end.

End tools.

(** ** The request message of the transport *)

(** [oxenmq::Message]: the data parts of the request, and the replies
    sent so far through [send_reply] (each reply is its list of parts,
    the status code first). *)
Record Message : Type := mkMessage {
  data : list string;
  replies : list (list string)
}.

Definition send_reply (m : Message) (parts : list string) : Message :=
  {| data := data m; replies := replies m ++ [parts] |}.

Definition data0 (m : Message) : string := nth 0 (data m) EmptyString.

(** [extract_1part_msg<T>].  [val] is the in/out reference parameter:
    the result carries the message (with the replies sent), the content
    of [val] on exit and the returned flag. *)
Definition extract_1part_msg (sizeof_T : nat) (m : Message) (val : string)
    (cmd_name value_name : string) : M (Message * string * bool) :=
  if negb (List.length (data m) =? 1)%nat then
    ret (send_reply m
           ["400";
            "Bad request: " ++ cmd_name ++ " command should have one " ++ value_name
              ++ " data part; received " ++ format_size (List.length (data m))],
         val, false)
  else if (String.length (data0 m) =? 2 + 2 * sizeof_T)%nat
          && (starts_with (data0 m) "0x" || starts_with (data0 m) "0X")
          && oxenc.is_hex (data0 m) then
    let hex := remove_prefix 2 (data0 m) in
    v <- tools.make_from_hex_guts sizeof_T hex false ;;
    ret (m, v, true)
  else if (String.length (data0 m) =? 2 * sizeof_T)%nat && oxenc.is_hex (data0 m) then
    v <- tools.make_from_hex_guts sizeof_T (data0 m) false ;;
    ret (m, v, true)
  else if (String.length (data0 m) =? sizeof_T)%nat then
    _ <- tools.make_from_guts sizeof_T (data0 m) ;;
    ret (m, val, true)
  else
    ret (send_reply m
           ["400";
            "Bad request: " ++ cmd_name ++ " command data should be a " ++ format_size sizeof_T
              ++ "-byte " ++ value_name ++ "; got " ++ format_size (String.length (data0 m))
              ++ " bytes"],
         val, false).

(** ** The bt-encoded replies (oxenc)

    The reply payload of a responder is a bt-encoded dict, written with
    [oxenc::bt_dict_producer] and read back with
    [oxenc::bt_dict_consumer].  The consumer is a forward-only cursor
    over the encoded bytes: [require] skips the entries whose key sorts
    before the requested key and never moves back. *)
Module bt.

Definition two64 : Z := 2 ^ 64.

Definition digit_value (c : ascii) : Z :=
  Z.of_nat (nat_of_ascii c - nat_of_ascii "0").

(** The digit loop of [extract_unsigned]: a 64-bit accumulator whose
    wrap-around is detected by comparing with the previous value. *)
Fixpoint extract_digits (s : string) (uval : Z) : M (Z * string) :=
  match s with
  | String c s' =>
      if is_digit c then
        let bigger := ((uval * 10 + digit_value c) mod two64)%Z in
        if (bigger <? uval)%Z then
          throw (bt_deserialize_invalid "Integer deserialization failed: value is too large for a 64-bit int")
        else extract_digits s' bigger
      else ret (uval, s)
  | EmptyString => ret (uval, s)
  end.

Definition extract_unsigned (s : string) : M (Z * string) :=
  match s with
  | EmptyString => throw (bt_deserialize_invalid "Expected 0-9 but found end of string")
  | String c _ =>
      if is_digit c then extract_digits s 0%Z
      else throw (bt_deserialize_invalid "Expected 0-9 but found something else")
  end.

(** A bt string: [<decimal length>:<bytes>].  Returns the string and
    the rest of the input. *)
Definition deserialize_string (s : string) : M (string * string) :=
  if (String.length s <? 2)%nat then
    throw (bt_deserialize_invalid "Deserialize failed: given data is not an bt-encoded string")
  else
    '(len, s1) <- extract_unsigned s ;;
    match s1 with
    | String ":" s2 =>
        if (Z.of_nat (String.length s2) <? len)%Z then
          throw (bt_deserialize_invalid "String deserialization failed: encoded string length is longer than the serialized data")
        else ret (take (Z.to_nat len) s2, remove_prefix (Z.to_nat len) s2)
    | _ => throw (bt_deserialize_invalid "Did not find expected ':' during string deserialization")
    end.

(** A bt integer: [i<optional minus><digits>e].  Returns the
    magnitude, the sign flag and the rest of the input. *)
Definition deserialize_integer (s : string) : M (Z * bool * string) :=
  if (String.length s <? 3)%nat then
    throw (bt_deserialize_invalid "Deserialization failed: end of string found where integer expected")
  else
    match s with
    | String "i" s1 =>
        let negative := starts_with s1 "-" in
        let s2 := if negative then remove_prefix 1 s1 else s1 in
        '(v, s3) <- extract_unsigned s2 ;;
        match s3 with
        | String "e" s4 =>
            if negative && (2 ^ 63 <? v)%Z then
              throw (bt_deserialize_invalid "Deserialization of integer failed: negative integer value is too large for a 64-bit signed int")
            else ret (v, negative, s4)
        | _ => throw (bt_deserialize_invalid "Integer deserialization failed: expected digit or 'e'")
        end
    | _ => throw (bt_deserialize_invalid "Deserialization failed: expected 'i'")
    end.

(** [bt_deserialize<uint64_t>]. *)
Definition deserialize_uint64 (s : string) : M (Z * string) :=
  '(v, negative, rest) <- deserialize_integer s ;;
  if negative then
    throw (bt_deserialize_invalid "Integer deserialization failed: found negative value but type is unsigned")
  else ret (v, rest).

(** The end marker of a list or dict. *)
Definition not_e (ch : ascii) : bool := negb (Ascii.eqb ch "e").

Definition front_is (s : string) (p : ascii -> bool) : bool :=
  match s with
  | String c _ => p c
  | EmptyString => false
  end.

(** [bt_list_consumer::consume_string_view]. *)
Definition consume_string_view (s : string) : M (string * string) :=
  match s with
  | EmptyString => throw (bt_deserialize_invalid "expected a string, but reached end of data")
  | String c _ =>
      if is_digit c then deserialize_string s
      else throw (bt_deserialize_invalid "expected a string, but found something else")
  end.

(** [bt_list_consumer::consume_integer<uint64_t>]. *)
Definition consume_uint64 (s : string) : M (Z * string) :=
  if front_is s (Ascii.eqb "i") then deserialize_uint64 s
  else throw (bt_deserialize_invalid "next value is not an integer").

Definition out_of_fuel : exn := bt_deserialize_invalid "input nested deeper than its length".

(** [skip_value], [consume_list_data] and [consume_dict_data]: skip
    one value of any type.  The loops over the elements of a nested
    list or dict are [skip_list_items] and [skip_dict_items]; every
    call consumes input, [fuel] bounds the recursion. *)
Fixpoint skip_value (fuel : nat) (s : string) : M string :=
  match fuel with
  | O => throw out_of_fuel
  | S fuel' =>
      match s with
      | EmptyString => throw (bt_deserialize_invalid "next bt value has unknown type")
      | String c s1 =>
          if is_digit c then '(_, rest) <- consume_string_view s ;; ret rest
          else if Ascii.eqb c "i" then '(_, _, rest) <- deserialize_integer s ;; ret rest
          else if Ascii.eqb c "l" then
            if (String.length s <? 2)%nat then
              throw (bt_deserialize_invalid "next bt value is not a list")
            else skip_list_items fuel' s1
          else if Ascii.eqb c "d" then
            if (String.length s <? 2)%nat then
              throw (bt_deserialize_invalid "next bt value is not a dict")
            else skip_dict_items fuel' s1
          else throw (bt_deserialize_invalid "next bt value has unknown type")
      end
  end
with skip_list_items (fuel : nat) (s : string) : M string :=
  match fuel with
  | O => throw out_of_fuel
  | S fuel' =>
      match s with
      | String "e" rest => ret rest
      | _ =>
          s' <- skip_value fuel' s ;;
          match s' with
          | EmptyString =>
              throw (bt_deserialize_invalid "bt list consumption failed: hit the end of string before the list was done")
          | _ => skip_list_items fuel' s'
          end
      end
  end
with skip_dict_items (fuel : nat) (s : string) : M string :=
  match fuel with
  | O => throw out_of_fuel
  | S fuel' =>
      match s with
      | String "e" rest => ret rest
      | _ =>
          '(_, s1) <- consume_string_view s ;;
          s2 <- match s1 with
                | EmptyString => ret s1
                | _ => skip_value fuel' s1
                end ;;
          match s2 with
          | EmptyString =>
              throw (bt_deserialize_invalid "bt dict consumption failed: hit the end of string before the dict was done")
          | _ => skip_dict_items fuel' s2
          end
      end
  end.

Definition skip_fuel (s : string) : nat := S (S (2 * String.length s)).

(** [oxenc::bt_dict_consumer]: the unread bytes and the key that has
    been read but whose value has not ([key_]; [None] is the null
    view). *)
Record dict_consumer : Type := mkConsumer {
  rest : string;
  key_ : option string
}.

Definition key_view (k : option string) : string :=
  match k with Some s => s | None => EmptyString end.

Definition bt_dict_consumer (s : string) : M dict_consumer :=
  match s with
  | EmptyString => throw (runtime_error "Cannot create a bt_dict_consumer with an empty string_view")
  | String c s1 =>
      if (String.length s <? 2)%nat || negb (Ascii.eqb c "d") then
        throw (runtime_error "Cannot create a bt_dict_consumer with non-dict data")
      else ret (mkConsumer s1 None)
  end.

(** [consume_key]: read the next key unless one is cached; [false] at
    the end of the dict. *)
Definition consume_key (d : dict_consumer) : M (bool * dict_consumer) :=
  match key_ d with
  | Some _ => ret (true, d)
  | None =>
      match rest d with
      | EmptyString =>
          throw (bt_deserialize_invalid "expected a key or dict end, found end of string")
      | String ch _ =>
          if Ascii.eqb ch "e" then ret (false, d)
          else
            '(k, r) <- consume_string_view (rest d) ;;
            if front_is r not_e then ret (true, mkConsumer r (Some k))
            else throw (bt_deserialize_invalid "dict key isn't followed by a value")
      end
  end.

(** [skip_until find]: skip the entries whose key is smaller than
    [find]; the answer is whether the cursor now stands on [find].
    Every iteration consumes an entry, [fuel] bounds their number. *)
Fixpoint skip_until (fuel : nat) (d : dict_consumer) (find : string)
  : M (bool * dict_consumer) :=
  '(have, d1) <- consume_key d ;;
  if have && String.ltb (key_view (key_ d1)) find then
    match fuel with
    | O => throw out_of_fuel
    | S fuel' =>
        r <- skip_value (skip_fuel (rest d1)) (rest d1) ;;
        skip_until fuel' (mkConsumer r None) find
    end
  else ret (String.eqb (key_view (key_ d1)) find, d1).

Definition required (d : dict_consumer) (key : string) : M dict_consumer :=
  '(found, d1) <- skip_until (String.length (rest d)) d key ;;
  if found then ret d1
  else throw (out_of_range ("Key " ++ key ++ " not found")).

(** [require<std::string_view>(key)]. *)
Definition require_string_view (d : dict_consumer) (key : string)
  : M (string * dict_consumer) :=
  d1 <- required d key ;;
  '(v, r) <- consume_string_view (rest d1) ;;
  ret (v, mkConsumer r None).

(** [require<uint64_t>(key)]. *)
Definition require_uint64 (d : dict_consumer) (key : string)
  : M (Z * dict_consumer) :=
  d1 <- required d key ;;
  '(v, r) <- consume_uint64 (rest d1) ;;
  ret (v, mkConsumer r None).

(** [oxenc::bt_dict_producer]: [append] writes the key and the value
    in the order of the calls, [str] closes the dict. *)
Definition bt_string (s : string) : string :=
  format_size (String.length s) ++ ":" ++ s.

Definition bt_uint64 (v : Z) : string :=
  "i" ++ format_decimal (Z.to_N v) ++ "e".

Definition bt_dict_producer : string := "d".

Definition append_string (d : string) (key val : string) : string :=
  d ++ bt_string key ++ bt_string val.

Definition append_uint64 (d : string) (key : string) (val : Z) : string :=
  d ++ bt_string key ++ bt_uint64 val.

Definition str (d : string) : string := d ++ "e".

End bt.

(** ** Sizes of the fixed-size types *)

Definition sizeof_address : nat := 20.
Definition sizeof_bls_public_key : nat := 64.
Definition sizeof_bls_signature : nat := 128.

Fixpoint zero_bytes (n : nat) : string :=
  match n with
  | O => EmptyString
  | S n' => String zero (zero_bytes n')
  end.

(** Modelled from the spec: the [explicit operator bool] of
    [eth::address] (crypto/eth.h is not among the sources).  An address
    converts to [true] unless it is "the zero address". *)
Definition address_to_bool (a : string) : bool :=
  negb (String.eqb a (zero_bytes sizeof_address)).

(** [service_nodes::service_node_address], the identity of a peer. *)
Record service_node_address : Type := mkSnode {
  sn_pubkey : string;
  bls_pubkey : string;
  x_pubkey : string;
  ip : Z;
  port : Z
}.

(** [BLSRequestResult]. *)
Record BLSRequestResult : Type := mkRequestResult {
  sn : service_node_address;
  success : bool
}.

(** One call of [omq.request]: the peer it is addressed to, the command
    and the single data part. *)
Record omq_request : Type := mkRequest {
  req_to : string;
  req_name : string;
  req_message : string
}.

(** [BLSRewardsResponse]. *)
Record BLSRewardsResponse : Type := mkRewards {
  address : string;
  amount : Z;
  height : Z;
  signed_hash : string;
  signers_bls_pubkeys : list string;
  signature : string
}.

(** [AggregateExitResponse]. *)
Record AggregateExitResponse : Type := mkExit {
  exit_pubkey : string;
  exit_signed_hash : string;
  exit_signers_bls_pubkeys : list string;
  exit_signature : string
}.

(** ** The fan-out [BLSAggregator::nodesRequest]

    The function runs on the calling thread and the reply lambdas run on
    the threads of the transport.  Its behaviours are the interleavings
    of four kinds of atomic steps; a schedule (the list of steps the
    environment takes) is an input of the model.

    - [Dispatch]: one iteration of the [for] loop: the admission step
      and the [omq.request] for peer [next_i].
    - [Reply i ok parts]: the transport completes the request to peer
      [i], with the parts of a reply or with [ok = false], and calls
      the lambda of that request, once; the lambda runs [callback].
    - [Release i]: the rest of that lambda: the locked decrement of
      [active_connections].
    - [Join]: the final [cv.wait] finds [active_connections == 0] and
      the function returns. *)
Module FanOut.
Section FanOut.

Context {A : Type}.
Variable snodes : list service_node_address.
Variable request_name message : string.
Variable callback : A -> BLSRequestResult -> list string -> A.

Definition MAX_CONNECTIONS : nat := 900.

(** The condition of the [if (1)] that chooses between counting the
    request and waiting for a free slot. *)
Definition admission_gate : bool := true.

Inductive event : Type :=
| Dispatch
| Reply (i : nat) (ok : bool) (parts : list string)
| Release (i : nat)
| Join.

Record state : Type := mkState {
  next_i : nat;                        (* the loop variable [i] *)
  active_connections : nat;
  in_flight : list nat;                (* requests whose lambda has not started *)
  releasing : list nat;                (* lambdas between [callback] and the decrement *)
  acc : A;                             (* what [callback] has captured by reference *)
  sent : list omq_request;
  calls : list (nat * bool * list string);
  returned : bool
}.

Definition init (a : A) : state :=
  mkState 0 0 [] [] a [] [] false.

Definition default_snode : service_node_address :=
  mkSnode EmptyString EmptyString EmptyString 0 0.

Definition snode_at (i : nat) : service_node_address := nth i snodes default_snode.

Fixpoint remove_one (i : nat) (l : list nat) : list nat :=
  match l with
  | [] => []
  | j :: l' => if (i =? j)%nat then l' else j :: remove_one i l'
  end.

Definition mem (i : nat) (l : list nat) : bool := existsb (Nat.eqb i) l.

(** The admission step of one loop iteration: the new value of the
    counter, or [None] while the thread has to wait. *)
Definition admission (active : nat) : option nat :=
  if admission_gate then Some (S active)
  else if (active <? MAX_CONNECTIONS)%nat then Some active
  else None.

(** One step; [None] when the step is not enabled in the state. *)
Definition step (e : event) (s : state) : option state :=
  if returned s then None
  else
    match e with
    | Dispatch =>
        if (next_i s <? List.length snodes)%nat then
          match admission (active_connections s) with
          | Some a =>
              Some (mkState (S (next_i s)) a
                      (next_i s :: in_flight s) (releasing s) (acc s)
                      (sent s ++ [mkRequest (x_pubkey (snode_at (next_i s)))
                                    request_name message])
                      (calls s) false)
          | None => None
          end
        else None
    | Reply i ok parts =>
        if mem i (in_flight s) then
          Some (mkState (next_i s) (active_connections s)
                  (remove_one i (in_flight s)) (i :: releasing s)
                  (callback (acc s) (mkRequestResult (snode_at i) ok) parts)
                  (sent s) (calls s ++ [(i, ok, parts)]) false)
        else None
    | Release i =>
        if mem i (releasing s) then
          match active_connections s with
          | O => None                  (* [assert(active_connections)] *)
          | S a =>
              Some (mkState (next_i s) a (in_flight s) (remove_one i (releasing s))
                      (acc s) (sent s) (calls s) false)
          end
        else None
    | Join =>
        if (next_i s =? List.length snodes)%nat && (active_connections s =? 0)%nat then
          Some (mkState (next_i s) (active_connections s) (in_flight s) (releasing s)
                  (acc s) (sent s) (calls s) true)
        else None
    end.

(** A step that is not enabled does not happen. *)
Definition step_or_stay (e : event) (s : state) : state :=
  match step e s with
  | Some s' => s'
  | None => s
  end.

Fixpoint exec (schedule : list event) (s : state) : state :=
  match schedule with
  | [] => s
  | e :: schedule' => exec schedule' (step_or_stay e s)
  end.

(** The states of the runs of one call. *)
Inductive reachable (a : A) : state -> Prop :=
| reach_init : reachable a (init a)
| reach_step : forall s e s', reachable a s -> step e s = Some s' -> reachable a s'.

(** The schedule in which the transport answers every request as soon
    as it has been sent; [answers] gives the reply of each peer. *)
Fixpoint sequential_from (i : nat) (answers : list (bool * list string)) : list event :=
  match answers with
  | [] => [Join]
  | (ok, parts) :: answers' =>
      Dispatch :: Reply i ok parts :: Release i :: sequential_from (S i) answers'
  end.

Definition sequential (answers : list (bool * list string)) : list event :=
  sequential_from 0 answers.

(** What [callback] has done after the calls of a log. *)
Definition replay (log : list (nat * bool * list string)) (a : A) : A :=
  fold_left (fun a c => callback a (mkRequestResult (snode_at (fst (fst c))) (snd (fst c))) (snd c))
            log a.

Definition call_index (c : nat * bool * list string) : nat := fst (fst c).

(** The log of the calls of the sequential schedule. *)
Fixpoint indexed_from (i : nat) (answers : list (bool * list string))
  : list (nat * bool * list string) :=
  match answers with
  | [] => []
  | (ok, parts) :: answers' => (i, ok, parts) :: indexed_from (S i) answers'
  end.

(** The requests of the first [n] loop iterations. *)
Definition requests_to (n : nat) : list omq_request :=
  map (fun i => mkRequest (x_pubkey (snode_at i)) request_name message) (seq 0 n).

(** What holds of every state of a run that started with [a]: every
    request dispatched so far is either waiting for its reply or in the
    log of the calls; the lambdas that have not released their slot are
    among the logged ones; the counter counts the requests that wait
    and the slots that are not released. *)
Record invariant (a : A) (s : state) : Prop := mkInvariant {
  inv_next : next_i s <= List.length snodes;
  inv_active : active_connections s = List.length (in_flight s) + List.length (releasing s);
  inv_perm : Permutation (in_flight s ++ map call_index (calls s)) (seq 0 (next_i s));
  inv_releasing : exists released,
                  Permutation (releasing s ++ released) (map call_index (calls s));
  inv_sent : sent s = requests_to (next_i s);
  inv_acc : acc s = replay (calls s) a;
  inv_returned : returned s = true ->
                 next_i s = List.length snodes /\ active_connections s = 0
}.

End FanOut.
End FanOut.

(** ** Collaborators

    What the translation unit calls but does not define: the hash, the
    tag builder and the BLS operations of the [bls] and [mcl] libraries.
    They are an interface; the code is verified for every
    implementation of it. *)
Class Primitives : Type := {
  network_type : Type;
  (** Keccak-256 of a byte string. *)
  keccak256 : string -> string;
  (** [BLSSigner::buildTagHash(baseTag, nettype)]. *)
  buildTagHash : string -> network_type -> string;
  rewardTag : string;
  removalTag : string;
  liquidateTag : string;
  (** [bls::PublicKey] and [bls::Signature] with [clear] and [add]. *)
  G1 : Type;
  G2 : Type;
  G2_clear : G2;
  G2_add : G2 -> G2 -> G2;
  (** [bls_utils]: conversions between curve points and their bytes. *)
  from_crypto_signature : string -> G2;
  to_crypto_signature : G2 -> string;
  from_crypto_pubkey : string -> G1;
  (** [sig.verifyHash(pubkey, hash)]. *)
  verifyHash : G2 -> G1 -> string -> bool;
  (** The key of a node's [BLSSigner] and its [signHash]. *)
  secret_key : Type;
  signHash : secret_key -> string -> string;
  (** How [fmt] prints a BLS public key. *)
  format_key : string -> string
}.

Section Aggregator.

Context {P : Primitives}.

(** Modelled from the spec: the variadic [crypto::keccak] of
    crypto/hash.h, which is not among the sources: the "hash" of the
    spec's [hash(a || b || c)], over the concatenated bytes of its
    arguments. *)
Definition keccak (parts : list string) : string :=
  keccak256 (String.concat EmptyString parts).

(** What the aggregator reads from [cryptonote::core]. *)
Record core : Type := mkCore {
  get_nettype : network_type;
  service_node : bool;
  (** [sqlite_db().get_accrued_earnings(address)]: height and amount. *)
  get_accrued_earnings : string -> Z * Z;
  (** [get_service_node_list().height()]. *)
  service_node_list_height : Z;
  is_node_removable : string -> bool;
  is_node_liquidatable : string -> bool;
  bls_signer_key : secret_key;
  (** [copy_reachable_active_service_node_addresses]. *)
  reachable_active_service_node_addresses : list service_node_address
}.

(** Modelled from the spec: the one-argument
    [BLSSigner::buildTagHash(baseTag)] of bls/bls_signer.cpp, which is
    not among the sources: the tag "using this node's Tag Builder",
    that is for the network of the node the signer belongs to. *)
Definition signer_buildTagHash (c : core) (baseTag : string) : string :=
  buildTagHash baseTag (get_nettype c).

(** *** Responders

    A responder returns the message with the replies it has sent and
    the signatures its signer has produced.  Its first argument after
    the message is the indeterminate initial content of the local
    variable that [extract_1part_msg] is to fill. *)

Definition get_reward_balance (c : core) (m : Message) (uninitialised : string)
  : M (Message * list string) :=
  '(m1, eth_addr, ok) <- extract_1part_msg sizeof_address m uninitialised
                           "BLS rewards" "ETH address" ;;
  if negb ok then ret (m1, [])
  else
    let '(batchdb_height, amount) := get_accrued_earnings c eth_addr in
    if (amount =? 0)%Z then
      ret (send_reply m1 ["400"; "Address has a zero balance in the database"], [])
    else
      let tag := signer_buildTagHash c rewardTag in
      let sig := signHash (bls_signer_key c)
                   (keccak [tag; eth_addr; tools.encode_integer_be 32 amount]) in
      let d := bt.bt_dict_producer in
      let d := bt.append_string d "address" eth_addr in
      let d := bt.append_uint64 d "balance" amount in
      let d := bt.append_uint64 d "height" batchdb_height in
      let d := bt.append_string d "signature" sig in
      ret (send_reply m1 ["200"; bt.str d], [sig]).

Definition get_exit (c : core) (m : Message) (uninitialised : string)
  : M (Message * list string) :=
  '(m1, exiting_pk, ok) <- extract_1part_msg sizeof_bls_public_key m uninitialised
                             "BLS exit" "BLS pubkey" ;;
  if negb ok then ret (m1, [])
  else if negb (is_node_removable c exiting_pk) then
    ret (send_reply m1
           ["403";
            "Forbidden: The BLS pubkey " ++ format_key exiting_pk
              ++ " is not currently removable."], [])
  else
    let tag := signer_buildTagHash c removalTag in
    let sig := signHash (bls_signer_key c) (keccak [tag; exiting_pk]) in
    let d := bt.bt_dict_producer in
    let d := bt.append_string d "exit" exiting_pk in
    let d := bt.append_string d "signature" sig in
    ret (send_reply m1 ["200"; bt.str d], [sig]).

Definition get_liquidation (c : core) (m : Message) (uninitialised : string)
  : M (Message * list string) :=
  '(m1, liquidating_pk, ok) <- extract_1part_msg sizeof_bls_public_key m uninitialised
                                 "BLS exit" "BLS pubkey" ;;
  if negb ok then ret (m1, [])
  else if negb (is_node_liquidatable c liquidating_pk) then
    ret (send_reply m1
           ["403";
            "Forbidden: The BLS key " ++ format_key liquidating_pk
              ++ " is not currently liquidatable"], [])
  else
    let tag := signer_buildTagHash c liquidateTag in
    let sig := signHash (bls_signer_key c) (keccak [tag; liquidating_pk]) in
    let d := bt.bt_dict_producer in
    let d := bt.append_string d "liquidate" liquidating_pk in
    let d := bt.append_string d "signature" sig in
    ret (send_reply m1 ["200"; bt.str d], [sig]).

(** *** The response handlers

    Each handler is the lambda given to [nodesRequest].  Its [try]
    block is a computation in [M] that yields the signature to fold;
    the [catch] logs the rejection and leaves everything as it was.
    The accumulator is what the lambda captures by reference: [aggSig]
    and [result]. *)

Definition part (i : nat) (parts : list string) : string := nth i parts EmptyString.

Definition rewards_try (result : BLSRewardsResponse)
    (request_result : BLSRequestResult) (parts : list string) : M G2 :=
  if negb (success request_result) || negb (List.length parts =? 2)%nat
     || negb (String.eqb (part 0 parts) "200") then
    throw (runtime_error ("Error retrieving reward balance: " ++ String.concat " " parts))
  else
    d <- bt.bt_dict_consumer (part 1 parts) ;;
    '(bal, d) <- bt.require_uint64 d "balance" ;;
    '(hei, d) <- bt.require_uint64 d "height" ;;
    '(sig_guts, d) <- bt.require_string_view d "signature" ;;
    sig <- tools.make_from_guts sizeof_bls_signature sig_guts ;;
    '(addr_guts, d) <- bt.require_string_view d "address" ;;
    addr <- tools.make_from_guts sizeof_address addr_guts ;;
    if negb (String.eqb (address result) addr) then
      throw (runtime_error "ETH address does not match the request")
    else if negb (amount result =? bal)%Z || negb (hei =? height result)%Z then
      throw (runtime_error "Balance/height mismatch")
    else
      let bls_sig := from_crypto_signature sig in
      if negb (verifyHash bls_sig (from_crypto_pubkey (bls_pubkey (sn request_result)))
                 (signed_hash result)) then
        throw (runtime_error ("Invalid BLS signature for BLS pubkey "
                                ++ format_key (bls_pubkey (sn request_result))))
      else ret bls_sig.

Definition add_rewards_signer (result : BLSRewardsResponse) (pk : string)
  : BLSRewardsResponse :=
  mkRewards (address result) (amount result) (height result) (signed_hash result)
    (signers_bls_pubkeys result ++ [pk]) (signature result).

Definition rewards_on_response (st : G2 * BLSRewardsResponse)
    (request_result : BLSRequestResult) (parts : list string) : G2 * BLSRewardsResponse :=
  match rewards_try (snd st) request_result parts with
  | inr bls_sig =>
      (G2_add (fst st) bls_sig,
       add_rewards_signer (snd st) (bls_pubkey (sn request_result)))
  | inl _ => st
  end.

Definition exit_try (pubkey_key : string) (result : AggregateExitResponse)
    (request_result : BLSRequestResult) (parts : list string) : M G2 :=
  if negb (success request_result) || negb (List.length parts =? 2)%nat
     || negb (String.eqb (part 0 parts) "200") then
    throw (runtime_error ("Request returned an error: " ++ String.concat " " parts))
  else
    d <- bt.bt_dict_consumer (part 1 parts) ;;
    '(pk_guts, d) <- bt.require_string_view d pubkey_key ;;
    pk <- tools.make_from_guts sizeof_bls_public_key pk_guts ;;
    if negb (String.eqb (exit_pubkey result) pk) then
      throw (runtime_error "BLS pubkey does not match the request")
    else
      '(sig_guts, d) <- bt.require_string_view d "signature" ;;
      sig <- tools.make_from_guts sizeof_bls_signature sig_guts ;;
      let bls_sig := from_crypto_signature sig in
      if negb (verifyHash bls_sig (from_crypto_pubkey (bls_pubkey (sn request_result)))
                 (exit_signed_hash result)) then
        throw (runtime_error ("Invalid BLS signature for BLS pubkey "
                                ++ format_key (bls_pubkey (sn request_result))))
      else ret bls_sig.

Definition add_exit_signer (result : AggregateExitResponse) (pk : string)
  : AggregateExitResponse :=
  mkExit (exit_pubkey result) (exit_signed_hash result)
    (exit_signers_bls_pubkeys result ++ [pk]) (exit_signature result).

Definition exit_on_response (pubkey_key : string) (st : G2 * AggregateExitResponse)
    (request_result : BLSRequestResult) (parts : list string) : G2 * AggregateExitResponse :=
  match exit_try pubkey_key (snd st) request_result parts with
  | inr bls_sig =>
      (G2_add (fst st) bls_sig,
       add_exit_signer (snd st) (bls_pubkey (sn request_result)))
  | inl _ => st
  end.

(** [result.signature = bls_utils::to_crypto_signature(aggSig)]. *)
Definition set_rewards_signature (result : BLSRewardsResponse) (sig : string)
  : BLSRewardsResponse :=
  mkRewards (address result) (amount result) (height result) (signed_hash result)
    (signers_bls_pubkeys result) sig.

Definition set_exit_signature (result : AggregateExitResponse) (sig : string)
  : AggregateExitResponse :=
  mkExit (exit_pubkey result) (exit_signed_hash result)
    (exit_signers_bls_pubkeys result) sig.

(** The claim fields of the result as they are set before the fan-out:
    [BLSRewardsResponse result{}] and the four assignments that follow
    it. *)
Definition rewards_result_init (c : core) (address : string) (amount height : Z)
  : BLSRewardsResponse :=
  mkRewards address amount height
    (keccak [buildTagHash rewardTag (get_nettype c); address;
             tools.encode_integer_be 32 amount])
    [] (zero_bytes sizeof_bls_signature).

(** [AggregateExitResponse result] and its two assignments. *)
Definition exit_result_init (c : core) (bls_pubkey hash_tag : string)
  : AggregateExitResponse :=
  mkExit bls_pubkey (keccak [buildTagHash hash_tag (get_nettype c); bls_pubkey])
    [] (zero_bytes sizeof_bls_signature).

(** *** The aggregation entry points

    An entry point returns the requests it has handed to the
    transport and how the call ended: with an exception, still blocked
    in [nodesRequest] ([None]: the schedule is not a complete run), or
    with its result. *)

Definition nodesRequest {A : Type} (c : core) (request_name message : string)
    (callback : A -> BLSRequestResult -> list string -> A) (a : A)
    (schedule : list FanOut.event) : FanOut.state (A := A) :=
  FanOut.exec (reachable_active_service_node_addresses c) request_name message callback
    schedule (FanOut.init a).

Definition rewards_request (c : core) (address : string) (schedule : list FanOut.event)
  : list omq_request * M (option BLSRewardsResponse) :=
  let '(height, amount) := get_accrued_earnings c address in
  if negb (address_to_bool address) then
    ([], throw (invalid_argument
                  "Aggregating a rewards request for the zero address is invalid because address is invalid. Request rejected"))
  else if (amount =? 0)%Z then
    ([], throw (invalid_argument
                  "Aggregating a rewards request for 0 SENT is invalid because no rewards are available. Request rejected."))
  else if (service_node_list_height c <? height)%Z then
    ([], throw (invalid_argument
                  "Aggregating a rewards request is invalid because the height is greater than the blockchain height. Request rejected"))
  else
    let result := rewards_result_init c address amount height in
    let aggSig := G2_clear in
    let fin := nodesRequest c "bls.get_reward_balance" address
                 rewards_on_response (aggSig, result) schedule in
    let '(aggSig, result) := FanOut.acc fin in
    (FanOut.sent fin,
     if FanOut.returned fin then
       ret (Some (set_rewards_signature result (to_crypto_signature aggSig)))
     else ret None).

Definition aggregateExitOrLiquidate (c : core) (bls_pubkey : string)
    (hash_tag endpoint pubkey_key : string) (schedule : list FanOut.event)
  : list omq_request * M (option AggregateExitResponse) :=
  let result := exit_result_init c bls_pubkey hash_tag in
  let aggSig := G2_clear in
  let fin := nodesRequest c endpoint bls_pubkey
               (exit_on_response pubkey_key) (aggSig, result) schedule in
  let '(aggSig, result) := FanOut.acc fin in
  (FanOut.sent fin,
   if FanOut.returned fin then
     ret (Some (set_exit_signature result (to_crypto_signature aggSig)))
   else ret None).

Definition aggregateExit (c : core) (bls_pubkey : string) (schedule : list FanOut.event) :=
  aggregateExitOrLiquidate c bls_pubkey removalTag "bls.get_exit" "exit" schedule.

Definition aggregateLiquidation (c : core) (bls_pubkey : string)
    (schedule : list FanOut.event) :=
  aggregateExitOrLiquidate c bls_pubkey liquidateTag "bls.get_liquidation" "liquidate"
    schedule.

End Aggregator.

(** ** What a log of calls contributes

    The handlers fold a response into the aggregate and the contributor
    list when their [try] block yields a signature.  For stating what
    the result of a run holds: the key of the sender and the signature
    of each call of a log that the [try] block accepts for a claim. *)
Section Contributions.

Context {P : Primitives} {R : Type}.
Variable snodes : list service_node_address.
Variable try_block : R -> BLSRequestResult -> list string -> M G2.

Definition contribution (result : R) (call : nat * bool * list string)
  : list (string * G2) :=
  match try_block result
          (mkRequestResult (FanOut.snode_at snodes (fst (fst call))) (snd (fst call)))
          (snd call) with
  | inr bls_sig => [(bls_pubkey (FanOut.snode_at snodes (fst (fst call))), bls_sig)]
  | inl _ => []
  end.

Definition contributions (result : R) (log : list (nat * bool * list string))
  : list (string * G2) :=
  flat_map (contribution result) log.

End Contributions.

(** ** An executable instance

    A small implementation of the collaborators, used to run the code
    at explicit inputs: a polynomial hash in place of Keccak and, in
    place of the curve, the integers under addition with the signature
    of a hash [h] under the key [k] being [k * h] (so that signatures
    add up like BLS signatures do). *)
Module Toy.

Inductive network : Type := MAINNET | TESTNET.

Definition network_name (n : network) : string :=
  match n with
  | MAINNET => "mainnet"
  | TESTNET => "testnet"
  end.

Fixpoint hash_fold (s : string) (acc : Z) : Z :=
  match s with
  | EmptyString => acc
  | String c s' => hash_fold s' ((acc * 257 + Z.of_N (N_of_ascii c) + 1) mod 2 ^ 256)%Z
  end.

Definition hash (s : string) : string :=
  tools.encode_integer_be 32 (hash_fold s 1).

Definition point (s : string) : Z := tools.decode_integer_be s 0.

Definition sign (k : Z) (h : string) : string :=
  tools.encode_integer_be sizeof_bls_signature (k * point h).

Definition verify (sig pk : Z) (h : string) : bool :=
  (sig =? pk * point h)%Z.

(** The public key bytes of the node with key [k]. *)
Definition pubkey (k : Z) : string :=
  tools.encode_integer_be sizeof_bls_public_key k.

#[export] Instance primitives : Primitives := {|
  network_type := network;
  keccak256 := hash;
  buildTagHash := fun tag net => hash (tag ++ network_name net);
  rewardTag := "BLS_SIG_TRYANDINCREMENT_REWARD";
  removalTag := "BLS_SIG_TRYANDINCREMENT_REMOVE";
  liquidateTag := "BLS_SIG_TRYANDINCREMENT_LIQUIDATE";
  G1 := Z;
  G2 := Z;
  G2_clear := 0%Z;
  G2_add := Z.add;
  from_crypto_signature := point;
  to_crypto_signature := tools.encode_integer_be sizeof_bls_signature;
  from_crypto_pubkey := point;
  verifyHash := verify;
  secret_key := Z;
  signHash := sign;
  format_key := fun s => s
|}.

Definition peer (name : string) (k : Z) (ip : Z) : service_node_address :=
  mkSnode name (pubkey k) ("x-" ++ name) ip 22020.

Definition alice : service_node_address := peer "alice" 3 167772161.
Definition bob : service_node_address := peer "bob" 5 167772162.
Definition carol : service_node_address := peer "carol" 7 167772163.

(** A 20-byte recipient address and its accrued rewards. *)
Definition recipient : string := "recipient-0123456789".
Definition recipient_hex : string := "726563697069656e742d30313233343536373839".

Definition ledger (a : string) : Z * Z :=
  if String.eqb a recipient then (77, 1234)%Z else (0, 0)%Z.

(** A 64-byte BLS key of a node that may leave, and one that may be
    liquidated. *)
Definition leaving : string := pubkey 11.
Definition liquidated : string := pubkey 13.

(** The node with key [k] in a network of three peers. *)
Definition node (k : Z) : core :=
  mkCore MAINNET true ledger 100
    (String.eqb leaving) (String.eqb liquidated) k [alice; bob; carol].

(** The same node when only the first [n] copies of [alice] are
    reachable. *)
Definition crowded_node (n : nat) : core :=
  mkCore MAINNET true ledger 100
    (String.eqb leaving) (String.eqb liquidated) 1%Z (repeat alice n).

(** The reply of the node with key [k] to a request, if it sent
    exactly one. *)
Definition reply_of (r : M (Message * list string)) : list string :=
  match r with
  | inr (m, _) => nth 0 (replies m) []
  | inl _ => []
  end.

Definition reward_reply (k : Z) : list string :=
  reply_of (get_reward_balance (node k) (mkMessage [recipient_hex] []) EmptyString).

Definition exit_reply (k : Z) : list string :=
  ["200"; bt.str (bt.append_string (bt.append_string bt.bt_dict_producer "exit" leaving)
                    "signature" (sign k (keccak [buildTagHash removalTag MAINNET; leaving])))].

End Toy.

(** ** Proof automation *)

(** Reduce the projections of an explicit fan-out state. *)
Ltac fanout_fields :=
  cbn [FanOut.next_i FanOut.active_connections FanOut.in_flight FanOut.releasing
       FanOut.acc FanOut.sent FanOut.calls FanOut.returned].

Local Open Scope list_scope.
Local Open Scope nat_scope.


(** * Properties of the fan-out *)

Section FanOutFacts.

Context {A : Type}.
Variable snodes : list service_node_address.
Variables request_name message : string.
Variable callback : A -> BLSRequestResult -> list string -> A.

#[local] Abbreviation step := (FanOut.step snodes request_name message callback).
#[local] Abbreviation exec := (FanOut.exec snodes request_name message callback).
#[local] Abbreviation reachable := (FanOut.reachable snodes request_name message callback).
#[local] Abbreviation invariant := (FanOut.invariant snodes request_name message callback).
#[local] Abbreviation replay := (FanOut.replay snodes callback).

Lemma mem_In (i : nat) (l : list nat) : FanOut.mem i l = true <-> In i l.
Proof.
  unfold FanOut.mem. rewrite existsb_exists. split.
  - intros [j [Hj Heq]]. apply Nat.eqb_eq in Heq. now subst.
  - intros Hi. exists i. split; [assumption | apply Nat.eqb_refl].
Qed.

Lemma remove_one_perm (i : nat) (l : list nat) :
  In i l -> Permutation l (i :: FanOut.remove_one i l).
Proof.
  induction l as [|j l IH]; simpl; [contradiction|].
  intros Hin. destruct (Nat.eqb_spec i j) as [->|Hne].
  - reflexivity.
  - destruct Hin as [Heq|Hin]; [congruence|].
    rewrite perm_swap. constructor. now apply IH.
Qed.

Lemma remove_one_length (i : nat) (l : list nat) :
  In i l -> List.length l = S (List.length (FanOut.remove_one i l)).
Proof.
  intros Hin. apply remove_one_perm in Hin.
  now rewrite (Permutation_length Hin).
Qed.

Lemma replay_app (l1 l2 : list (nat * bool * list string)) (a : A) :
  replay (l1 ++ l2) a = replay l2 (replay l1 a).
Proof. unfold FanOut.replay. apply fold_left_app. Qed.

Lemma init_invariant (a : A) : invariant a (FanOut.init a).
Proof.
  constructor; simpl; try reflexivity.
  - lia.
  - exists []. reflexivity.
  - discriminate.
Qed.

Lemma step_invariant (a : A) (e : FanOut.event) (s s' : FanOut.state) :
  invariant a s -> step e s = Some s' -> invariant a s'.
Proof.
  intros [Hnext Hact Hperm [released Hrel] Hsent Hacc Hret]. unfold FanOut.step.
  destruct (FanOut.returned s) eqn:Hr; [discriminate|].
  destruct e as [|i ok parts|i|].
  - (* Dispatch *)
    destruct (Nat.ltb_spec (FanOut.next_i s) (List.length snodes)) as [Hlt|]; [|discriminate].
    unfold FanOut.admission, FanOut.admission_gate.
    intros [= <-]. constructor; fanout_fields; try discriminate.
    + lia.
    + simpl. lia.
    + rewrite seq_S. cbn [Nat.add app].
      apply Permutation_cons_app. rewrite app_nil_r. exact Hperm.
    + now exists released.
    + unfold FanOut.requests_to. rewrite seq_S, map_app. cbn [map Nat.add]. now rewrite Hsent.
    + assumption.
  - (* Reply *)
    destruct (FanOut.mem i (FanOut.in_flight s)) eqn:Hmem; [|discriminate].
    apply mem_In in Hmem.
    intros [= <-]. constructor; fanout_fields; try discriminate.
    + assumption.
    + rewrite Hact, (remove_one_length i (FanOut.in_flight s) Hmem). simpl. lia.
    + rewrite <- Hperm, map_app. cbn [map FanOut.call_index fst].
      rewrite (remove_one_perm i (FanOut.in_flight s) Hmem) at 2.
      rewrite app_assoc. rewrite <- Permutation_cons_append. reflexivity.
    + exists released. rewrite map_app. cbn [map FanOut.call_index fst app].
      rewrite <- Permutation_cons_append. now constructor.
    + assumption.
    + rewrite replay_app, <- Hacc. reflexivity.
  - (* Release *)
    destruct (FanOut.mem i (FanOut.releasing s)) eqn:Hmem; [|discriminate].
    apply mem_In in Hmem.
    destruct (FanOut.active_connections s) as [|n] eqn:Hn; [discriminate|].
    intros [= <-]. constructor; fanout_fields; try discriminate; try assumption.
    + pose proof (remove_one_length i (FanOut.releasing s) Hmem). lia.
    + exists (i :: released). rewrite <- Hrel.
      rewrite (remove_one_perm i (FanOut.releasing s) Hmem) at 2.
      cbn [app]. symmetry. apply Permutation_middle.
  - (* Join *)
    destruct (Nat.eqb_spec (FanOut.next_i s) (List.length snodes)) as [Hn|]; [|discriminate].
    destruct (Nat.eqb_spec (FanOut.active_connections s) 0) as [Hz|]; [|discriminate].
    simpl. intros [= <-]. constructor; fanout_fields; eauto.
Qed.

Lemma reachable_invariant (a : A) (s : FanOut.state) : reachable a s -> invariant a s.
Proof.
  induction 1 as [|s e s' _ IH Hstep].
  - apply init_invariant.
  - exact (step_invariant a e s s' IH Hstep).
Qed.

Lemma step_or_stay_reachable (a : A) (e : FanOut.event) (s : FanOut.state) :
  reachable a s -> reachable a (FanOut.step_or_stay snodes request_name message callback e s).
Proof.
  intros Hs. unfold FanOut.step_or_stay.
  destruct (step e s) as [s'|] eqn:Hstep; [|assumption].
  now apply FanOut.reach_step with (s := s) (e := e).
Qed.

Lemma exec_reachable (a : A) (schedule : list FanOut.event) (s : FanOut.state) :
  reachable a s -> reachable a (exec schedule s).
Proof.
  revert s. induction schedule as [|e schedule IH]; intros s Hs; simpl; [assumption|].
  apply IH. now apply step_or_stay_reachable.
Qed.

(** Once the call has returned nothing is in flight and the log holds
    one call for every peer of the list. *)
Lemma returned_all_called (a : A) (s : FanOut.state) :
  invariant a s -> FanOut.returned s = true ->
  FanOut.in_flight s = [] /\ FanOut.releasing s = [] /\
  Permutation (map FanOut.call_index (FanOut.calls s)) (seq 0 (List.length snodes)).
Proof.
  intros [Hnext Hact Hperm _ _ _ Hret] Hr.
  destruct (Hret Hr) as [Hn Hz].
  rewrite Hz in Hact.
  assert (Hf : FanOut.in_flight s = []) by (apply length_zero_iff_nil; lia).
  assert (Hl : FanOut.releasing s = []) by (apply length_zero_iff_nil; lia).
  repeat split; try assumption.
  rewrite Hf, Hn in Hperm. exact Hperm.
Qed.

(** The number of requests that hold a slot never exceeds the number
    of peers. *)
Lemma active_le_peers (a : A) (s : FanOut.state) :
  invariant a s -> FanOut.active_connections s <= List.length snodes.
Proof.
  intros [Hnext Hact Hperm [released Hrel] _ _ _].
  apply Permutation_length in Hperm, Hrel.
  rewrite length_app in Hperm, Hrel. rewrite length_seq in Hperm. lia.
Qed.

Lemma exec_app (l1 l2 : list FanOut.event) (s : FanOut.state) :
  exec (l1 ++ l2) s = exec l2 (exec l1 s).
Proof.
  revert s. induction l1 as [|e l1 IH]; intros s; simpl; [reflexivity|apply IH].
Qed.

(** The sequential schedule is a complete run: started where nothing is
    in flight, it calls the remaining peers in the order of the list
    and returns. *)
Lemma sequential_from_run (answers : list (bool * list string)) (s : FanOut.state) :
  FanOut.returned s = false ->
  FanOut.active_connections s = 0 ->
  FanOut.in_flight s = [] -> FanOut.releasing s = [] ->
  FanOut.next_i s + List.length answers = List.length snodes ->
  let s' := exec (FanOut.sequential_from (FanOut.next_i s) answers) s in
  FanOut.returned s' = true /\
  FanOut.calls s' = (FanOut.calls s ++ FanOut.indexed_from (FanOut.next_i s) answers)%list /\
  FanOut.acc s' = replay (FanOut.indexed_from (FanOut.next_i s) answers) (FanOut.acc s).
Proof.
  revert s. induction answers as [|[ok parts] answers IH]; intros s Hr Hz Hf Hl Hn.
  - simpl in *. unfold FanOut.step_or_stay, FanOut.step. rewrite Hr, Hz.
    replace (FanOut.next_i s =? List.length snodes) with true
      by (symmetry; apply Nat.eqb_eq; lia).
    simpl. now rewrite app_nil_r.
  - cbn [FanOut.sequential_from FanOut.exec FanOut.indexed_from].
    cbn [List.length] in Hn.
    set (s1 := FanOut.step_or_stay snodes request_name message callback FanOut.Dispatch s).
    assert (H1 : s1 = FanOut.mkState (S (FanOut.next_i s)) 1 [FanOut.next_i s] []
                        (FanOut.acc s)
                        (FanOut.sent s ++ [mkRequest (x_pubkey (FanOut.snode_at snodes (FanOut.next_i s)))
                                             request_name message])%list
                        (FanOut.calls s) false).
    { unfold s1, FanOut.step_or_stay, FanOut.step. rewrite Hr, Hz, Hf, Hl.
      replace (FanOut.next_i s <? List.length snodes) with true
        by (symmetry; apply Nat.ltb_lt; lia).
      reflexivity. }
    set (s2 := FanOut.step_or_stay snodes request_name message callback
                 (FanOut.Reply (FanOut.next_i s) ok parts) s1).
    assert (H2 : s2 = FanOut.mkState (S (FanOut.next_i s)) 1 [] [FanOut.next_i s]
                        (callback (FanOut.acc s)
                           (mkRequestResult (FanOut.snode_at snodes (FanOut.next_i s)) ok) parts)
                        (FanOut.sent s1) (FanOut.calls s ++ [(FanOut.next_i s, ok, parts)])%list false).
    { unfold s2, FanOut.step_or_stay, FanOut.step. rewrite H1. fanout_fields.
      unfold FanOut.mem. simpl. rewrite Nat.eqb_refl. reflexivity. }
    set (s3 := FanOut.step_or_stay snodes request_name message callback
                 (FanOut.Release (FanOut.next_i s)) s2).
    assert (H3 : s3 = FanOut.mkState (S (FanOut.next_i s)) 0 [] []
                        (callback (FanOut.acc s)
                           (mkRequestResult (FanOut.snode_at snodes (FanOut.next_i s)) ok) parts)
                        (FanOut.sent s1) (FanOut.calls s ++ [(FanOut.next_i s, ok, parts)])%list false).
    { unfold s3, FanOut.step_or_stay, FanOut.step. rewrite H2. fanout_fields.
      unfold FanOut.mem. simpl. rewrite Nat.eqb_refl. reflexivity. }
    assert (Hnext3 : FanOut.next_i s3 = S (FanOut.next_i s)) by now rewrite H3.
    specialize (IH s3). rewrite Hnext3 in IH.
    destruct IH as [IHr [IHc IHa]]; try (rewrite H3; reflexivity); try lia.
    cbv zeta. repeat split.
    + exact IHr.
    + rewrite IHc, H3. fanout_fields. now rewrite <- app_assoc.
    + rewrite IHa, H3. fanout_fields. reflexivity.
Qed.

End FanOutFacts.

(** * Theorems on the fan-out *)

(** C6. In every run of [nodesRequest] that has returned, the callback
    has been called exactly once for every peer of the list (the indices
    of the logged calls are a permutation of [0 .. n-1]), each time with
    that peer's address, the success flag and the reply parts the
    transport delivered; nothing is still in flight or unreleased when
    it returns.  A failed request is a call like any other, so it keeps
    no other peer from being called.  And the function does return:
    whatever the transport answers to each peer, the schedule that
    answers the requests one after the other is a complete run. *)
Theorem nodesRequest_calls_every_peer_once :
  forall (A : Type) (snodes : list service_node_address) (request_name message : string)
         (callback : A -> BLSRequestResult -> list string -> A) (a : A),
    (forall s : FanOut.state,
        FanOut.reachable snodes request_name message callback a s ->
        FanOut.returned s = true ->
        Permutation (map FanOut.call_index (FanOut.calls s)) (seq 0 (List.length snodes)) /\
        FanOut.in_flight s = [] /\ FanOut.releasing s = [] /\
        FanOut.acc s = FanOut.replay snodes callback (FanOut.calls s) a) /\
    (forall answers : list (bool * list string),
        List.length answers = List.length snodes ->
        let s := FanOut.exec snodes request_name message callback
                   (FanOut.sequential answers) (FanOut.init a) in
        FanOut.reachable snodes request_name message callback a s /\
        FanOut.returned s = true /\
        FanOut.calls s = FanOut.indexed_from 0 answers).
Proof.
  intros A snodes request_name message callback a. split.
  - intros s Hreach Hret.
    pose proof (reachable_invariant _ _ _ _ _ _ Hreach) as Hinv.
    destruct (returned_all_called _ _ _ _ _ _ Hinv Hret) as [Hf [Hl Hperm]].
    repeat split; try assumption.
    apply (FanOut.inv_acc _ _ _ _ _ _ Hinv).
  - intros answers Hlen. cbv zeta. split.
    + apply exec_reachable. constructor.
    + destruct (sequential_from_run snodes request_name message callback answers
                  (FanOut.init a)) as [Hr [Hc _]]; try reflexivity; try exact Hlen.
      split; [exact Hr | exact Hc].
Qed.

(** Three peers, the second of which cannot be reached; the replies
    arrive out of order. *)
Lemma nodesRequest_calls_every_peer_once_witness :
  let snodes := [Toy.alice; Toy.bob; Toy.carol] in
  let log (a : list string) (r : BLSRequestResult) (parts : list string) :=
    (a ++ [sn_pubkey (sn r)])%list in
  let s := FanOut.exec snodes "bls.get_exit" Toy.leaving log
             [FanOut.Dispatch; FanOut.Dispatch; FanOut.Reply 1 false [];
              FanOut.Dispatch; FanOut.Reply 2 true (Toy.exit_reply 7); FanOut.Release 1;
              FanOut.Reply 0 true (Toy.exit_reply 3); FanOut.Release 0; FanOut.Release 2;
              FanOut.Join] (FanOut.init []) in
  FanOut.returned s = true /\
  map FanOut.call_index (FanOut.calls s) = [1; 2; 0] /\
  Permutation (map FanOut.call_index (FanOut.calls s)) (seq 0 3) /\
  FanOut.acc s = ["bob"; "carol"; "alice"].
Proof.
  cbv zeta.
  assert (Hret : FanOut.returned
            (FanOut.exec [Toy.alice; Toy.bob; Toy.carol] "bls.get_exit" Toy.leaving
               (fun (a : list string) (r : BLSRequestResult) (_ : list string) =>
                  (a ++ [sn_pubkey (sn r)])%list)
               [FanOut.Dispatch; FanOut.Dispatch; FanOut.Reply 1 false [];
                FanOut.Dispatch; FanOut.Reply 2 true (Toy.exit_reply 7); FanOut.Release 1;
                FanOut.Reply 0 true (Toy.exit_reply 3); FanOut.Release 0; FanOut.Release 2;
                FanOut.Join] (FanOut.init [])) = true) by (vm_compute; reflexivity).
  destruct (nodesRequest_calls_every_peer_once (list string)
              [Toy.alice; Toy.bob; Toy.carol] "bls.get_exit" Toy.leaving
              (fun (a : list string) (r : BLSRequestResult) (_ : list string) =>
                 (a ++ [sn_pubkey (sn r)])%list) []) as [Hsafe _].
  destruct (Hsafe _ (exec_reachable _ _ _ _ _ _ _ (FanOut.reach_init _ _ _ _ _)) Hret)
    as [Hperm _].
  split; [exact Hret|].
  split; [vm_compute; reflexivity|].
  split; [exact Hperm|].
  vm_compute; reflexivity.
Defined.

(** C2, as the code has it.  The counter of a run counts the requests
    that wait for their reply and the lambdas that have not released
    their slot, and it is bounded by the number of peers of the list,
    not by [MAX_CONNECTIONS]: the loop takes the counting branch of
    [if (1)] in every iteration and never waits, so the next request is
    dispatched whatever the value of the counter. *)
Theorem nodesRequest_in_flight_bounded_by_peers :
  forall (A : Type) (snodes : list service_node_address) (request_name message : string)
         (callback : A -> BLSRequestResult -> list string -> A) (a : A) (s : FanOut.state),
    FanOut.reachable snodes request_name message callback a s ->
    FanOut.active_connections s
      = List.length (FanOut.in_flight s) + List.length (FanOut.releasing s) /\
    FanOut.active_connections s <= List.length snodes /\
    (FanOut.returned s = false ->
     FanOut.next_i s < List.length snodes ->
     exists s', FanOut.step snodes request_name message callback FanOut.Dispatch s = Some s' /\
                FanOut.active_connections s' = S (FanOut.active_connections s) /\
                FanOut.in_flight s' = FanOut.next_i s :: FanOut.in_flight s).
Proof.
  intros A snodes request_name message callback a s Hreach.
  pose proof (reachable_invariant _ _ _ _ _ _ Hreach) as Hinv.
  split; [apply (FanOut.inv_active _ _ _ _ _ _ Hinv)|].
  split; [apply (active_le_peers _ _ _ _ _ _ Hinv)|].
  intros Hr Hlt. unfold FanOut.step. rewrite Hr.
  apply Nat.ltb_lt in Hlt. rewrite Hlt.
  unfold FanOut.admission, FanOut.admission_gate.
  eexists. split; [reflexivity|]. split; reflexivity.
Qed.

Lemma nodesRequest_in_flight_bounded_by_peers_witness :
  let s := FanOut.exec [Toy.alice; Toy.bob; Toy.carol] "bls.get_exit" Toy.leaving
             (fun (a : unit) (_ : BLSRequestResult) (_ : list string) => a)
             [FanOut.Dispatch; FanOut.Dispatch; FanOut.Reply 0 false []] (FanOut.init tt) in
  FanOut.active_connections s = 2 /\
  FanOut.active_connections s
    = List.length (FanOut.in_flight s) + List.length (FanOut.releasing s) /\
  FanOut.active_connections s <= 3.
Proof.
  cbv zeta.
  destruct (nodesRequest_in_flight_bounded_by_peers unit
              [Toy.alice; Toy.bob; Toy.carol] "bls.get_exit" Toy.leaving
              (fun (a : unit) (_ : BLSRequestResult) (_ : list string) => a) tt _
              (exec_reachable _ _ _ _ _
                 [FanOut.Dispatch; FanOut.Dispatch; FanOut.Reply 0 false []] _
                 (FanOut.reach_init _ _ _ _ _))) as [Hact [Hle _]].
  split; [vm_compute; reflexivity|].
  split; [exact Hact | exact Hle].
Defined.

Section CrowdedNetwork.

#[local] Existing Instance Toy.primitives.

(** C2 fails on the code: with 901 reachable peers and a transport that
    has not answered yet, the 900 requests of the first 900 iterations
    saturate the cap, the next iteration dispatches all the same, and
    901 requests are in flight. *)
Lemma nodesRequest_exceeds_MAX_CONNECTIONS :
  let run n :=
    nodesRequest (Toy.crowded_node 901) "bls.get_exit" Toy.leaving
      (exit_on_response "exit")
      (G2_clear, exit_result_init (Toy.crowded_node 901) Toy.leaving removalTag)
      (repeat FanOut.Dispatch n) in
  FanOut.active_connections (run 900) = FanOut.MAX_CONNECTIONS /\
  FanOut.step (repeat Toy.alice 901) "bls.get_exit" Toy.leaving
    (exit_on_response "exit")
    FanOut.Dispatch (run 900) = Some (run 901) /\
  List.length (FanOut.in_flight (run 901)) = 901 /\
  List.length (FanOut.sent (run 901)) = 901 /\
  FanOut.calls (run 901) = [] /\
  FanOut.MAX_CONNECTIONS < FanOut.active_connections (run 901).
Proof.
  cbv zeta.
  split; [vm_compute; reflexivity|].
  split; [vm_compute; reflexivity|].
  split; [vm_compute; reflexivity|].
  split; [vm_compute; reflexivity|].
  split; [vm_compute; reflexivity|].
  vm_compute. reflexivity.
Qed.

End CrowdedNetwork.


(** * Properties of the byte codecs *)

Lemma encode_integer_be_length (n : nat) (v : Z) :
  String.length (tools.encode_integer_be n v) = n.
Proof. induction n as [|n IH]; simpl; [reflexivity | now rewrite IH]. Qed.

Lemma byte_high_bits (b k : Z) :
  (0 <= b < 256)%Z -> (8 <= k)%Z -> Z.testbit b k = false.
Proof.
  intros Hb Hk. destruct (Z.eq_dec b 0) as [->|Hnz]; [apply Z.bits_0|].
  apply Z.bits_above_log2; [lia|].
  apply Z.lt_le_trans with 8%Z; [|assumption].
  apply Z.log2_lt_pow2; lia.
Qed.

Lemma land_shiftl_byte (acc b : Z) :
  (0 <= b < 256)%Z -> Z.land (Z.shiftl acc 8) b = 0%Z.
Proof.
  intros Hb. apply Z.bits_inj'. intros k Hk.
  rewrite Z.land_spec, Z.bits_0.
  destruct (Z.ltb_spec k 8) as [Hlt|Hge].
  - rewrite Z.shiftl_spec_low by assumption. reflexivity.
  - rewrite (byte_high_bits b k Hb Hge). apply andb_false_r.
Qed.

Lemma lor_shiftl_byte (acc b : Z) :
  (0 <= b < 256)%Z -> Z.lor (Z.shiftl acc 8) b = (acc * 256 + b)%Z.
Proof.
  intros Hb.
  rewrite <- Z.lxor_lor by (now apply land_shiftl_byte).
  rewrite <- Z.add_nocarry_lxor by (now apply land_shiftl_byte).
  rewrite Z.shiftl_mul_pow2 by lia. reflexivity.
Qed.

Lemma byte_of_Z (b : Z) :
  (0 <= b < 256)%Z -> Z.of_N (N_of_ascii (ascii_of_N (Z.to_N b))) = b.
Proof.
  intros Hb. rewrite N_ascii_embedding by lia. lia.
Qed.

Lemma decode_encode_integer_be (n : nat) (v acc : Z) :
  (0 <= v)%Z ->
  tools.decode_integer_be (tools.encode_integer_be n v) acc
  = (acc * 2 ^ (8 * Z.of_nat n) + v mod 2 ^ (8 * Z.of_nat n))%Z.
Proof.
  intros Hv. revert acc. induction n as [|n IH]; intros acc.
  - simpl. rewrite Z.mod_1_r. lia.
  - cbn [tools.encode_integer_be tools.decode_integer_be].
    set (b := Z.land (Z.shiftr v (8 * Z.of_nat n)) 255).
    assert (Hb : b = ((v / 2 ^ (8 * Z.of_nat n)) mod 256)%Z).
    { unfold b. rewrite Z.shiftr_div_pow2 by lia.
      change 255%Z with (Z.ones 8). rewrite Z.land_ones by lia. reflexivity. }
    assert (Hrange : (0 <= b < 256)%Z) by (rewrite Hb; apply Z.mod_pos_bound; lia).
    rewrite byte_of_Z, lor_shiftl_byte, IH by assumption.
    replace (8 * Z.of_nat (S n))%Z with (8 * Z.of_nat n + 8)%Z by lia.
    rewrite Z.pow_add_r by lia. change (2 ^ 8)%Z with 256%Z.
    rewrite (Z.rem_mul_r v (2 ^ (8 * Z.of_nat n)) 256) by lia.
    rewrite Hb. ring.
Qed.

(** The 32 bytes of [encode_integer_be<32>] are the big-endian digits of
    a 64-bit amount. *)
Lemma encode_integer_be_32 (v : Z) :
  (0 <= v < 2 ^ 64)%Z ->
  String.length (tools.encode_integer_be 32 v) = 32 /\
  tools.decode_integer_be (tools.encode_integer_be 32 v) 0 = v.
Proof.
  intros Hv. split; [apply encode_integer_be_length|].
  rewrite decode_encode_integer_be by lia.
  rewrite Z.mod_small; [lia|].
  split; [lia|]. apply Z.lt_le_trans with (2 ^ 64)%Z; [lia|].
  apply Z.pow_le_mono_r; lia.
Qed.

(** * Properties of [extract_1part_msg] *)

Lemma length_take (n : nat) (s : string) :
  n <= String.length s -> String.length (take n s) = n.
Proof.
  revert s. induction n as [|n IH]; intros [|c s] H; simpl in *; try lia.
  now rewrite IH by lia.
Qed.

(** Bare hex of the right length is decoded and stored. *)
Lemma extract_1part_msg_bare_hex (sizeof_T : nat) (m : Message) (val cmd_name value_name hex : string) :
  data m = [hex] ->
  String.length hex = 2 * sizeof_T ->
  oxenc.is_hex hex = true ->
  extract_1part_msg sizeof_T m val cmd_name value_name = inr (m, oxenc.from_hex hex, true).
Proof.
  intros Hd Hlen Hhex. unfold extract_1part_msg, data0. rewrite Hd. cbn [List.length nth].
  rewrite Nat.eqb_refl. cbn [negb].
  replace (String.length hex =? 2 + 2 * sizeof_T) with false
    by (symmetry; apply Nat.eqb_neq; lia).
  cbn [andb]. rewrite Hhex, Hlen, Nat.eqb_refl. cbn [andb].
  unfold tools.make_from_hex_guts. cbn [andb]. rewrite Hlen, Nat.eqb_refl. reflexivity.
Qed.

(** Raw bytes of the right length are accepted, but the reference
    parameter keeps the content it had: the value rebuilt by
    [make_from_guts] is dropped. *)
Lemma extract_1part_msg_raw (sizeof_T : nat) (m : Message) (val cmd_name value_name raw : string) :
  data m = [raw] ->
  String.length raw = sizeof_T ->
  sizeof_T <> 0 ->
  extract_1part_msg sizeof_T m val cmd_name value_name = inr (m, val, true).
Proof.
  intros Hd Hlen Hnz. unfold extract_1part_msg, data0. rewrite Hd. cbn [List.length nth].
  rewrite Nat.eqb_refl. cbn [negb]. rewrite Hlen.
  replace (sizeof_T =? 2 + 2 * sizeof_T) with false by (symmetry; apply Nat.eqb_neq; lia).
  replace (sizeof_T =? 2 * sizeof_T) with false by (symmetry; apply Nat.eqb_neq; lia).
  cbn [andb]. rewrite Nat.eqb_refl.
  unfold tools.make_from_guts. rewrite Hlen, Nat.eqb_refl. reflexivity.
Qed.

Lemma is_hex_0x (s : string) :
  starts_with s "0x" || starts_with s "0X" = true -> oxenc.is_hex s = false.
Proof.
  intros H. unfold oxenc.is_hex.
  destruct s as [|c0 [|c1 s]]; cbn [starts_with] in H.
  - discriminate H.
  - rewrite !andb_false_r in H. discriminate H.
  -
    assert (Hx : oxenc.is_hex_digit c1 = false).
    { apply orb_true_iff in H. destruct H as [H|H];
        apply andb_true_iff in H; destruct H as [_ H];
        apply andb_true_iff in H; destruct H as [H _];
        apply Ascii.eqb_eq in H; rewrite <- H; reflexivity. }
    cbn [oxenc.all_hex]. rewrite Hx. rewrite andb_false_r. apply andb_false_r.
Qed.

(** A [0x]-prefixed argument never gets past the hex test, which is
    applied to the argument with its prefix: it is answered with the
    [400] of a wrong size. *)
Lemma extract_1part_msg_0x (sizeof_T : nat) (m : Message) (val cmd_name value_name arg : string) :
  data m = [arg] ->
  String.length arg = 2 + 2 * sizeof_T ->
  starts_with arg "0x" || starts_with arg "0X" = true ->
  exists text,
    extract_1part_msg sizeof_T m val cmd_name value_name
    = inr (send_reply m ["400"; text], val, false).
Proof.
  intros Hd Hlen H0x. unfold extract_1part_msg, data0. rewrite Hd. cbn [List.length nth].
  rewrite Nat.eqb_refl. cbn [negb].
  rewrite (is_hex_0x arg H0x). rewrite !andb_false_r.
  rewrite Hlen.
  replace (2 + 2 * sizeof_T =? sizeof_T) with false by (symmetry; apply Nat.eqb_neq; lia).
  eexists. reflexivity.
Qed.

(** Whenever the function answers [false] it has sent exactly one reply,
    a [400], and has not touched the reference parameter; whenever it
    answers [true] it has sent none.  It never throws. *)
Lemma extract_1part_msg_outcome (sizeof_T : nat) (m : Message) (val cmd_name value_name : string) :
  (exists text, extract_1part_msg sizeof_T m val cmd_name value_name
                = inr (send_reply m ["400"; text], val, false)) \/
  (exists v, extract_1part_msg sizeof_T m val cmd_name value_name = inr (m, v, true)).
Proof.
  unfold extract_1part_msg.
  destruct (negb (List.length (data m) =? 1)); [left; eexists; reflexivity|].
  destruct ((String.length (data0 m) =? 2 + 2 * sizeof_T)
            && (starts_with (data0 m) "0x" || starts_with (data0 m) "0X")
            && oxenc.is_hex (data0 m)) eqn:H1.
  { apply andb_true_iff in H1. destruct H1 as [H1 Hhex].
    apply andb_true_iff in H1. destruct H1 as [_ H0x].
    rewrite (is_hex_0x _ H0x) in Hhex. discriminate. }
  destruct ((String.length (data0 m) =? 2 * sizeof_T) && oxenc.is_hex (data0 m)) eqn:H2.
  { apply andb_true_iff in H2. destruct H2 as [Hlen _]. apply Nat.eqb_eq in Hlen.
    unfold tools.make_from_hex_guts. cbn [andb]. rewrite Hlen, Nat.eqb_refl.
    right. eexists. reflexivity. }
  destruct (String.length (data0 m) =? sizeof_T) eqn:H3.
  { apply Nat.eqb_eq in H3. unfold tools.make_from_guts. rewrite H3, Nat.eqb_refl.
    right. eexists. reflexivity. }
  left. eexists. reflexivity.
Qed.

(** C3 at three encodings of one 20-byte address.  Bare hex stores the
    decoded address.  The raw bytes are accepted ([true], no reply) but
    the output parameter keeps whatever it held before the call.  The
    [0x]-prefixed hex is answered with [400] and [false]. *)
Theorem extract_1part_msg_encodings_disagree :
  forall val : string,
    extract_1part_msg sizeof_address (mkMessage [Toy.recipient_hex] []) val
      "BLS rewards" "ETH address"
    = inr (mkMessage [Toy.recipient_hex] [], Toy.recipient, true) /\
    extract_1part_msg sizeof_address (mkMessage [Toy.recipient] []) val
      "BLS rewards" "ETH address"
    = inr (mkMessage [Toy.recipient] [], val, true) /\
    extract_1part_msg sizeof_address (mkMessage ["0x" ++ Toy.recipient_hex]%string []) val
      "BLS rewards" "ETH address"
    = inr (mkMessage ["0x" ++ Toy.recipient_hex]%string
             [["400";
               "Bad request: BLS rewards command data should be a 20-byte ETH address; got 42 bytes"]],
           val, false).
Proof.
  intros val. split; [|split].
  - rewrite (extract_1part_msg_bare_hex sizeof_address _ val _ _ Toy.recipient_hex);
      reflexivity.
  - apply (extract_1part_msg_raw sizeof_address _ val _ _ Toy.recipient);
      [reflexivity | reflexivity | discriminate].
  - reflexivity.
Qed.


(** * Properties of the response handlers *)

(** What the two handlers have in common: the [try] block decides from
    the claim fields alone, and an accepted response adds its signature
    to the aggregate and the key of its sender to the list. *)
Section Fold.

Context {P : Primitives} {R : Type}.
Variable snodes : list service_node_address.
Variable try_block : R -> BLSRequestResult -> list string -> M G2.
Variable add_signer : R -> string -> R.
Variable signers : R -> list string.
Variable handler : G2 * R -> BLSRequestResult -> list string -> G2 * R.

Hypothesis handler_eq : forall st request_result parts,
  handler st request_result parts
  = match try_block (snd st) request_result parts with
    | inr bls_sig =>
        (G2_add (fst st) bls_sig, add_signer (snd st) (bls_pubkey (sn request_result)))
    | inl _ => st
    end.
Hypothesis try_block_frame : forall result pk request_result parts,
  try_block (add_signer result pk) request_result parts
  = try_block result request_result parts.
Hypothesis signers_add_signer : forall result pk,
  signers (add_signer result pk) = signers result ++ [pk].

#[local] Abbreviation replay := (FanOut.replay snodes handler).
#[local] Abbreviation sender c := (bls_pubkey (FanOut.snode_at snodes (FanOut.call_index c))).
#[local] Abbreviation accepted result c :=
  (succeeded (try_block result
                (mkRequestResult (FanOut.snode_at snodes (fst (fst c))) (snd (fst c))) (snd c))).

Lemma handler_try_block st rr parts rr' parts' :
  try_block (snd (handler st rr parts)) rr' parts' = try_block (snd st) rr' parts'.
Proof.
  rewrite handler_eq. destruct (try_block (snd st) rr parts); [reflexivity|].
  cbn [snd]. apply try_block_frame.
Qed.

Lemma replay_try_block log st rr parts :
  try_block (snd (replay log st)) rr parts = try_block (snd st) rr parts.
Proof.
  revert st. unfold FanOut.replay.
  induction log as [|c log IH]; intros st; cbn [fold_left]; [reflexivity|].
  rewrite IH. apply handler_try_block.
Qed.

(** The contributor list after a log of calls: the keys of the senders
    of the accepted responses, in the order of the calls. *)
Lemma replay_signers log st :
  signers (snd (replay log st))
  = signers (snd st) ++ map (fun c => sender c) (filter (fun c => accepted (snd st) c) log).
Proof.
  revert st. unfold FanOut.replay.
  induction log as [|c log IH]; intros st; cbn [fold_left filter map].
  - now rewrite app_nil_r.
  - rewrite IH.
    assert (Hsame : filter (fun c0 => accepted (snd (handler st
                        (mkRequestResult (FanOut.snode_at snodes (fst (fst c))) (snd (fst c)))
                        (snd c))) c0) log
                    = filter (fun c0 => accepted (snd st) c0) log).
    { apply filter_ext. intros c0. now rewrite handler_try_block. }
    rewrite Hsame. rewrite handler_eq.
    destruct (try_block (snd st) _ (snd c)) as [e|g]; cbn [succeeded snd].
    + reflexivity.
    + rewrite signers_add_signer, <- app_assoc. reflexivity.
Qed.

(** Responses that are all rejected leave the accumulator as it was. *)
Lemma replay_rejected log st :
  (forall c, In c log -> accepted (snd st) c = false) -> replay log st = st.
Proof.
  revert st. unfold FanOut.replay.
  induction log as [|c log IH]; intros st Hall; cbn [fold_left]; [reflexivity|].
  assert (Hc : handler st (mkRequestResult (FanOut.snode_at snodes (fst (fst c))) (snd (fst c)))
                 (snd c) = st).
  { rewrite handler_eq. specialize (Hall c (or_introl eq_refl)).
    destruct (try_block (snd st) _ (snd c)); [reflexivity|discriminate]. }
  rewrite Hc. apply IH. intros c0 Hin. apply Hall. now right.
Qed.

End Fold.

(** The calls of a run are answers taken from its schedule. *)
Lemma exec_calls_from_schedule {A : Type} (snodes : list service_node_address)
    (request_name message : string) (callback : A -> BLSRequestResult -> list string -> A)
    (schedule : list FanOut.event) (s : FanOut.state) (c : nat * bool * list string) :
  In c (FanOut.calls (FanOut.exec snodes request_name message callback schedule s)) ->
  In c (FanOut.calls s) \/ In (FanOut.Reply (fst (fst c)) (snd (fst c)) (snd c)) schedule.
Proof.
  revert s. induction schedule as [|e schedule IH]; intros s Hin; cbn [FanOut.exec] in Hin.
  - now left.
  - apply IH in Hin. destruct Hin as [Hin|Hin]; [|right; now right].
    unfold FanOut.step_or_stay, FanOut.step in Hin.
    destruct (FanOut.returned s); [now left|].
    destruct e as [|i ok parts|i|].
    + destruct (FanOut.next_i s <? List.length snodes); [|now left].
      destruct (FanOut.admission (FanOut.active_connections s)); now left.
    + destruct (FanOut.mem i (FanOut.in_flight s)); [|now left].
      cbn [FanOut.calls] in Hin. apply in_app_or in Hin.
      destruct Hin as [Hin|[<-|[]]]; [now left|]. right. now left.
    + destruct (FanOut.mem i (FanOut.releasing s)); [|now left].
      destruct (FanOut.active_connections s); now left.
    + destruct ((FanOut.next_i s =? List.length snodes)
                && (FanOut.active_connections s =? 0)); now left.
Qed.

Section HandlerFacts.

Context {P : Primitives}.

Lemma rewards_on_response_eq st request_result parts :
  rewards_on_response st request_result parts
  = match rewards_try (snd st) request_result parts with
    | inr bls_sig =>
        (G2_add (fst st) bls_sig,
         add_rewards_signer (snd st) (bls_pubkey (sn request_result)))
    | inl _ => st
    end.
Proof. reflexivity. Qed.

Lemma exit_on_response_eq pubkey_key st request_result parts :
  exit_on_response pubkey_key st request_result parts
  = match exit_try pubkey_key (snd st) request_result parts with
    | inr bls_sig =>
        (G2_add (fst st) bls_sig, add_exit_signer (snd st) (bls_pubkey (sn request_result)))
    | inl _ => st
    end.
Proof. reflexivity. Qed.

(** The [try] blocks read the claim fields of [result] only. *)
Lemma rewards_try_frame result pk request_result parts :
  rewards_try (add_rewards_signer result pk) request_result parts
  = rewards_try result request_result parts.
Proof. reflexivity. Qed.

Lemma exit_try_frame pubkey_key result pk request_result parts :
  exit_try pubkey_key (add_exit_signer result pk) request_result parts
  = exit_try pubkey_key result request_result parts.
Proof. reflexivity. Qed.

(** A call of a handler changes neither of the claim fields. *)
Lemma rewards_on_response_frame st request_result parts :
  let st' := rewards_on_response st request_result parts in
  address (snd st') = address (snd st) /\ amount (snd st') = amount (snd st) /\
  height (snd st') = height (snd st) /\ signed_hash (snd st') = signed_hash (snd st) /\
  signature (snd st') = signature (snd st).
Proof.
  cbv zeta. unfold rewards_on_response.
  destruct (rewards_try (snd st) request_result parts); cbn [snd]; repeat split; reflexivity.
Qed.

Lemma exit_on_response_frame pubkey_key st request_result parts :
  let st' := exit_on_response pubkey_key st request_result parts in
  exit_pubkey (snd st') = exit_pubkey (snd st) /\
  exit_signed_hash (snd st') = exit_signed_hash (snd st) /\
  exit_signature (snd st') = exit_signature (snd st).
Proof.
  cbv zeta. unfold exit_on_response.
  destruct (exit_try pubkey_key (snd st) request_result parts); cbn [snd];
    repeat split; reflexivity.
Qed.

Lemma rewards_replay_frame snodes log st :
  let st' := FanOut.replay snodes rewards_on_response log st in
  address (snd st') = address (snd st) /\ amount (snd st') = amount (snd st) /\
  height (snd st') = height (snd st) /\ signed_hash (snd st') = signed_hash (snd st) /\
  signature (snd st') = signature (snd st).
Proof.
  cbv zeta. revert st. unfold FanOut.replay.
  induction log as [|c log IH]; intros st; cbn [fold_left]; [repeat split; reflexivity|].
  destruct (IH (rewards_on_response st
                  (mkRequestResult (FanOut.snode_at snodes (fst (fst c))) (snd (fst c))) (snd c)))
    as [Ha [Hb [Hc [Hd He]]]].
  destruct (rewards_on_response_frame st
              (mkRequestResult (FanOut.snode_at snodes (fst (fst c))) (snd (fst c))) (snd c))
    as [Ha' [Hb' [Hc' [Hd' He']]]].
  repeat split; congruence.
Qed.

Lemma exit_replay_frame pubkey_key snodes log st :
  let st' := FanOut.replay snodes (exit_on_response pubkey_key) log st in
  exit_pubkey (snd st') = exit_pubkey (snd st) /\
  exit_signed_hash (snd st') = exit_signed_hash (snd st) /\
  exit_signature (snd st') = exit_signature (snd st).
Proof.
  cbv zeta. revert st. unfold FanOut.replay.
  induction log as [|c log IH]; intros st; cbn [fold_left]; [repeat split; reflexivity|].
  destruct (IH (exit_on_response pubkey_key st
                  (mkRequestResult (FanOut.snode_at snodes (fst (fst c))) (snd (fst c))) (snd c)))
    as [Ha [Hb Hc]].
  destruct (exit_on_response_frame pubkey_key st
              (mkRequestResult (FanOut.snode_at snodes (fst (fst c))) (snd (fst c))) (snd c))
    as [Ha' [Hb' Hc']].
  repeat split; congruence.
Qed.

End HandlerFacts.

(** * Properties of the aggregation entry points *)

Section EntryPointFacts.

Context {P : Primitives}.
Variable c : core.

#[local] Abbreviation snodes := (reachable_active_service_node_addresses c).

(** The accumulator of a fan-out is the handler replayed over the log
    of its calls. *)
Lemma nodesRequest_acc {A : Type} (request_name message : string)
    (callback : A -> BLSRequestResult -> list string -> A) (a : A)
    (schedule : list FanOut.event) :
  let fin := nodesRequest c request_name message callback a schedule in
  FanOut.invariant snodes request_name message callback a fin /\
  FanOut.acc fin = FanOut.replay snodes callback (FanOut.calls fin) a.
Proof.
  cbv zeta. unfold nodesRequest.
  assert (Hinv : FanOut.invariant snodes request_name message callback a
                   (FanOut.exec snodes request_name message callback schedule (FanOut.init a))).
  { apply reachable_invariant, exec_reachable. constructor. }
  split; [exact Hinv | apply (FanOut.inv_acc _ _ _ _ _ _ Hinv)].
Qed.

Lemma nodesRequest_calls {A : Type} (request_name message : string)
    (callback : A -> BLSRequestResult -> list string -> A) (a : A)
    (schedule : list FanOut.event) (call : nat * bool * list string) :
  In call (FanOut.calls (nodesRequest c request_name message callback a schedule)) ->
  In (FanOut.Reply (fst (fst call)) (snd (fst call)) (snd call)) schedule.
Proof.
  unfold nodesRequest. intros Hin.
  apply exec_calls_from_schedule in Hin. destruct Hin as [[]|Hin]. exact Hin.
Qed.

(** The two callers of [aggregateExitOrLiquidate] satisfy its assertion
    [pubkey_key < "signature"]. *)
Lemma pubkey_keys_sort_before_signature :
  String.ltb "exit" "signature" = true /\ String.ltb "liquidate" "signature" = true.
Proof. split; reflexivity. Qed.

(** A rewards call whose own claim is sound goes through the fan-out. *)
Lemma rewards_request_valid (address : string) (schedule : list FanOut.event) :
  address_to_bool address = true ->
  snd (get_accrued_earnings c address) <> 0%Z ->
  (fst (get_accrued_earnings c address) <= service_node_list_height c)%Z ->
  let result := rewards_result_init c address (snd (get_accrued_earnings c address))
                  (fst (get_accrued_earnings c address)) in
  let fin := nodesRequest c "bls.get_reward_balance" address rewards_on_response
               (G2_clear, result) schedule in
  rewards_request c address schedule
  = (FanOut.sent fin,
     if FanOut.returned fin then
       inr (Some (set_rewards_signature (snd (FanOut.acc fin))
                    (to_crypto_signature (fst (FanOut.acc fin)))))
     else inr None).
Proof.
  intros Haddr Hamt Hh. cbv zeta. unfold rewards_request.
  destruct (get_accrued_earnings c address) as [h amt]. cbn [fst snd] in *.
  rewrite Haddr. cbn [negb].
  replace (amt =? 0)%Z with false by (symmetry; apply Z.eqb_neq; exact Hamt).
  replace (service_node_list_height c <? h)%Z with false by (symmetry; apply Z.ltb_ge; exact Hh).
  destruct (FanOut.acc _) as [aggSig result]. reflexivity.
Qed.

Lemma aggregateExitOrLiquidate_eq (bls_pubkey hash_tag endpoint pubkey_key : string)
    (schedule : list FanOut.event) :
  let fin := nodesRequest c endpoint bls_pubkey (exit_on_response pubkey_key)
               (G2_clear, exit_result_init c bls_pubkey hash_tag) schedule in
  aggregateExitOrLiquidate c bls_pubkey hash_tag endpoint pubkey_key schedule
  = (FanOut.sent fin,
     if FanOut.returned fin then
       inr (Some (set_exit_signature (snd (FanOut.acc fin))
                    (to_crypto_signature (fst (FanOut.acc fin)))))
     else inr None).
Proof.
  cbv zeta. unfold aggregateExitOrLiquidate.
  destruct (FanOut.acc _) as [aggSig result]. reflexivity.
Qed.

(** A rewards call either throws or its claim is sound. *)
Lemma rewards_request_cases (address : string) (schedule : list FanOut.event) :
  (address_to_bool address = false \/ snd (get_accrued_earnings c address) = 0%Z \/
   (service_node_list_height c < fst (get_accrued_earnings c address))%Z) /\
  (exists what, rewards_request c address schedule = ([], inl (invalid_argument what)))
  \/
  (address_to_bool address = true /\ snd (get_accrued_earnings c address) <> 0%Z /\
   (fst (get_accrued_earnings c address) <= service_node_list_height c)%Z) /\
  (exists r, snd (rewards_request c address schedule) = inr r).
Proof.
  destruct (address_to_bool address) eqn:Haddr.
  - destruct (Z.eq_dec (snd (get_accrued_earnings c address)) 0) as [Hamt|Hamt].
    + left. split; [tauto|]. unfold rewards_request.
      destruct (get_accrued_earnings c address) as [h amt]. cbn [snd] in Hamt. subst amt.
      rewrite Haddr. cbn [negb Z.eqb]. eexists. reflexivity.
    + destruct (Z.ltb_spec (service_node_list_height c) (fst (get_accrued_earnings c address)))
        as [Hh|Hh].
      * left. split; [tauto|]. unfold rewards_request.
        destruct (get_accrued_earnings c address) as [h amt]. cbn [fst snd] in *.
        rewrite Haddr. cbn [negb].
        replace (amt =? 0)%Z with false by (symmetry; apply Z.eqb_neq; exact Hamt).
        replace (service_node_list_height c <? h)%Z with true
          by (symmetry; apply Z.ltb_lt; exact Hh).
        eexists. reflexivity.
      * right. split; [tauto|].
        rewrite (rewards_request_valid address schedule Haddr Hamt Hh). cbn [snd].
        destruct (FanOut.returned _); eexists; reflexivity.
  - left. split; [tauto|]. unfold rewards_request.
    destruct (get_accrued_earnings c address) as [h amt].
    rewrite Haddr. cbn [negb]. eexists. reflexivity.
Qed.

End EntryPointFacts.

Lemma address_to_bool_false (a : string) :
  address_to_bool a = false <-> a = zero_bytes sizeof_address.
Proof.
  unfold address_to_bool. rewrite negb_false_iff. apply String.eqb_eq.
Qed.

(** C8. [rewards_request] throws if and only if the recipient is the
    zero address, or the ledger reports a zero amount, or the ledger
    reports a height above the local chain height.  What it throws is a
    [std::invalid_argument], and no request has been handed to the
    transport when it does. *)
Theorem rewards_request_rejects_iff :
  forall (P : Primitives) (c : core) (address : string) (schedule : list FanOut.event),
    ((exists e, snd (rewards_request c address schedule) = inl e) <->
     (address = zero_bytes sizeof_address \/
      snd (get_accrued_earnings c address) = 0%Z \/
      (fst (get_accrued_earnings c address) > service_node_list_height c)%Z)) /\
    (forall e, snd (rewards_request c address schedule) = inl e ->
               (exists what, e = invalid_argument what) /\
               fst (rewards_request c address schedule) = []).
Proof.
  intros P c address schedule.
  destruct (rewards_request_cases c address schedule)
    as [[Hbad [what Hthrow]]|[[Haddr [Hamt Hh]] [r Hret]]].
  - rewrite Hthrow. cbn [fst snd]. split.
    + split; [intros _|intros _; eexists; reflexivity].
      destruct Hbad as [Hz|[Hz|Hz]]; [left; now apply address_to_bool_false | tauto | right; right; lia].
    + intros e [= <-]. split; [eexists; reflexivity | reflexivity].
  - rewrite Hret. split.
    + split; [intros [e He]; discriminate|].
      intros [Hz|[Hz|Hz]]; [|contradiction|lia].
      apply address_to_bool_false in Hz. congruence.
    + intros e He. discriminate.
Qed.

(** The claim fields of the value a rewards call returns. *)
Lemma rewards_request_result_fields {P : Primitives} (c : core) (recipient : string)
    (schedule : list FanOut.event) (r : BLSRewardsResponse) :
  snd (rewards_request c recipient schedule) = inr (Some r) ->
  address r = recipient /\
  amount r = snd (get_accrued_earnings c recipient) /\
  height r = fst (get_accrued_earnings c recipient) /\
  signed_hash r
  = keccak [buildTagHash rewardTag (get_nettype c); recipient;
            tools.encode_integer_be 32 (snd (get_accrued_earnings c recipient))].
Proof.
  intros Hret.
  destruct (rewards_request_cases c recipient schedule)
    as [[_ [what Hthrow]]|[[Haddr [Hamt Hh]] _]].
  { rewrite Hthrow in Hret. discriminate. }
  rewrite (rewards_request_valid c recipient schedule Haddr Hamt Hh) in Hret.
  cbn [snd] in Hret.
  destruct (FanOut.returned _); [|discriminate]. injection Hret as <-.
  destruct (nodesRequest_acc c "bls.get_reward_balance" recipient rewards_on_response
              (G2_clear, rewards_result_init c recipient
                           (snd (get_accrued_earnings c recipient))
                           (fst (get_accrued_earnings c recipient))) schedule) as [_ Hacc].
  rewrite Hacc.
  destruct (rewards_replay_frame (reachable_active_service_node_addresses c)
              (FanOut.calls (nodesRequest c "bls.get_reward_balance" recipient
                 rewards_on_response
                 (G2_clear, rewards_result_init c recipient
                              (snd (get_accrued_earnings c recipient))
                              (fst (get_accrued_earnings c recipient))) schedule))
              (G2_clear, rewards_result_init c recipient
                           (snd (get_accrued_earnings c recipient))
                           (fst (get_accrued_earnings c recipient))))
    as [Ha [Hb [Hc [Hd _]]]].
  unfold set_rewards_signature. cbn [address amount height signed_hash].
  rewrite Ha, Hb, Hc, Hd. repeat split; reflexivity.
Qed.

(** The claim fields of the value an exit or liquidation call returns. *)
Lemma aggregateExitOrLiquidate_result_fields {P : Primitives} (c : core)
    (bls_pubkey hash_tag endpoint pubkey_key : string) (schedule : list FanOut.event)
    (r : AggregateExitResponse) :
  snd (aggregateExitOrLiquidate c bls_pubkey hash_tag endpoint pubkey_key schedule)
  = inr (Some r) ->
  exit_pubkey r = bls_pubkey /\
  exit_signed_hash r = keccak [buildTagHash hash_tag (get_nettype c); bls_pubkey].
Proof.
  intros Hret.
  rewrite aggregateExitOrLiquidate_eq in Hret. cbn [snd] in Hret.
  destruct (FanOut.returned _); [|discriminate]. injection Hret as <-.
  destruct (nodesRequest_acc c endpoint bls_pubkey (exit_on_response pubkey_key)
              (G2_clear, exit_result_init c bls_pubkey hash_tag) schedule) as [_ Hacc].
  rewrite Hacc.
  destruct (exit_replay_frame pubkey_key (reachable_active_service_node_addresses c)
              (FanOut.calls (nodesRequest c endpoint bls_pubkey (exit_on_response pubkey_key)
                 (G2_clear, exit_result_init c bls_pubkey hash_tag) schedule))
              (G2_clear, exit_result_init c bls_pubkey hash_tag)) as [Ha [Hb _]].
  unfold set_exit_signature. cbn [exit_pubkey exit_signed_hash].
  rewrite Ha, Hb. split; reflexivity.
Qed.

(** C10. The claim fields of the result are those of the caller's claim
    and of the ledger at every point of the fan-out, whatever the peers
    answer and in whatever order: a call of a handler changes the
    aggregate signature and the contributor list only, and the value
    returned carries the caller's address (or key), the ledger's amount
    and height, and the hash computed from them before the first
    request. *)
Theorem claim_fields_not_changed_by_responses :
  forall (P : Primitives) (c : core),
    (forall st request_result parts,
        let st' := rewards_on_response st request_result parts in
        address (snd st') = address (snd st) /\ amount (snd st') = amount (snd st) /\
        height (snd st') = height (snd st) /\ signed_hash (snd st') = signed_hash (snd st)) /\
    (forall pubkey_key st request_result parts,
        let st' := exit_on_response pubkey_key st request_result parts in
        exit_pubkey (snd st') = exit_pubkey (snd st) /\
        exit_signed_hash (snd st') = exit_signed_hash (snd st)) /\
    (forall recipient schedule r,
        snd (rewards_request c recipient schedule) = inr (Some r) ->
        address r = recipient /\
        amount r = snd (get_accrued_earnings c recipient) /\
        height r = fst (get_accrued_earnings c recipient) /\
        signed_hash r
        = keccak [buildTagHash rewardTag (get_nettype c); recipient;
                  tools.encode_integer_be 32 (snd (get_accrued_earnings c recipient))]) /\
    (forall bls_pubkey hash_tag endpoint pubkey_key schedule r,
        snd (aggregateExitOrLiquidate c bls_pubkey hash_tag endpoint pubkey_key schedule)
        = inr (Some r) ->
        exit_pubkey r = bls_pubkey /\
        exit_signed_hash r = keccak [buildTagHash hash_tag (get_nettype c); bls_pubkey]).
Proof.
  intros P c. split; [|split; [|split]].
  - intros st rr parts. cbv zeta.
    destruct (rewards_on_response_frame st rr parts) as [Ha [Hb [Hc [Hd _]]]]. tauto.
  - intros key st rr parts. cbv zeta.
    destruct (exit_on_response_frame key st rr parts) as [Ha [Hb _]]. tauto.
  - intros recipient schedule r Hret.
    apply (rewards_request_result_fields c recipient schedule r Hret).
  - intros bls_pubkey hash_tag endpoint pubkey_key schedule r Hret.
    apply (aggregateExitOrLiquidate_result_fields c _ _ _ _ _ r Hret).
Qed.

(** A fan-out in which no request is answered. *)
Lemma unreachable_network_returns {P : Primitives} {A : Type} (c : core)
    (request_name message : string)
    (callback : A -> BLSRequestResult -> list string -> A) (a : A) :
  let fin := nodesRequest c request_name message callback a
               (FanOut.sequential
                  (map (fun _ => (false, [])) (reachable_active_service_node_addresses c))) in
  FanOut.returned fin = true /\
  forall call, In call (FanOut.calls fin) -> snd (fst call) = false.
Proof.
  cbv zeta. unfold nodesRequest.
  destruct (sequential_from_run (reachable_active_service_node_addresses c)
              request_name message callback
              (map (fun _ => (false, @nil string)) (reachable_active_service_node_addresses c))
              (FanOut.init a)) as [Hr [Hc _]]; try reflexivity.
  { cbn [FanOut.init FanOut.next_i]. now rewrite length_map. }
  change (FanOut.next_i (FanOut.init a)) with 0 in Hr, Hc.
  split; [exact Hr|].
  intros call Hin. unfold FanOut.sequential in Hin. rewrite Hc in Hin.
  cbn [FanOut.init FanOut.calls app] in Hin.
  clear Hr Hc. revert Hin. generalize 0.
  induction (reachable_active_service_node_addresses c) as [|p l IH]; intros n Hin.
  - destruct Hin.
  - cbn [map FanOut.indexed_from] in Hin. destruct Hin as [<-|Hin]; [reflexivity|].
    now apply (IH (S n)).
Qed.

Lemma rewards_try_transport_failure {P : Primitives} result request_result parts :
  success request_result = false ->
  succeeded (rewards_try result request_result parts) = false.
Proof. intros H. unfold rewards_try. rewrite H. reflexivity. Qed.

Lemma exit_try_transport_failure {P : Primitives} pubkey_key result request_result parts :
  success request_result = false ->
  succeeded (exit_try pubkey_key result request_result parts) = false.
Proof. intros H. unfold exit_try. rewrite H. reflexivity. Qed.

(** C9. An aggregation call in which no response passes validation
    returns its result all the same: the signature is the conversion of
    the cleared aggregate and the contributor list is empty.  This holds
    for every schedule after which the call has returned, and the call
    does return, for instance when no peer can be reached at all. *)
Theorem no_valid_response_gives_identity :
  forall (P : Primitives) (c : core),
    (forall recipient schedule r,
        snd (rewards_request c recipient schedule) = inr (Some r) ->
        (forall i ok parts,
            In (FanOut.Reply i ok parts) schedule ->
            succeeded (rewards_try r
                         (mkRequestResult
                            (FanOut.snode_at (reachable_active_service_node_addresses c) i) ok)
                         parts) = false) ->
        signature r = to_crypto_signature G2_clear /\ signers_bls_pubkeys r = []) /\
    (forall bls_pubkey hash_tag endpoint pubkey_key schedule r,
        snd (aggregateExitOrLiquidate c bls_pubkey hash_tag endpoint pubkey_key schedule)
        = inr (Some r) ->
        (forall i ok parts,
            In (FanOut.Reply i ok parts) schedule ->
            succeeded (exit_try pubkey_key r
                         (mkRequestResult
                            (FanOut.snode_at (reachable_active_service_node_addresses c) i) ok)
                         parts) = false) ->
        exit_signature r = to_crypto_signature G2_clear /\ exit_signers_bls_pubkeys r = []) /\
    (forall bls_pubkey hash_tag endpoint pubkey_key,
        snd (aggregateExitOrLiquidate c bls_pubkey hash_tag endpoint pubkey_key
               (FanOut.sequential
                  (map (fun _ => (false, [])) (reachable_active_service_node_addresses c))))
        = inr (Some (mkExit bls_pubkey
                       (keccak [buildTagHash hash_tag (get_nettype c); bls_pubkey])
                       [] (to_crypto_signature G2_clear)))) /\
    (forall recipient,
        address_to_bool recipient = true ->
        snd (get_accrued_earnings c recipient) <> 0%Z ->
        (fst (get_accrued_earnings c recipient) <= service_node_list_height c)%Z ->
        snd (rewards_request c recipient
               (FanOut.sequential
                  (map (fun _ => (false, [])) (reachable_active_service_node_addresses c))))
        = inr (Some (mkRewards recipient (snd (get_accrued_earnings c recipient))
                       (fst (get_accrued_earnings c recipient))
                       (keccak [buildTagHash rewardTag (get_nettype c); recipient;
                                tools.encode_integer_be 32
                                  (snd (get_accrued_earnings c recipient))])
                       [] (to_crypto_signature G2_clear)))).
Proof.
  intros P c. split; [|split; [|split]].
  - intros recipient schedule r Hret Hall.
    destruct (rewards_request_cases c recipient schedule)
      as [[_ [what Hthrow]]|[[Haddr [Hamt Hh]] _]].
    { rewrite Hthrow in Hret. discriminate. }
    rewrite (rewards_request_valid c recipient schedule Haddr Hamt Hh) in Hret.
    cbn [snd] in Hret.
    set (result := rewards_result_init c recipient (snd (get_accrued_earnings c recipient))
                     (fst (get_accrued_earnings c recipient))) in *.
    set (fin := nodesRequest c "bls.get_reward_balance" recipient rewards_on_response
                  (G2_clear, result) schedule) in *.
    destruct (FanOut.returned fin); [|discriminate]. injection Hret as Hr.
    destruct (nodesRequest_acc c "bls.get_reward_balance" recipient rewards_on_response
                (G2_clear, result) schedule) as [_ Hacc].
    fold fin in Hacc.
    assert (Hsame : forall rr parts, rewards_try r rr parts = rewards_try result rr parts).
    { intros rr parts. rewrite <- Hr. rewrite Hacc.
      transitivity (rewards_try (snd (FanOut.replay (reachable_active_service_node_addresses c)
                                        rewards_on_response (FanOut.calls fin) (G2_clear, result)))
                      rr parts); [reflexivity|].
      apply (replay_try_block (reachable_active_service_node_addresses c)
               rewards_try add_rewards_signer rewards_on_response
               rewards_on_response_eq rewards_try_frame). }
    rewrite (replay_rejected (reachable_active_service_node_addresses c)
               rewards_try add_rewards_signer rewards_on_response rewards_on_response_eq)
      in Hacc.
    + rewrite Hacc in Hr. cbn [fst snd] in Hr. subst r. split; reflexivity.
    + intros call Hin. cbn [snd]. rewrite <- Hsame. apply Hall.
      apply (nodesRequest_calls c _ _ _ _ _ _ Hin).
  - intros bls_pubkey hash_tag endpoint pubkey_key schedule r Hret Hall.
    rewrite aggregateExitOrLiquidate_eq in Hret. cbn [snd] in Hret.
    set (result := exit_result_init c bls_pubkey hash_tag) in *.
    set (fin := nodesRequest c endpoint bls_pubkey (exit_on_response pubkey_key)
                  (G2_clear, result) schedule) in *.
    destruct (FanOut.returned fin); [|discriminate]. injection Hret as Hr.
    destruct (nodesRequest_acc c endpoint bls_pubkey (exit_on_response pubkey_key)
                (G2_clear, result) schedule) as [_ Hacc].
    fold fin in Hacc.
    assert (Hsame : forall rr parts,
               exit_try pubkey_key r rr parts = exit_try pubkey_key result rr parts).
    { intros rr parts. rewrite <- Hr. rewrite Hacc.
      transitivity (exit_try pubkey_key
                      (snd (FanOut.replay (reachable_active_service_node_addresses c)
                              (exit_on_response pubkey_key) (FanOut.calls fin)
                              (G2_clear, result)))
                      rr parts); [reflexivity|].
      apply (replay_try_block (reachable_active_service_node_addresses c)
               (exit_try pubkey_key) add_exit_signer (exit_on_response pubkey_key)
               (exit_on_response_eq pubkey_key) (exit_try_frame pubkey_key)). }
    rewrite (replay_rejected (reachable_active_service_node_addresses c)
               (exit_try pubkey_key) add_exit_signer (exit_on_response pubkey_key)
               (exit_on_response_eq pubkey_key)) in Hacc.
    + rewrite Hacc in Hr. cbn [fst snd] in Hr. subst r. split; reflexivity.
    + intros call Hin. cbn [snd]. rewrite <- Hsame. apply Hall.
      apply (nodesRequest_calls c _ _ _ _ _ _ Hin).
  - intros bls_pubkey hash_tag endpoint pubkey_key.
    rewrite aggregateExitOrLiquidate_eq. cbn [snd].
    destruct (unreachable_network_returns c endpoint bls_pubkey (exit_on_response pubkey_key)
                (G2_clear, exit_result_init c bls_pubkey hash_tag)) as [Hr Hfail].
    rewrite Hr.
    destruct (nodesRequest_acc c endpoint bls_pubkey (exit_on_response pubkey_key)
                (G2_clear, exit_result_init c bls_pubkey hash_tag)
                (FanOut.sequential
                   (map (fun _ => (false, [])) (reachable_active_service_node_addresses c))))
      as [_ Hacc].
    rewrite Hacc.
    rewrite (replay_rejected (reachable_active_service_node_addresses c)
               (exit_try pubkey_key) add_exit_signer (exit_on_response pubkey_key)
               (exit_on_response_eq pubkey_key)).
    + reflexivity.
    + intros call Hin. apply exit_try_transport_failure. cbn [success].
      apply (Hfail call Hin).
  - intros recipient Haddr Hamt Hh.
    rewrite (rewards_request_valid c recipient _ Haddr Hamt Hh). cbn [snd].
    destruct (unreachable_network_returns c "bls.get_reward_balance" recipient
                rewards_on_response
                (G2_clear, rewards_result_init c recipient
                             (snd (get_accrued_earnings c recipient))
                             (fst (get_accrued_earnings c recipient)))) as [Hr Hfail].
    rewrite Hr.
    destruct (nodesRequest_acc c "bls.get_reward_balance" recipient rewards_on_response
                (G2_clear, rewards_result_init c recipient
                             (snd (get_accrued_earnings c recipient))
                             (fst (get_accrued_earnings c recipient)))
                (FanOut.sequential
                   (map (fun _ => (false, [])) (reachable_active_service_node_addresses c))))
      as [_ Hacc].
    rewrite Hacc.
    rewrite (replay_rejected (reachable_active_service_node_addresses c)
               rewards_try add_rewards_signer rewards_on_response rewards_on_response_eq).
    + reflexivity.
    + intros call Hin. apply rewards_try_transport_failure. cbn [success].
      apply (Hfail call Hin).
Qed.

(** * At most one contribution per entry of the peer list *)

Lemma count_occ_map_filter_le {X : Type} (f : X -> string) (g : X -> bool) (l : list X)
    (x : string) :
  count_occ string_dec (map f (filter g l)) x <= count_occ string_dec (map f l) x.
Proof.
  induction l as [|y l IH]; cbn [filter map]; [reflexivity|].
  destruct (g y); cbn [map count_occ]; destruct (string_dec (f y) x); lia.
Qed.

Lemma map_nth_seq_all {X : Type} (l : list X) (d : X) :
  map (fun i => nth i l d) (seq 0 (List.length l)) = l.
Proof.
  induction l as [|y l IH]; [reflexivity|].
  cbn [List.length seq map nth]. f_equal.
  rewrite <- seq_shift, map_map. exact IH.
Qed.

(** In every state of a run, the senders of the logged calls are, as a
    multiset, among the peers of the list. *)
Lemma senders_among_peers {A : Type} (snodes : list service_node_address)
    (request_name message : string) (callback : A -> BLSRequestResult -> list string -> A)
    (a : A) (s : FanOut.state) (pk : string) :
  FanOut.invariant snodes request_name message callback a s ->
  count_occ string_dec
    (map (fun call => bls_pubkey (FanOut.snode_at snodes (FanOut.call_index call)))
       (FanOut.calls s)) pk
  <= count_occ string_dec (map bls_pubkey snodes) pk.
Proof.
  intros [Hnext _ Hperm _ _ _ _].
  set (key := fun i => bls_pubkey (FanOut.snode_at snodes i)).
  change (map (fun call => bls_pubkey (FanOut.snode_at snodes (FanOut.call_index call)))
            (FanOut.calls s))
    with (map (fun call => key (FanOut.call_index call)) (FanOut.calls s)).
  rewrite <- (map_map FanOut.call_index key).
  apply (Permutation_map key) in Hperm.
  rewrite map_app in Hperm.
  pose proof (proj1 (Permutation_count_occ string_dec _ _) Hperm pk) as Hcount.
  rewrite count_occ_app in Hcount.
  assert (Hall : map bls_pubkey snodes
                 = map key (seq 0 (FanOut.next_i s))
                   ++ map key (seq (FanOut.next_i s) (List.length snodes - FanOut.next_i s))).
  { rewrite <- map_app, <- seq_app.
    replace (FanOut.next_i s + (List.length snodes - FanOut.next_i s))
      with (List.length snodes) by lia.
    unfold key, FanOut.snode_at.
    rewrite <- (map_map (fun i => nth i snodes FanOut.default_snode) bls_pubkey).
    now rewrite map_nth_seq_all. }
  rewrite Hall, count_occ_app. lia.
Qed.

(** C4, as the code has it.  The handlers keep no record of who has
    contributed: whether a response is accepted depends on the claim
    alone, so a valid response that is handed to a handler a second time
    is folded a second time and its key is appended again.  What bounds
    the contributions of a peer is the fan-out: the handler is called
    once per entry of the peer list, hence a BLS key occurs among the
    contributors of the result at most as often as in the peer list. *)
Theorem contributions_bounded_by_peer_list :
  forall (P : Primitives) (c : core),
    (forall recipient schedule r pk,
        snd (rewards_request c recipient schedule) = inr (Some r) ->
        count_occ string_dec (signers_bls_pubkeys r) pk
        <= count_occ string_dec
             (map bls_pubkey (reachable_active_service_node_addresses c)) pk) /\
    (forall bls_pubkey0 hash_tag endpoint pubkey_key schedule r pk,
        snd (aggregateExitOrLiquidate c bls_pubkey0 hash_tag endpoint pubkey_key schedule)
        = inr (Some r) ->
        count_occ string_dec (exit_signers_bls_pubkeys r) pk
        <= count_occ string_dec
             (map bls_pubkey (reachable_active_service_node_addresses c)) pk) /\
    (forall pubkey_key st request_result parts bls_sig,
        exit_try pubkey_key (snd st) request_result parts = inr bls_sig ->
        exit_on_response pubkey_key
          (exit_on_response pubkey_key st request_result parts) request_result parts
        = (G2_add (G2_add (fst st) bls_sig) bls_sig,
           add_exit_signer
             (add_exit_signer (snd st) (bls_pubkey (sn request_result)))
             (bls_pubkey (sn request_result)))) /\
    (forall st request_result parts bls_sig,
        rewards_try (snd st) request_result parts = inr bls_sig ->
        rewards_on_response (rewards_on_response st request_result parts) request_result parts
        = (G2_add (G2_add (fst st) bls_sig) bls_sig,
           add_rewards_signer
             (add_rewards_signer (snd st) (bls_pubkey (sn request_result)))
             (bls_pubkey (sn request_result)))).
Proof.
  intros P c. split; [|split; [|split]].
  - intros recipient schedule r pk Hret.
    destruct (rewards_request_cases c recipient schedule)
      as [[_ [what Hthrow]]|[[Haddr [Hamt Hh]] _]].
    { rewrite Hthrow in Hret. discriminate. }
    rewrite (rewards_request_valid c recipient schedule Haddr Hamt Hh) in Hret.
    cbn [snd] in Hret.
    set (result := rewards_result_init c recipient (snd (get_accrued_earnings c recipient))
                     (fst (get_accrued_earnings c recipient))) in *.
    set (fin := nodesRequest c "bls.get_reward_balance" recipient rewards_on_response
                  (G2_clear, result) schedule) in *.
    destruct (FanOut.returned fin); [|discriminate]. injection Hret as <-.
    destruct (nodesRequest_acc c "bls.get_reward_balance" recipient rewards_on_response
                (G2_clear, result) schedule) as [Hinv Hacc].
    fold fin in Hinv, Hacc. unfold set_rewards_signature. cbn [signers_bls_pubkeys].
    rewrite Hacc.
    rewrite (replay_signers (reachable_active_service_node_addresses c)
               rewards_try add_rewards_signer signers_bls_pubkeys rewards_on_response
               rewards_on_response_eq rewards_try_frame) by reflexivity.
    cbn [snd result rewards_result_init signers_bls_pubkeys app].
    etransitivity; [apply count_occ_map_filter_le|].
    apply (senders_among_peers _ _ _ _ _ _ pk Hinv).
  - intros bls_pubkey0 hash_tag endpoint pubkey_key schedule r pk Hret.
    rewrite aggregateExitOrLiquidate_eq in Hret. cbn [snd] in Hret.
    set (result := exit_result_init c bls_pubkey0 hash_tag) in *.
    set (fin := nodesRequest c endpoint bls_pubkey0 (exit_on_response pubkey_key)
                  (G2_clear, result) schedule) in *.
    destruct (FanOut.returned fin); [|discriminate]. injection Hret as <-.
    destruct (nodesRequest_acc c endpoint bls_pubkey0 (exit_on_response pubkey_key)
                (G2_clear, result) schedule) as [Hinv Hacc].
    fold fin in Hinv, Hacc. unfold set_exit_signature. cbn [exit_signers_bls_pubkeys].
    rewrite Hacc.
    rewrite (replay_signers (reachable_active_service_node_addresses c)
               (exit_try pubkey_key) add_exit_signer exit_signers_bls_pubkeys
               (exit_on_response pubkey_key)
               (exit_on_response_eq pubkey_key) (exit_try_frame pubkey_key)) by reflexivity.
    cbn [snd result exit_result_init exit_signers_bls_pubkeys app].
    etransitivity; [apply count_occ_map_filter_le|].
    apply (senders_among_peers _ _ _ _ _ _ pk Hinv).
  - intros pubkey_key st rr parts g Htry.
    assert (H1 : exit_on_response pubkey_key st rr parts
                 = (G2_add (fst st) g, add_exit_signer (snd st) (bls_pubkey (sn rr)))).
    { unfold exit_on_response. now rewrite Htry. }
    rewrite H1. unfold exit_on_response at 1. cbn [fst snd].
    rewrite exit_try_frame, Htry. reflexivity.
  - intros st rr parts g Htry.
    assert (H1 : rewards_on_response st rr parts
                 = (G2_add (fst st) g, add_rewards_signer (snd st) (bls_pubkey (sn rr)))).
    { unfold rewards_on_response. now rewrite Htry. }
    rewrite H1. unfold rewards_on_response at 1. cbn [fst snd].
    rewrite rewards_try_frame, Htry. reflexivity.
Qed.


(** * Properties of the responders *)

Section ResponderFacts.

Context {P : Primitives}.
Variable c : core.

(** What [get_reward_balance] signs and replies for an address with
    rewards. *)
Lemma get_reward_balance_signs (m m1 : Message) (uninitialised addr : string) :
  extract_1part_msg sizeof_address m uninitialised "BLS rewards" "ETH address"
  = inr (m1, addr, true) ->
  snd (get_accrued_earnings c addr) <> 0%Z ->
  let amount := snd (get_accrued_earnings c addr) in
  let sig := signHash (bls_signer_key c)
               (keccak256 (buildTagHash rewardTag (get_nettype c) ++ addr
                           ++ tools.encode_integer_be 32 amount)%string) in
  get_reward_balance c m uninitialised
  = inr (send_reply m1
           ["200";
            bt.str (bt.append_string
                      (bt.append_uint64
                         (bt.append_uint64
                            (bt.append_string bt.bt_dict_producer "address" addr)
                            "balance" amount)
                         "height" (fst (get_accrued_earnings c addr)))
                      "signature" sig)],
         [sig]).
Proof.
  intros Hext Hamt. cbv zeta. unfold get_reward_balance. rewrite Hext. cbn [bind negb].
  destruct (get_accrued_earnings c addr) as [h amt]. cbn [fst snd] in *.
  replace (amt =? 0)%Z with false by (symmetry; apply Z.eqb_neq; exact Hamt).
  reflexivity.
Qed.

Lemma get_exit_signs (m m1 : Message) (uninitialised pk : string) :
  extract_1part_msg sizeof_bls_public_key m uninitialised "BLS exit" "BLS pubkey"
  = inr (m1, pk, true) ->
  is_node_removable c pk = true ->
  let sig := signHash (bls_signer_key c)
               (keccak256 (buildTagHash removalTag (get_nettype c) ++ pk)%string) in
  get_exit c m uninitialised
  = inr (send_reply m1
           ["200";
            bt.str (bt.append_string (bt.append_string bt.bt_dict_producer "exit" pk)
                      "signature" sig)],
         [sig]).
Proof.
  intros Hext Hok. cbv zeta. unfold get_exit. rewrite Hext. cbn [bind negb].
  rewrite Hok. reflexivity.
Qed.

Lemma get_liquidation_signs (m m1 : Message) (uninitialised pk : string) :
  extract_1part_msg sizeof_bls_public_key m uninitialised "BLS exit" "BLS pubkey"
  = inr (m1, pk, true) ->
  is_node_liquidatable c pk = true ->
  let sig := signHash (bls_signer_key c)
               (keccak256 (buildTagHash liquidateTag (get_nettype c) ++ pk)%string) in
  get_liquidation c m uninitialised
  = inr (send_reply m1
           ["200";
            bt.str (bt.append_string (bt.append_string bt.bt_dict_producer "liquidate" pk)
                      "signature" sig)],
         [sig]).
Proof.
  intros Hext Hok. cbv zeta. unfold get_liquidation. rewrite Hext. cbn [bind negb].
  rewrite Hok. reflexivity.
Qed.

(** The two sibling endpoints answer a failed precondition with [403]
    and sign nothing. *)
Lemma get_exit_not_removable (m m1 : Message) (uninitialised pk : string) :
  extract_1part_msg sizeof_bls_public_key m uninitialised "BLS exit" "BLS pubkey"
  = inr (m1, pk, true) ->
  is_node_removable c pk = false ->
  get_exit c m uninitialised
  = inr (send_reply m1
           ["403";
            ("Forbidden: The BLS pubkey " ++ format_key pk
               ++ " is not currently removable.")%string],
         []).
Proof.
  intros Hext Hno. unfold get_exit. rewrite Hext. cbn [bind negb]. rewrite Hno. reflexivity.
Qed.

Lemma get_liquidation_not_liquidatable (m m1 : Message) (uninitialised pk : string) :
  extract_1part_msg sizeof_bls_public_key m uninitialised "BLS exit" "BLS pubkey"
  = inr (m1, pk, true) ->
  is_node_liquidatable c pk = false ->
  get_liquidation c m uninitialised
  = inr (send_reply m1
           ["403";
            ("Forbidden: The BLS key " ++ format_key pk
               ++ " is not currently liquidatable")%string],
         []).
Proof.
  intros Hext Hno. unfold get_liquidation. rewrite Hext. cbn [bind negb]. rewrite Hno.
  reflexivity.
Qed.

End ResponderFacts.

(** [get_exit] and [get_liquidation] answer a key that fails their
    precondition with status [403] and sign nothing. *)
Theorem responders_reply_403 :
  forall (P : Primitives) (c : core) (m m1 : Message) (uninitialised pk : string),
    extract_1part_msg sizeof_bls_public_key m uninitialised "BLS exit" "BLS pubkey"
    = inr (m1, pk, true) ->
    (is_node_removable c pk = false ->
     get_exit c m uninitialised
     = inr (send_reply m1
              ["403";
               ("Forbidden: The BLS pubkey " ++ format_key pk
                  ++ " is not currently removable.")%string],
            [])) /\
    (is_node_liquidatable c pk = false ->
     get_liquidation c m uninitialised
     = inr (send_reply m1
              ["403";
               ("Forbidden: The BLS key " ++ format_key pk
                  ++ " is not currently liquidatable")%string],
            [])).
Proof.
  intros P c m m1 u pk Hext. split; intros Hno.
  - now apply get_exit_not_removable.
  - now apply get_liquidation_not_liquidatable.
Qed.

(** C5 on the code: for an address without rewards [get_reward_balance]
    signs nothing, but the status of its reply is
    [400], the status of a malformed request, where [get_exit] and
    [get_liquidation] answer their failed precondition with [403]. *)
Theorem get_reward_balance_zero_balance_reply :
  forall (P : Primitives) (c : core) (m m1 : Message) (uninitialised addr : string),
    extract_1part_msg sizeof_address m uninitialised "BLS rewards" "ETH address"
    = inr (m1, addr, true) ->
    snd (get_accrued_earnings c addr) = 0%Z ->
    get_reward_balance c m uninitialised
    = inr (send_reply m1 ["400"; "Address has a zero balance in the database"], []).
Proof.
  intros P c m m1 u addr Hext Hzero. unfold get_reward_balance.
  rewrite Hext. cbn [bind negb].
  destruct (get_accrued_earnings c addr) as [h amt]. cbn [snd] in Hzero. subst amt.
  reflexivity.
Qed.

(** A fan-out under the sequential schedule returns, whatever the peers
    answer. *)
Lemma nodesRequest_sequential_returns {P : Primitives} {A : Type} (c : core)
    (request_name message : string)
    (callback : A -> BLSRequestResult -> list string -> A) (a : A)
    (answers : list (bool * list string)) :
  List.length answers = List.length (reachable_active_service_node_addresses c) ->
  FanOut.returned (nodesRequest c request_name message callback a (FanOut.sequential answers))
  = true.
Proof.
  intros Hlen. unfold nodesRequest.
  destruct (sequential_from_run (reachable_active_service_node_addresses c)
              request_name message callback answers (FanOut.init a)) as [Hr _];
    try reflexivity.
  { cbn [FanOut.init FanOut.next_i]. exact Hlen. }
  exact Hr.
Qed.

(** C7. The responder of a node and the aggregation call of another
    node of the same network hash the same bytes: the tag hash, then the
    address and the amount as 32 big-endian bytes for a reward balance,
    or the tag hash and then the target key for an exit or a
    liquidation.  The responder signs exactly that hash.  The
    aggregation call stores exactly that hash as [signed_hash], against
    which it verifies, in every result it returns, and it does return
    results: under the sequential schedule for whatever the peers
    answer. *)
Theorem signed_hash_agrees :
  forall (P : Primitives) (responder aggregator : core),
    get_nettype responder = get_nettype aggregator ->
    let reward_hash := fun (addr : string) (amt : Z) =>
      keccak256 (buildTagHash rewardTag (get_nettype aggregator) ++ addr
                 ++ tools.encode_integer_be 32 amt)%string in
    let exit_hash := fun (tag pk : string) =>
      keccak256 (buildTagHash tag (get_nettype aggregator) ++ pk)%string in
    let peers := reachable_active_service_node_addresses aggregator in
    (forall m m1 uninitialised addr,
        extract_1part_msg sizeof_address m uninitialised "BLS rewards" "ETH address"
        = inr (m1, addr, true) ->
        snd (get_accrued_earnings responder addr) <> 0%Z ->
        exists m2,
          get_reward_balance responder m uninitialised
          = inr (m2, [signHash (bls_signer_key responder)
                        (reward_hash addr (snd (get_accrued_earnings responder addr)))])) /\
    (forall addr schedule r,
        snd (rewards_request aggregator addr schedule) = inr (Some r) ->
        amount r = snd (get_accrued_earnings aggregator addr) /\
        signed_hash r = reward_hash addr (amount r)) /\
    (forall addr answers,
        address_to_bool addr = true ->
        snd (get_accrued_earnings aggregator addr) <> 0%Z ->
        (fst (get_accrued_earnings aggregator addr) <= service_node_list_height aggregator)%Z ->
        List.length answers = List.length peers ->
        exists r,
          snd (rewards_request aggregator addr (FanOut.sequential answers)) = inr (Some r) /\
          signed_hash r = reward_hash addr (snd (get_accrued_earnings aggregator addr))) /\
    (forall amt : Z,
        String.length (tools.encode_integer_be 32 amt) = 32 /\
        ((0 <= amt < 2 ^ 64)%Z ->
         tools.decode_integer_be (tools.encode_integer_be 32 amt) 0 = amt)) /\
    (forall m m1 uninitialised pk,
        extract_1part_msg sizeof_bls_public_key m uninitialised "BLS exit" "BLS pubkey"
        = inr (m1, pk, true) ->
        (is_node_removable responder pk = true ->
         exists m2,
           get_exit responder m uninitialised
           = inr (m2, [signHash (bls_signer_key responder) (exit_hash removalTag pk)])) /\
        (is_node_liquidatable responder pk = true ->
         exists m2,
           get_liquidation responder m uninitialised
           = inr (m2, [signHash (bls_signer_key responder) (exit_hash liquidateTag pk)]))) /\
    (forall pk schedule r,
        (snd (aggregateExit aggregator pk schedule) = inr (Some r) ->
         exit_signed_hash r = exit_hash removalTag pk) /\
        (snd (aggregateLiquidation aggregator pk schedule) = inr (Some r) ->
         exit_signed_hash r = exit_hash liquidateTag pk)) /\
    (forall pk answers,
        List.length answers = List.length peers ->
        (exists r,
            snd (aggregateExit aggregator pk (FanOut.sequential answers)) = inr (Some r) /\
            exit_signed_hash r = exit_hash removalTag pk) /\
        (exists r,
            snd (aggregateLiquidation aggregator pk (FanOut.sequential answers))
            = inr (Some r) /\
            exit_signed_hash r = exit_hash liquidateTag pk)).
Proof.
  intros P responder aggregator Hnet reward_hash exit_hash peers.
  assert (Hexit_returns : forall pk tag endpoint key answers,
             List.length answers = List.length peers ->
             exists r,
               snd (aggregateExitOrLiquidate aggregator pk tag endpoint key
                      (FanOut.sequential answers)) = inr (Some r) /\
               exit_signed_hash r = exit_hash tag pk).
  { intros pk tag endpoint key answers Hlen.
    assert (Hsome : exists r,
               snd (aggregateExitOrLiquidate aggregator pk tag endpoint key
                      (FanOut.sequential answers)) = inr (Some r)).
    { rewrite aggregateExitOrLiquidate_eq. cbn [snd].
      rewrite nodesRequest_sequential_returns by exact Hlen. eexists. reflexivity. }
    destruct Hsome as [r Hret]. exists r. split; [exact Hret|].
    exact (proj2 (aggregateExitOrLiquidate_result_fields aggregator pk tag endpoint key
                    _ r Hret)). }
  split; [|split; [|split; [|split; [|split; [|split]]]]].
  - intros m m1 u addr Hext Hnz.
    rewrite (get_reward_balance_signs responder m m1 u addr Hext Hnz).
    cbv zeta. rewrite Hnet. eexists. reflexivity.
  - intros addr schedule r Hret.
    destruct (rewards_request_result_fields aggregator addr schedule r Hret)
      as [_ [Hamt [_ Hhash]]].
    split; [exact Hamt|]. rewrite Hamt. exact Hhash.
  - intros addr answers Haddr Hnz Hh Hlen.
    assert (Hsome : exists r,
               snd (rewards_request aggregator addr (FanOut.sequential answers))
               = inr (Some r)).
    { rewrite (rewards_request_valid aggregator addr _ Haddr Hnz Hh). cbn [snd].
      rewrite nodesRequest_sequential_returns by exact Hlen. eexists. reflexivity. }
    destruct Hsome as [r Hret]. exists r. split; [exact Hret|].
    destruct (rewards_request_result_fields aggregator addr _ r Hret)
      as [_ [_ [_ Hhash]]].
    exact Hhash.
  - intros amt. split; [apply encode_integer_be_length|].
    intros Hrange. now apply encode_integer_be_32.
  - intros m m1 u pk Hext. split; intros Hok.
    + rewrite (get_exit_signs responder m m1 u pk Hext Hok). cbv zeta. rewrite Hnet.
      eexists. reflexivity.
    + rewrite (get_liquidation_signs responder m m1 u pk Hext Hok). cbv zeta. rewrite Hnet.
      eexists. reflexivity.
  - intros pk schedule r. split; intros Hret.
    + exact (proj2 (aggregateExitOrLiquidate_result_fields aggregator pk removalTag
                      "bls.get_exit" "exit" schedule r Hret)).
    + exact (proj2 (aggregateExitOrLiquidate_result_fields aggregator pk liquidateTag
                      "bls.get_liquidation" "liquidate" schedule r Hret)).
  - intros pk answers Hlen. split.
    + exact (Hexit_returns pk removalTag "bls.get_exit" "exit" answers Hlen).
    + exact (Hexit_returns pk liquidateTag "bls.get_liquidation" "liquidate" answers Hlen).
Qed.

(** * Reading back what the producer writes *)

Lemma append_assoc (a b c : string) : ((a ++ b) ++ c = a ++ (b ++ c))%string.
Proof. induction a as [|x a IH]; simpl; [reflexivity | now rewrite IH]. Qed.

Lemma length_append (a b : string) :
  String.length (a ++ b)%string = String.length a + String.length b.
Proof. induction a as [|x a IH]; simpl; [reflexivity | now rewrite IH]. Qed.

Lemma take_append (a b : string) : take (String.length a) (a ++ b)%string = a.
Proof. induction a as [|x a IH]; simpl; [now destruct b | now rewrite IH]. Qed.

Lemma remove_prefix_append (a b : string) :
  remove_prefix (String.length a) (a ++ b)%string = b.
Proof. induction a as [|x a IH]; simpl; [reflexivity | exact IH]. Qed.

Lemma of_uint_acc_ge (d : Decimal.uint) (acc : positive) :
  (acc <= Pos.of_uint_acc d acc)%positive.
Proof.
  revert acc. induction d as [|d IH|d IH|d IH|d IH|d IH|d IH|d IH|d IH|d IH|d IH];
    intros acc; cbn [Pos.of_uint_acc]; [lia | ..];
    (etransitivity; [|apply IH]); lia.
Qed.

Lemma extract_digits_step (ch : ascii) (s : string) (uval k : Z) :
  is_digit ch = true -> bt.digit_value ch = k ->
  (0 <= uval)%Z -> (0 <= k)%Z -> (uval * 10 + k < bt.two64)%Z ->
  bt.extract_digits (String ch s) uval = bt.extract_digits s (uval * 10 + k)%Z.
Proof.
  intros Hd Hk Hu Hk0 Hlt. cbn [bt.extract_digits]. rewrite Hd, Hk.
  rewrite Z.mod_small by lia.
  replace (uval * 10 + k <? uval)%Z with false by (symmetry; apply Z.ltb_ge; lia).
  reflexivity.
Qed.

Lemma extract_digits_stop (rest : string) (uval : Z) :
  bt.front_is rest is_digit = false -> bt.extract_digits rest uval = inr (uval, rest).
Proof.
  intros Hrest. destruct rest as [|ch rest]; [reflexivity|].
  cbn [bt.front_is] in Hrest. cbn [bt.extract_digits]. now rewrite Hrest.
Qed.

(** The digit loop of the parser reads the digits the printer wrote. *)
Lemma extract_digits_of_uint_acc (d : Decimal.uint) (acc : positive) (rest : string) :
  bt.front_is rest is_digit = false ->
  (Z.pos (Pos.of_uint_acc d acc) < bt.two64)%Z ->
  bt.extract_digits (NilEmpty.string_of_uint d ++ rest)%string (Z.pos acc)
  = inr (Z.pos (Pos.of_uint_acc d acc), rest).
Proof.
  intros Hrest. revert acc.
  induction d as [|d IH|d IH|d IH|d IH|d IH|d IH|d IH|d IH|d IH|d IH];
    intros acc Hlt; cbn [Pos.of_uint_acc NilEmpty.string_of_uint String.append] in *.
  1: now apply extract_digits_stop.
  all: match type of Hlt with
       | (Z.pos (Pos.of_uint_acc _ ?acc') < _)%Z =>
           pose proof (of_uint_acc_ge d acc') as Hge;
           rewrite (extract_digits_step _ _ (Z.pos acc) (Z.pos acc' - Z.pos acc * 10))
             by (first [reflexivity
                        | match goal with
                          | |- bt.digit_value ?ch = _ =>
                              let v := eval vm_compute in (bt.digit_value ch) in
                              change (bt.digit_value ch) with v; lia
                          end
                        | lia]);
           replace (Z.pos acc * 10 + (Z.pos acc' - Z.pos acc * 10))%Z with (Z.pos acc') by lia;
           apply IH; exact Hlt
       end.
Qed.

Lemma extract_digits_of_uint (d : Decimal.uint) (rest : string) :
  bt.front_is rest is_digit = false ->
  (Z.of_N (Pos.of_uint d) < bt.two64)%Z ->
  bt.extract_digits (NilEmpty.string_of_uint d ++ rest)%string 0%Z
  = inr (Z.of_N (Pos.of_uint d), rest).
Proof.
  intros Hrest.
  induction d as [|d IH|d IH|d IH|d IH|d IH|d IH|d IH|d IH|d IH|d IH];
    intros Hlt; cbn [Pos.of_uint NilEmpty.string_of_uint String.append] in *.
  1: now apply extract_digits_stop.
  1: { rewrite (extract_digits_step _ _ 0%Z 0%Z) by (try reflexivity; unfold bt.two64; lia).
       apply IH; exact Hlt. }
  all: match type of Hlt with
       | (Z.of_N (N.pos (Pos.of_uint_acc _ ?k)) < _)%Z =>
           pose proof (of_uint_acc_ge d k) as Hge;
           rewrite (extract_digits_step _ _ 0%Z (Z.pos k))
             by (first [reflexivity
                        | match goal with
                          | |- bt.digit_value ?ch = _ =>
                              let v := eval vm_compute in (bt.digit_value ch) in
                              change (bt.digit_value ch) with v; lia
                          end
                        | lia]);
           apply (extract_digits_of_uint_acc d k rest Hrest); exact Hlt
       end.
Qed.

Lemma string_of_uint_front (d : Decimal.uint) (rest : string) :
  d <> Decimal.Nil ->
  bt.front_is (NilEmpty.string_of_uint d ++ rest)%string is_digit = true.
Proof. destruct d; intros H; try reflexivity. now elim H. Qed.

Lemma to_uint_nonnil (n : N) : N.to_uint n <> Decimal.Nil.
Proof.
  destruct n as [|p]; [discriminate|]. apply DecimalPos.Unsigned.to_uint_nonnil.
Qed.

Lemma format_decimal_eq (n : N) :
  format_decimal n = NilEmpty.string_of_uint (N.to_uint n).
Proof.
  unfold format_decimal, NilZero.string_of_uint.
  pose proof (to_uint_nonnil n) as H. destruct (N.to_uint n); [now elim H|reflexivity..].
Qed.

(** [extract_unsigned] reads back a printed 64-bit number. *)
Lemma extract_unsigned_format_decimal (n : N) (rest : string) :
  bt.front_is rest is_digit = false ->
  (Z.of_N n < bt.two64)%Z ->
  bt.extract_unsigned (format_decimal n ++ rest)%string = inr (Z.of_N n, rest).
Proof.
  intros Hrest Hlt. rewrite format_decimal_eq. unfold bt.extract_unsigned.
  pose proof (string_of_uint_front (N.to_uint n) rest (to_uint_nonnil n)) as Hfront.
  destruct (NilEmpty.string_of_uint (N.to_uint n) ++ rest)%string as [|ch s] eqn:Hs;
    [discriminate|].
  cbn [bt.front_is] in Hfront. rewrite Hfront. rewrite <- Hs.
  rewrite extract_digits_of_uint; try assumption.
  - change (Pos.of_uint (N.to_uint n)) with (N.of_uint (N.to_uint n)).
    now rewrite DecimalN.Unsigned.of_to.
  - change (Pos.of_uint (N.to_uint n)) with (N.of_uint (N.to_uint n)).
    now rewrite DecimalN.Unsigned.of_to.
Qed.

Lemma format_decimal_length (n : N) : 1 <= String.length (format_decimal n).
Proof.
  rewrite format_decimal_eq. pose proof (to_uint_nonnil n) as H.
  destruct (N.to_uint n); [now elim H|simpl; lia..].
Qed.

(** A bt string is read back, whatever follows it. *)
Lemma deserialize_string_bt_string (s rest : string) :
  (Z.of_nat (String.length s) < bt.two64)%Z ->
  bt.deserialize_string (bt.bt_string s ++ rest)%string = inr (s, rest).
Proof.
  intros Hlen. unfold bt.deserialize_string, bt.bt_string, format_size.
  rewrite !append_assoc.
  replace (String.length (format_decimal (N.of_nat (String.length s)) ++ ":" ++ s ++ rest)%string
           <? 2) with false.
  2: { symmetry. apply Nat.ltb_ge. rewrite length_append.
       pose proof (format_decimal_length (N.of_nat (String.length s))).
       cbn [String.append String.length]. lia. }
  rewrite extract_unsigned_format_decimal; [|reflexivity|lia].
  cbn [bind String.append].
  replace (Z.of_nat (String.length (s ++ rest)%string) <? Z.of_N (N.of_nat (String.length s)))%Z
    with false by (symmetry; apply Z.ltb_ge; rewrite length_append; lia).
  rewrite nat_N_Z, Nat2Z.id, take_append, remove_prefix_append. reflexivity.
Qed.

Lemma bt_string_front (s rest : string) :
  bt.front_is (bt.bt_string s ++ rest)%string is_digit = true.
Proof.
  unfold bt.bt_string, format_size. rewrite format_decimal_eq, !append_assoc.
  apply string_of_uint_front, to_uint_nonnil.
Qed.

Lemma consume_string_view_bt_string (s rest : string) :
  (Z.of_nat (String.length s) < bt.two64)%Z ->
  bt.consume_string_view (bt.bt_string s ++ rest)%string = inr (s, rest).
Proof.
  intros Hlen. unfold bt.consume_string_view.
  pose proof (bt_string_front s rest) as Hfront.
  destruct (bt.bt_string s ++ rest)%string as [|ch t] eqn:Ht; [discriminate|].
  cbn [bt.front_is] in Hfront. rewrite Hfront, <- Ht.
  now apply deserialize_string_bt_string.
Qed.

(** A bt integer is read back, whatever follows it. *)
Lemma deserialize_uint64_bt_uint64 (v : Z) (rest : string) :
  (0 <= v < bt.two64)%Z ->
  bt.deserialize_uint64 (bt.bt_uint64 v ++ rest)%string = inr (v, rest).
Proof.
  intros Hv. unfold bt.deserialize_uint64, bt.deserialize_integer, bt.bt_uint64.
  rewrite !append_assoc. cbn [String.append].
  set (digits := (format_decimal (Z.to_N v) ++ String "e" rest)%string).
  assert (Hlen : (String.length (String "i" digits) <? 3) = false).
  { apply Nat.ltb_ge. unfold digits. cbn [String.length]. rewrite length_append.
    pose proof (format_decimal_length (Z.to_N v)). cbn [String.length]. lia. }
  assert (Hminus : starts_with digits "-" = false).
  { unfold digits. rewrite format_decimal_eq. pose proof (to_uint_nonnil (Z.to_N v)) as H.
    destruct (N.to_uint (Z.to_N v)); [now elim H|reflexivity..]. }
  rewrite Hlen, Hminus. unfold digits.
  rewrite extract_unsigned_format_decimal; [|reflexivity|lia].
  cbn [bind andb]. rewrite Z2N.id by lia. reflexivity.
Qed.

Lemma consume_uint64_bt_uint64 (v : Z) (rest : string) :
  (0 <= v < bt.two64)%Z ->
  bt.consume_uint64 (bt.bt_uint64 v ++ rest)%string = inr (v, rest).
Proof.
  intros Hv. unfold bt.consume_uint64.
  replace (bt.front_is (bt.bt_uint64 v ++ rest)%string (Ascii.eqb "i")) with true
    by (unfold bt.bt_uint64; rewrite !append_assoc; reflexivity).
  now apply deserialize_uint64_bt_uint64.
Qed.

(** ** The cursor over a dict that the producer wrote *)

Lemma bt_string_not_e (s rest : string) :
  bt.front_is (bt.bt_string s ++ rest)%string bt.not_e = true.
Proof.
  unfold bt.bt_string, format_size. rewrite format_decimal_eq, !append_assoc.
  pose proof (to_uint_nonnil (N.of_nat (String.length s))) as H.
  destruct (N.to_uint (N.of_nat (String.length s))); [now elim H|reflexivity..].
Qed.

Lemma bt_uint64_not_e (v : Z) (rest : string) :
  bt.front_is (bt.bt_uint64 v ++ rest)%string bt.not_e = true.
Proof. unfold bt.bt_uint64. rewrite !append_assoc. reflexivity. Qed.

Lemma bt_dict_consumer_open (body : string) :
  body <> EmptyString ->
  bt.bt_dict_consumer (String "d" body) = inr (bt.mkConsumer body None).
Proof. intros H. destruct body; [now elim H|reflexivity]. Qed.

(** On an entry the cursor reads the key and stops in front of the
    value. *)
Lemma consume_key_entry (k value : string) :
  (Z.of_nat (String.length k) < bt.two64)%Z ->
  bt.front_is value bt.not_e = true ->
  bt.consume_key (bt.mkConsumer (bt.bt_string k ++ value)%string None)
  = inr (true, bt.mkConsumer value (Some k)).
Proof.
  intros Hk Hv. unfold bt.consume_key. cbn [bt.key_ bt.rest].
  pose proof (bt_string_not_e k value) as Hfront.
  destruct (bt.bt_string k ++ value)%string as [|ch t] eqn:Ht; [discriminate|].
  cbn [bt.front_is] in Hfront. unfold bt.not_e in Hfront.
  apply negb_true_iff in Hfront. rewrite Hfront.
  rewrite <- Ht. rewrite consume_string_view_bt_string by assumption.
  cbn [bind]. now rewrite Hv.
Qed.

(** At the end of the dict no key is found any more. *)
Lemma skip_until_at_end (fuel : nat) (find tail : string) :
  bt.skip_until fuel (bt.mkConsumer (String "e" tail) None) find
  = inr (String.eqb EmptyString find, bt.mkConsumer (String "e" tail) None).
Proof. destruct fuel; reflexivity. Qed.

(** The cursor stops on the key it is asked for. *)
Lemma skip_until_found (fuel : nat) (k value : string) :
  (Z.of_nat (String.length k) < bt.two64)%Z ->
  bt.front_is value bt.not_e = true ->
  bt.skip_until fuel (bt.mkConsumer (bt.bt_string k ++ value)%string None) k
  = inr (true, bt.mkConsumer value (Some k)).
Proof.
  intros Hk Hv.
  assert (Hlt : String.ltb k k = false).
  { unfold String.ltb. pose proof (String.compare_antisym k k) as Ha.
    destruct (String.compare k k); try reflexivity. discriminate Ha. }
  destruct fuel; cbn [bt.skip_until]; rewrite consume_key_entry by assumption;
    cbn [bind bt.key_ bt.key_view andb]; rewrite Hlt, String.eqb_refl; reflexivity.
Qed.

(** It passes an entry with a smaller key and a string value. *)
Lemma skip_until_pass_string (fuel : nat) (k v find more : string) :
  (Z.of_nat (String.length k) < bt.two64)%Z ->
  (Z.of_nat (String.length v) < bt.two64)%Z ->
  String.ltb k find = true ->
  bt.skip_until (S fuel) (bt.mkConsumer (bt.bt_string k ++ bt.bt_string v ++ more)%string None)
    find
  = bt.skip_until fuel (bt.mkConsumer more None) find.
Proof.
  intros Hk Hv Hlt. cbn [bt.skip_until].
  rewrite consume_key_entry by (try assumption; apply bt_string_not_e).
  cbn [bind bt.key_ bt.key_view bt.rest andb]. rewrite Hlt.
  unfold bt.skip_fuel. cbn [bt.skip_value].
  pose proof (bt_string_front v more) as Hfront.
  destruct (bt.bt_string v ++ more)%string as [|ch t] eqn:Ht; [discriminate|].
  cbn [bt.front_is] in Hfront. rewrite Hfront. rewrite <- Ht.
  rewrite consume_string_view_bt_string by assumption. reflexivity.
Qed.

(** [require] of a key on which the cursor can stop. *)
Lemma required_found (k value : string) :
  (Z.of_nat (String.length k) < bt.two64)%Z ->
  bt.front_is value bt.not_e = true ->
  bt.required (bt.mkConsumer (bt.bt_string k ++ value)%string None) k
  = inr (bt.mkConsumer value (Some k)).
Proof.
  intros Hk Hv. unfold bt.required. now rewrite skip_until_found.
Qed.

Lemma require_string_view_found (k v more : string) :
  (Z.of_nat (String.length k) < bt.two64)%Z ->
  (Z.of_nat (String.length v) < bt.two64)%Z ->
  bt.require_string_view (bt.mkConsumer (bt.bt_string k ++ bt.bt_string v ++ more)%string None) k
  = inr (v, bt.mkConsumer more None).
Proof.
  intros Hk Hv. unfold bt.require_string_view.
  rewrite required_found by (try assumption; apply bt_string_not_e).
  cbn [bind bt.rest]. now rewrite consume_string_view_bt_string.
Qed.

Lemma require_uint64_found (k : string) (v : Z) (more : string) :
  (Z.of_nat (String.length k) < bt.two64)%Z ->
  (0 <= v < bt.two64)%Z ->
  bt.require_uint64 (bt.mkConsumer (bt.bt_string k ++ bt.bt_uint64 v ++ more)%string None) k
  = inr (v, bt.mkConsumer more None).
Proof.
  intros Hk Hv. unfold bt.require_uint64.
  rewrite required_found by (try assumption; apply bt_uint64_not_e).
  cbn [bind bt.rest]. now rewrite consume_uint64_bt_uint64.
Qed.

(** [require] of the key of the second entry, when the first entry has
    a smaller key and a string value. *)
Lemma required_second (k v find value : string) :
  (Z.of_nat (String.length k) < bt.two64)%Z ->
  (Z.of_nat (String.length v) < bt.two64)%Z ->
  (Z.of_nat (String.length find) < bt.two64)%Z ->
  String.ltb k find = true ->
  bt.front_is value bt.not_e = true ->
  bt.required
    (bt.mkConsumer (bt.bt_string k ++ bt.bt_string v ++ bt.bt_string find ++ value)%string None)
    find
  = inr (bt.mkConsumer value (Some find)).
Proof.
  intros Hk Hv Hf Hlt Hval. unfold bt.required. cbn [bt.rest].
  destruct (String.length (bt.bt_string k ++ bt.bt_string v ++ bt.bt_string find ++ value)%string)
    as [|fuel] eqn:Hlen.
  { pose proof (bt_string_front k (bt.bt_string v ++ bt.bt_string find ++ value)%string) as H.
    destruct (bt.bt_string k ++ bt.bt_string v ++ bt.bt_string find ++ value)%string;
      discriminate. }
  rewrite skip_until_pass_string by assumption.
  now rewrite skip_until_found.
Qed.

(** [require] at the end of the dict fails. *)
Lemma required_at_end (find tail : string) :
  find <> EmptyString ->
  bt.required (bt.mkConsumer (String "e" tail) None) find
  = inl (out_of_range ("Key " ++ find ++ " not found")%string).
Proof.
  intros Hne. unfold bt.required. rewrite skip_until_at_end. cbn [bind].
  destruct find; [now elim Hne|reflexivity].
Qed.


(** * The handlers on the replies of the responders *)

Section WireFacts.

Context {P : Primitives}.

(** The dict of a rewards reply, as [get_reward_balance] writes it. *)
Lemma rewards_payload_eq (a : string) (b h : Z) (sg : string) :
  bt.str (bt.append_string
            (bt.append_uint64
               (bt.append_uint64 (bt.append_string bt.bt_dict_producer "address" a) "balance" b)
               "height" h)
            "signature" sg)
  = String "d"
      (bt.bt_string "address" ++ bt.bt_string a ++ bt.bt_string "balance" ++ bt.bt_uint64 b
         ++ bt.bt_string "height" ++ bt.bt_uint64 h ++ bt.bt_string "signature"
         ++ bt.bt_string sg ++ "e")%string.
Proof.
  unfold bt.str, bt.append_string, bt.append_uint64, bt.bt_dict_producer.
  rewrite !append_assoc. reflexivity.
Qed.

Lemma exit_payload_eq (key pk sg : string) :
  bt.str (bt.append_string (bt.append_string bt.bt_dict_producer key pk) "signature" sg)
  = String "d"
      (bt.bt_string key ++ bt.bt_string pk ++ bt.bt_string "signature" ++ bt.bt_string sg
         ++ "e")%string.
Proof.
  unfold bt.str, bt.append_string, bt.bt_dict_producer.
  rewrite !append_assoc. reflexivity.
Qed.

Lemma bt_string_nonempty (s rest : string) : (bt.bt_string s ++ rest)%string <> EmptyString.
Proof.
  pose proof (bt_string_front s rest) as H. intros Heq. rewrite Heq in H. discriminate.
Qed.

(** What the [try] block of the rewards handler does with a dict in
    sorted order: it reads the balance, the height and the signature,
    and then fails to find the address, which the cursor has passed. *)
Lemma rewards_try_sorted_reply (result : BLSRewardsResponse)
    (request_result : BLSRequestResult) (a : string) (b h : Z) (sg : string) :
  (Z.of_nat (String.length a) < bt.two64)%Z ->
  (0 <= b < bt.two64)%Z -> (0 <= h < bt.two64)%Z ->
  (Z.of_nat (String.length sg) < bt.two64)%Z ->
  success request_result = true ->
  String.length sg = sizeof_bls_signature ->
  rewards_try result request_result
    ["200";
     bt.str (bt.append_string
               (bt.append_uint64
                  (bt.append_uint64 (bt.append_string bt.bt_dict_producer "address" a)
                     "balance" b)
                  "height" h)
               "signature" sg)]
  = inl (out_of_range "Key address not found").
Proof.
  intros Ha Hb Hh Hsg Hok Hlen. unfold rewards_try. rewrite Hok.
  cbn [negb orb List.length Nat.eqb part nth String.eqb Ascii.eqb Bool.eqb].
  rewrite rewards_payload_eq.
  rewrite bt_dict_consumer_open by apply bt_string_nonempty.
  cbn [bind ret].
  unfold bt.require_uint64 at 1.
  rewrite required_second; try assumption; try reflexivity; try apply bt_uint64_not_e.
  cbn [bind ret bt.rest]. rewrite consume_uint64_bt_uint64 by assumption. cbn [bind ret].
  rewrite require_uint64_found by (try assumption; reflexivity). cbn [bind ret].
  rewrite require_string_view_found by (try assumption; reflexivity). cbn [bind ret].
  unfold tools.make_from_guts at 1. rewrite Hlen, Nat.eqb_refl. cbn [bind ret].
  unfold bt.require_string_view. rewrite required_at_end by discriminate.
  reflexivity.
Qed.

End WireFacts.

(** The [try] block of the rewards handler fails on every reply whose
    dict is in sorted order: for want of the address when the signature
    has the size of a signature, on the size of the signature
    otherwise, and on the transport's flag before either. *)
Lemma rewards_try_sorted_reply_fails :
  forall (P : Primitives) (result : BLSRewardsResponse) (request_result : BLSRequestResult)
         (a : string) (b h : Z) (sg : string),
    (Z.of_nat (String.length a) < bt.two64)%Z ->
    (0 <= b < bt.two64)%Z -> (0 <= h < bt.two64)%Z ->
    (Z.of_nat (String.length sg) < bt.two64)%Z ->
    succeeded
      (rewards_try result request_result
         ["200";
          bt.str (bt.append_string
                    (bt.append_uint64
                       (bt.append_uint64 (bt.append_string bt.bt_dict_producer "address" a)
                          "balance" b)
                       "height" h)
                    "signature" sg)]) = false.
Proof.
  intros P result rr a b h sg Ha Hb Hh Hsg.
  destruct (success rr) eqn:Hok; [|now apply rewards_try_transport_failure].
  destruct (Nat.eq_dec (String.length sg) sizeof_bls_signature) as [Hlen|Hlen].
  - now rewrite rewards_try_sorted_reply.
  - unfold rewards_try. rewrite Hok.
    cbn [negb orb List.length Nat.eqb part nth String.eqb Ascii.eqb Bool.eqb].
    rewrite rewards_payload_eq.
    rewrite bt_dict_consumer_open by apply bt_string_nonempty.
    cbn [bind ret].
    unfold bt.require_uint64 at 1.
    rewrite required_second; try assumption; try reflexivity; try apply bt_uint64_not_e.
    cbn [bind ret bt.rest]. rewrite consume_uint64_bt_uint64 by assumption. cbn [bind ret].
    rewrite require_uint64_found by (try assumption; reflexivity). cbn [bind ret].
    rewrite require_string_view_found by (try assumption; reflexivity). cbn [bind ret].
    unfold tools.make_from_guts at 1.
    replace (String.length sg =? sizeof_bls_signature) with false
      by (symmetry; now apply Nat.eqb_neq).
    reflexivity.
Qed.

(** C1 on the code, for every reply that [get_reward_balance] can send.
    Whatever the address, balance, height and signature in it, and
    whoever sent it, a rewards reply whose dict is in sorted order is
    rejected by the handler of [rewards_request]: no signature is folded
    and no key is appended, even when the reply echoes the claim and its
    signature verifies. *)
Theorem rewards_on_response_rejects_sorted_reply :
  forall (P : Primitives) (st : G2 * BLSRewardsResponse) (request_result : BLSRequestResult)
         (a : string) (b h : Z) (sg : string),
    (Z.of_nat (String.length a) < bt.two64)%Z ->
    (0 <= b < bt.two64)%Z -> (0 <= h < bt.two64)%Z ->
    (Z.of_nat (String.length sg) < bt.two64)%Z ->
    let reply :=
      ["200";
       bt.str (bt.append_string
                 (bt.append_uint64
                    (bt.append_uint64 (bt.append_string bt.bt_dict_producer "address" a)
                       "balance" b)
                    "height" h)
                 "signature" sg)] in
    succeeded (rewards_try (snd st) request_result reply) = false /\
    rewards_on_response st request_result reply = st.
Proof.
  intros P st rr a b h sg Ha Hb Hh Hsg. cbv zeta.
  pose proof (rewards_try_sorted_reply_fails P (snd st) rr a b h sg Ha Hb Hh Hsg) as Hrej.
  split; [exact Hrej|].
  unfold rewards_on_response.
  destruct (rewards_try (snd st) rr _) as [e|bls_sig]; [reflexivity|discriminate Hrej].
Qed.

(** The reply that [get_reward_balance] sends for an address with
    rewards is rejected by the handler of [rewards_request], whoever is
    asking and whatever the handler has collected so far. *)
Theorem rewards_on_response_rejects_responder_reply :
  forall (P : Primitives) (c : core) (m m1 : Message) (uninitialised addr : string)
         (st : G2 * BLSRewardsResponse) (request_result : BLSRequestResult),
    extract_1part_msg sizeof_address m uninitialised "BLS rewards" "ETH address"
    = inr (m1, addr, true) ->
    (Z.of_nat (String.length addr) < bt.two64)%Z ->
    (0 < snd (get_accrued_earnings c addr) < bt.two64)%Z ->
    (0 <= fst (get_accrued_earnings c addr) < bt.two64)%Z ->
    (forall h, String.length (signHash (bls_signer_key c) h) = sizeof_bls_signature) ->
    exists payload sig,
      get_reward_balance c m uninitialised = inr (send_reply m1 ["200"; payload], [sig]) /\
      rewards_on_response st request_result ["200"; payload] = st.
Proof.
  intros P c m m1 u addr st rr Hext Haddr Hamt Hh Hsig.
  rewrite (get_reward_balance_signs c m m1 u addr Hext) by lia. cbv zeta.
  eexists. eexists. split; [reflexivity|].
  unfold rewards_on_response.
  match goal with
  | |- context [rewards_try ?res ?who ["200"; bt.str (bt.append_string _ "signature" ?sg)]] =>
      pose proof (rewards_try_sorted_reply_fails P res who addr
                    (snd (get_accrued_earnings c addr)) (fst (get_accrued_earnings c addr))
                    sg) as Hrej
  end.
  destruct (rewards_try (snd st) rr _) as [e|bls_sig]; [reflexivity|].
  discriminate Hrej; try assumption; try lia.
  rewrite Hsig. reflexivity.
Qed.

(** A reply is only looked into when the transport succeeded and the
    reply is a [200] with one more part: every other response leaves the
    accumulator of either handler as it was. *)
Theorem handlers_reject_failed_requests :
  forall (P : Primitives) (request_result : BLSRequestResult) (parts : list string),
    success request_result = false \/ List.length parts <> 2 \/ part 0 parts <> "200" ->
    (forall st, rewards_on_response st request_result parts = st) /\
    (forall pubkey_key st, exit_on_response pubkey_key st request_result parts = st).
Proof.
  intros P rr parts Hbad.
  assert (Hguard : negb (success rr) || negb (List.length parts =? 2)
                   || negb (String.eqb (part 0 parts) "200") = true).
  { destruct Hbad as [H|[H|H]].
    - rewrite H. reflexivity.
    - apply Nat.eqb_neq in H. rewrite H. cbn [negb]. now rewrite orb_true_r.
    - apply String.eqb_neq in H. rewrite H. cbn [negb]. now rewrite orb_true_r. }
  split.
  - intros st. unfold rewards_on_response, rewards_try. now rewrite Hguard.
  - intros key st. unfold exit_on_response, exit_try. now rewrite Hguard.
Qed.

(** The exit and liquidation handler on a reply as [get_exit] and
    [get_liquidation] write it, with the echoed key first and the
    signature second: the signature is folded and the sender's key
    appended exactly when the transport succeeded, the echoed key is the
    key of the claim and the signature verifies against the sender's key
    and the aggregator's hash; otherwise nothing changes. *)
Theorem exit_on_response_sorted_reply :
  forall (P : Primitives) (pubkey_key : string) (st : G2 * AggregateExitResponse)
         (request_result : BLSRequestResult) (pk sg : string),
    (Z.of_nat (String.length pubkey_key) < bt.two64)%Z ->
    String.length pk = sizeof_bls_public_key ->
    String.length sg = sizeof_bls_signature ->
    exit_on_response pubkey_key st request_result
      ["200";
       bt.str (bt.append_string (bt.append_string bt.bt_dict_producer pubkey_key pk)
                 "signature" sg)]
    = if success request_result
         && String.eqb (exit_pubkey (snd st)) pk
         && verifyHash (from_crypto_signature sg)
              (from_crypto_pubkey (bls_pubkey (sn request_result)))
              (exit_signed_hash (snd st))
      then (G2_add (fst st) (from_crypto_signature sg),
            add_exit_signer (snd st) (bls_pubkey (sn request_result)))
      else st.
Proof.
  intros P key st rr pk sg Hkey Hpk Hsg.
  unfold exit_on_response, exit_try.
  destruct (success rr) eqn:Hok; [|reflexivity].
  cbn [negb orb andb List.length Nat.eqb part nth String.eqb Ascii.eqb Bool.eqb].
  rewrite exit_payload_eq.
  rewrite bt_dict_consumer_open by apply bt_string_nonempty.
  cbn [bind ret].
  assert (Hpk64 : (Z.of_nat (String.length pk) < bt.two64)%Z)
    by (rewrite Hpk; reflexivity).
  assert (Hsg128 : (Z.of_nat (String.length sg) < bt.two64)%Z)
    by (rewrite Hsg; reflexivity).
  rewrite require_string_view_found by assumption. cbn [bind ret].
  unfold tools.make_from_guts at 1. rewrite Hpk, Nat.eqb_refl. cbn [bind ret].
  destruct (String.eqb (exit_pubkey (snd st)) pk); cbn [negb]; [|reflexivity].
  rewrite require_string_view_found by (try assumption; reflexivity). cbn [bind ret].
  unfold tools.make_from_guts at 1. rewrite Hsg, Nat.eqb_refl. cbn [bind ret].
  destruct (verifyHash _ _ _); reflexivity.
Qed.


(** * The code at explicit inputs *)

Section Examples.

#[local] Existing Instance Toy.primitives.

(** Node [alice] answers the rewards request for the recipient with
    status [200] and the dict that [get_reward_balance] builds: the keys
    in sorted order, the address, balance and height of the claim, and a
    signature that verifies against her key and the aggregator's hash.
    The handler rejects it and folds nothing. *)
Lemma rewards_on_response_rejects_sorted_reply_witness :
  let claim := rewards_result_init (Toy.node 1) Toy.recipient 1234 77 in
  let sig := Toy.sign 3 (signed_hash claim) in
  let reply :=
    ["200";
     bt.str (bt.append_string
               (bt.append_uint64
                  (bt.append_uint64
                     (bt.append_string bt.bt_dict_producer "address" Toy.recipient)
                     "balance" 1234)
                  "height" 77)
               "signature" sig)] in
  Toy.reward_reply 3 = reply /\
  verifyHash (from_crypto_signature sig) (from_crypto_pubkey (bls_pubkey Toy.alice))
    (signed_hash claim) = true /\
  succeeded (rewards_try claim (mkRequestResult Toy.alice true) reply) = false /\
  rewards_on_response (G2_clear, claim) (mkRequestResult Toy.alice true) reply
  = (G2_clear, claim).
Proof.
  cbv zeta.
  split; [vm_compute; reflexivity|].
  split; [vm_compute; reflexivity|].
  apply (rewards_on_response_rejects_sorted_reply Toy.primitives
           (G2_clear, rewards_result_init (Toy.node 1) Toy.recipient 1234 77)
           (mkRequestResult Toy.alice true) Toy.recipient 1234 77
           (Toy.sign 3 (signed_hash (rewards_result_init (Toy.node 1) Toy.recipient 1234 77)))).
  - vm_compute. reflexivity.
  - unfold bt.two64. lia.
  - unfold bt.two64. lia.
  - vm_compute. reflexivity.
Defined.

(** The fields of that reply are accepted when the dict carries them in
    the order in which the handler reads them. *)
Example rewards_try_accepts_unsorted_reply :
  let claim := rewards_result_init (Toy.node 1) Toy.recipient 1234 77 in
  let sig := Toy.sign 3 (signed_hash claim) in
  rewards_try claim (mkRequestResult Toy.alice true)
    ["200";
     ("d7:balancei1234e6:heighti77e9:signature128:" ++ sig ++ "7:address20:"
        ++ Toy.recipient ++ "e")%string]
  = inr (from_crypto_signature sig).
Proof. vm_compute. reflexivity. Qed.

Lemma exit_on_response_sorted_reply_witness :
  let claim := exit_result_init (Toy.node 1) Toy.leaving removalTag in
  let sig := Toy.sign 3 (exit_signed_hash claim) in
  exit_on_response "exit" (G2_clear, claim) (mkRequestResult Toy.alice true)
    ["200";
     bt.str (bt.append_string (bt.append_string bt.bt_dict_producer "exit" Toy.leaving)
               "signature" sig)]
  = (G2_add G2_clear (from_crypto_signature sig),
     add_exit_signer claim (bls_pubkey Toy.alice)).
Proof.
  cbv zeta.
  rewrite (exit_on_response_sorted_reply Toy.primitives "exit"
             (G2_clear, exit_result_init (Toy.node 1) Toy.leaving removalTag)
             (mkRequestResult Toy.alice true) Toy.leaving
             (Toy.sign 3 (exit_signed_hash
                            (exit_result_init (Toy.node 1) Toy.leaving removalTag)))).
  - vm_compute. reflexivity.
  - vm_compute. reflexivity.
  - vm_compute. reflexivity.
  - vm_compute. reflexivity.
Defined.

Lemma handlers_reject_failed_requests_witness :
  rewards_on_response
    (G2_clear, rewards_result_init (Toy.node 1) Toy.recipient 1234 77)
    (mkRequestResult Toy.bob true) ["403"; "Forbidden"]
  = (G2_clear, rewards_result_init (Toy.node 1) Toy.recipient 1234 77).
Proof.
  apply (handlers_reject_failed_requests Toy.primitives (mkRequestResult Toy.bob true)
           ["403"; "Forbidden"]).
  right. right. discriminate.
Defined.

(** C4 fails on the code: the valid exit response of [alice] handed to
    the handler twice is folded twice.  Her key is in the contributor
    list twice and the aggregate is twice her signature. *)
Lemma duplicate_response_folded_twice :
  let st0 := (G2_clear, exit_result_init (Toy.node 1) Toy.leaving removalTag) in
  let from_alice := mkRequestResult Toy.alice true in
  let st1 := exit_on_response "exit" st0 from_alice (Toy.exit_reply 3) in
  let st2 := exit_on_response "exit" st1 from_alice (Toy.exit_reply 3) in
  exit_signers_bls_pubkeys (snd st1) = [bls_pubkey Toy.alice] /\
  exit_signers_bls_pubkeys (snd st2) = [bls_pubkey Toy.alice; bls_pubkey Toy.alice] /\
  fst st2 = G2_add (fst st1) (fst st1) /\
  fst st2 <> fst st1.
Proof.
  cbv zeta.
  split; [vm_compute; reflexivity|].
  split; [vm_compute; reflexivity|].
  split; [vm_compute; reflexivity|].
  vm_compute. discriminate.
Qed.

(** Three peers asked for an exit signature: [alice] and [carol] answer
    with valid signatures, [bob] cannot be reached.  The result names
    the two contributors in the order of their replies and its
    signature verifies against the sum of their keys. *)
Example aggregateExit_two_of_three :
  exists r,
    aggregateExit (Toy.node 1) Toy.leaving
      [FanOut.Dispatch; FanOut.Dispatch; FanOut.Dispatch;
       FanOut.Reply 2 true (Toy.exit_reply 7); FanOut.Reply 1 false [];
       FanOut.Release 1; FanOut.Reply 0 true (Toy.exit_reply 3);
       FanOut.Release 0; FanOut.Release 2; FanOut.Join]
    = ([mkRequest "x-alice" "bls.get_exit" Toy.leaving;
        mkRequest "x-bob" "bls.get_exit" Toy.leaving;
        mkRequest "x-carol" "bls.get_exit" Toy.leaving],
       inr (Some r)) /\
    exit_pubkey r = Toy.leaving /\
    exit_signers_bls_pubkeys r = [bls_pubkey Toy.carol; bls_pubkey Toy.alice] /\
    Toy.verify (Toy.point (exit_signature r)) (7 + 3) (exit_signed_hash r) = true.
Proof.
  eexists. split; [vm_compute; reflexivity|].
  split; [reflexivity|]. split; [reflexivity|]. vm_compute. reflexivity.
Qed.

Lemma get_reward_balance_zero_balance_reply_witness :
  get_reward_balance (Toy.node 3)
    (mkMessage ["0000000000000000000000000000000000000000"] []) EmptyString
  = inr (mkMessage ["0000000000000000000000000000000000000000"]
           [["400"; "Address has a zero balance in the database"]], []).
Proof.
  apply (get_reward_balance_zero_balance_reply Toy.primitives (Toy.node 3)
           (mkMessage ["0000000000000000000000000000000000000000"] [])
           (mkMessage ["0000000000000000000000000000000000000000"] [])
           EmptyString (zero_bytes sizeof_address)).
  - vm_compute. reflexivity.
  - vm_compute. reflexivity.
Defined.

(** The node with key 3 answers and the node with key 1 aggregates, for
    a reward balance, an exit and a liquidation: each time the responder
    signs the hash that the aggregator stores in the result it returns. *)
Lemma signed_hash_agrees_witness :
  let reward_h := keccak256 (buildTagHash rewardTag Toy.MAINNET ++ Toy.recipient
                             ++ tools.encode_integer_be 32 1234)%string in
  let exit_h := keccak256 (buildTagHash removalTag Toy.MAINNET ++ Toy.leaving)%string in
  let liquidation_h :=
    keccak256 (buildTagHash liquidateTag Toy.MAINNET ++ Toy.liquidated)%string in
  let answers := [(false, []); (true, ["403"; "Forbidden"]); (false, [])] in
  ((exists m2,
       get_reward_balance (Toy.node 3) (mkMessage [Toy.recipient_hex] []) EmptyString
       = inr (m2, [signHash 3%Z reward_h])) /\
   (exists r,
       snd (rewards_request (Toy.node 1) Toy.recipient (FanOut.sequential answers))
       = inr (Some r) /\ signed_hash r = reward_h)) /\
  ((exists m2,
       get_exit (Toy.node 3)
         (mkMessage ["0000000000000000000000000000000000000000000000000000000000000000000000000000000000000000000000000000000000000000000000000000000b"] [])
         EmptyString
       = inr (m2, [signHash 3%Z exit_h])) /\
   (exists r,
       snd (aggregateExit (Toy.node 1) Toy.leaving (FanOut.sequential answers))
       = inr (Some r) /\ exit_signed_hash r = exit_h)) /\
  ((exists m2,
       get_liquidation (Toy.node 3)
         (mkMessage ["0000000000000000000000000000000000000000000000000000000000000000000000000000000000000000000000000000000000000000000000000000000d"] [])
         EmptyString
       = inr (m2, [signHash 3%Z liquidation_h])) /\
   (exists r,
       snd (aggregateLiquidation (Toy.node 1) Toy.liquidated (FanOut.sequential answers))
       = inr (Some r) /\ exit_signed_hash r = liquidation_h)).
Proof.
  cbv zeta.
  pose proof (signed_hash_agrees Toy.primitives (Toy.node 3) (Toy.node 1) eq_refl) as H.
  cbv zeta in H.
  destruct H as [Hsigns [_ [Hrewards [_ [Hresponders [_ Hreturns]]]]]].
  split; [|split].
  - split.
    + apply (Hsigns (mkMessage [Toy.recipient_hex] []) (mkMessage [Toy.recipient_hex] [])
               EmptyString Toy.recipient).
      * vm_compute. reflexivity.
      * vm_compute. discriminate.
    + apply (Hrewards Toy.recipient
               [(false, []); (true, ["403"; "Forbidden"]); (false, [])]).
      * vm_compute. reflexivity.
      * vm_compute. discriminate.
      * vm_compute. discriminate.
      * reflexivity.
  - split.
    + apply (proj1 (Hresponders
                      (mkMessage ["0000000000000000000000000000000000000000000000000000000000000000000000000000000000000000000000000000000000000000000000000000000b"] [])
                      (mkMessage ["0000000000000000000000000000000000000000000000000000000000000000000000000000000000000000000000000000000000000000000000000000000b"] [])
                      EmptyString Toy.leaving ltac:(vm_compute; reflexivity))).
      vm_compute. reflexivity.
    + apply (proj1 (Hreturns Toy.leaving
                      [(false, []); (true, ["403"; "Forbidden"]); (false, [])]
                      eq_refl)).
  - split.
    + apply (proj2 (Hresponders
                      (mkMessage ["0000000000000000000000000000000000000000000000000000000000000000000000000000000000000000000000000000000000000000000000000000000d"] [])
                      (mkMessage ["0000000000000000000000000000000000000000000000000000000000000000000000000000000000000000000000000000000000000000000000000000000d"] [])
                      EmptyString Toy.liquidated ltac:(vm_compute; reflexivity))).
      vm_compute. reflexivity.
    + apply (proj2 (Hreturns Toy.liquidated
                      [(false, []); (true, ["403"; "Forbidden"]); (false, [])]
                      eq_refl)).
Defined.

(** A rewards call for the zero address is rejected before anything is
    sent. *)
Lemma rewards_request_rejects_iff_witness :
  (exists e, snd (rewards_request (Toy.node 1) (zero_bytes sizeof_address)
                    [FanOut.Dispatch]) = inl e) /\
  fst (rewards_request (Toy.node 1) (zero_bytes sizeof_address) [FanOut.Dispatch]) = [].
Proof.
  destruct (rewards_request_rejects_iff Toy.primitives (Toy.node 1)
              (zero_bytes sizeof_address) [FanOut.Dispatch]) as [Hiff Hsent].
  assert (Hthrow : exists e, snd (rewards_request (Toy.node 1) (zero_bytes sizeof_address)
                                    [FanOut.Dispatch]) = inl e).
  { apply Hiff. left. reflexivity. }
  split; [exact Hthrow|].
  destruct Hthrow as [e He]. exact (proj2 (Hsent e He)).
Defined.

(** Three peers that contribute nothing: one cannot be reached, one
    answers [403], one replays the signature of another node. *)
Lemma no_valid_response_gives_identity_witness :
  exists r,
    snd (aggregateExitOrLiquidate (Toy.node 1) Toy.leaving removalTag "bls.get_exit" "exit"
           (FanOut.sequential
              [(false, []); (true, ["403"; "Forbidden"]); (true, Toy.exit_reply 3)]))
    = inr (Some r) /\
    exit_signature r = to_crypto_signature G2_clear /\ exit_signers_bls_pubkeys r = [].
Proof.
  destruct (no_valid_response_gives_identity Toy.primitives (Toy.node 1)) as [_ [Hexit _]].
  eexists. split; [vm_compute; reflexivity|].
  eapply (Hexit Toy.leaving removalTag "bls.get_exit" "exit"
            (FanOut.sequential
               [(false, []); (true, ["403"; "Forbidden"]); (true, Toy.exit_reply 3)])).
  - vm_compute. reflexivity.
  - intros i ok parts Hin. cbn [FanOut.sequential FanOut.sequential_from In] in Hin.
    repeat match type of Hin with
           | _ \/ _ => destruct Hin as [Hin|Hin]
           end;
      try discriminate Hin; try contradiction;
      injection Hin as <- <- <-; vm_compute; reflexivity.
Defined.

(** The claim fields of a rewards result after a fan-out with replies. *)
Lemma claim_fields_not_changed_by_responses_witness :
  exists r,
    snd (rewards_request (Toy.node 1) Toy.recipient
           (FanOut.sequential
              [(true, Toy.reward_reply 3); (false, []); (true, ["403"; "Forbidden"])]))
    = inr (Some r) /\
    address r = Toy.recipient /\ amount r = 1234%Z /\ height r = 77%Z.
Proof.
  destruct (claim_fields_not_changed_by_responses Toy.primitives (Toy.node 1))
    as [_ [_ [Hrewards _]]].
  eexists. split; [vm_compute; reflexivity|].
  destruct (Hrewards Toy.recipient
              (FanOut.sequential
                 [(true, Toy.reward_reply 3); (false, []); (true, ["403"; "Forbidden"])])
              _ ltac:(vm_compute; reflexivity)) as [Ha [Hb [Hc _]]].
  split; [exact Ha|]. split; [exact Hb | exact Hc].
Defined.

(** Every peer answers with a valid exit signature: each key is among
    the contributors once, as in the peer list. *)
Lemma contributions_bounded_by_peer_list_witness :
  exists r,
    snd (aggregateExitOrLiquidate (Toy.node 1) Toy.leaving removalTag "bls.get_exit" "exit"
           (FanOut.sequential
              [(true, Toy.exit_reply 3); (true, Toy.exit_reply 5); (true, Toy.exit_reply 7)]))
    = inr (Some r) /\
    exit_signers_bls_pubkeys r
    = [bls_pubkey Toy.alice; bls_pubkey Toy.bob; bls_pubkey Toy.carol] /\
    count_occ string_dec (exit_signers_bls_pubkeys r) (bls_pubkey Toy.alice)
    <= count_occ string_dec
         (map bls_pubkey (reachable_active_service_node_addresses (Toy.node 1)))
         (bls_pubkey Toy.alice).
Proof.
  destruct (contributions_bounded_by_peer_list Toy.primitives (Toy.node 1))
    as [_ [Hexit _]].
  eexists. split; [vm_compute; reflexivity|].
  split; [reflexivity|].
  apply (Hexit Toy.leaving removalTag "bls.get_exit" "exit"
           (FanOut.sequential
              [(true, Toy.exit_reply 3); (true, Toy.exit_reply 5); (true, Toy.exit_reply 7)])).
  vm_compute. reflexivity.
Defined.

(** A key that is neither removable nor liquidatable, sent as bare hex. *)
Lemma responders_reply_403_witness :
  let hex := "00000000000000000000000000000000000000000000000000000000000000000000000000000000000000000000000000000000000000000000000000000011" in
  (exists text, get_exit (Toy.node 3) (mkMessage [hex] []) EmptyString
                = inr (mkMessage [hex] [["403"; text]], [])) /\
  (exists text, get_liquidation (Toy.node 3) (mkMessage [hex] []) EmptyString
                = inr (mkMessage [hex] [["403"; text]], [])).
Proof.
  cbv zeta.
  destruct (responders_reply_403 Toy.primitives (Toy.node 3)
              (mkMessage ["00000000000000000000000000000000000000000000000000000000000000000000000000000000000000000000000000000000000000000000000000000011"] []) (mkMessage ["00000000000000000000000000000000000000000000000000000000000000000000000000000000000000000000000000000000000000000000000000000011"] []) EmptyString
              (oxenc.from_hex "00000000000000000000000000000000000000000000000000000000000000000000000000000000000000000000000000000000000000000000000000000011")) as [Hexit Hliq].
  - vm_compute. reflexivity.
  - split; eexists.
    + rewrite Hexit by (vm_compute; reflexivity). reflexivity.
    + rewrite Hliq by (vm_compute; reflexivity). reflexivity.
Defined.

(** The reply of the node with key 3 to the hex-encoded request. *)
Lemma rewards_on_response_rejects_responder_reply_witness :
  exists payload sig,
    get_reward_balance (Toy.node 3) (mkMessage [Toy.recipient_hex] []) EmptyString
    = inr (send_reply (mkMessage [Toy.recipient_hex] []) ["200"; payload], [sig]) /\
    rewards_on_response
      (G2_clear, rewards_result_init (Toy.node 1) Toy.recipient 1234 77)
      (mkRequestResult Toy.alice true) ["200"; payload]
    = (G2_clear, rewards_result_init (Toy.node 1) Toy.recipient 1234 77).
Proof.
  apply (rewards_on_response_rejects_responder_reply Toy.primitives (Toy.node 3)
           (mkMessage [Toy.recipient_hex] []) (mkMessage [Toy.recipient_hex] [])
           EmptyString Toy.recipient).
  - vm_compute. reflexivity.
  - vm_compute. reflexivity.
  - split; vm_compute; reflexivity.
  - split; [vm_compute; discriminate | vm_compute; reflexivity].
  - intros h. apply encode_integer_be_length.
Defined.

End Examples.


(** * More on the request decoder and the responders *)

Lemma from_hex_length (s : string) :
  String.length (oxenc.from_hex s) = Nat.div2 (String.length s).
Proof.
  assert (H : forall n s, String.length s <= n ->
                          String.length (oxenc.from_hex s) = Nat.div2 (String.length s)).
  { induction n as [|n IH]; intros t Hlen.
    - destruct t; [reflexivity|simpl in Hlen; lia].
    - destruct t as [|hi [|lo t]]; try reflexivity.
      cbn [oxenc.from_hex String.length Nat.div2]. f_equal.
      apply IH. cbn [String.length] in Hlen. lia. }
  apply (H (String.length s)). reflexivity.
Qed.

Lemma div2_double (n : nat) : Nat.div2 (2 * n) = n.
Proof.
  induction n as [|n IH]; [reflexivity|].
  replace (2 * S n) with (S (S (2 * n))) by lia.
  cbn [Nat.div2]. f_equal. exact IH.
Qed.

(** [extract_1part_msg] never throws and its branch for a [0x] prefix
    is never taken.  A single part of [2 * sizeof(T)] hex digits is
    stored as a value of [sizeof(T)] bytes; a single part of
    [sizeof(T)] bytes is accepted without being stored; in both cases
    nothing is sent.  Every other message gets one reply with status
    [400], the answer [false], and leaves the output parameter alone. *)
Theorem extract_1part_msg_decides :
  forall (sizeof_T : nat) (m : Message) (val cmd_name value_name : string),
    (forall arg,
        data m = [arg] -> String.length arg = 2 * sizeof_T -> oxenc.is_hex arg = true ->
        extract_1part_msg sizeof_T m val cmd_name value_name
        = inr (m, oxenc.from_hex arg, true) /\
        String.length (oxenc.from_hex arg) = sizeof_T) /\
    (forall arg,
        data m = [arg] -> String.length arg = sizeof_T -> sizeof_T <> 0 ->
        extract_1part_msg sizeof_T m val cmd_name value_name = inr (m, val, true)) /\
    ((forall arg, data m = [arg] ->
                  String.length arg <> sizeof_T /\
                  (String.length arg = 2 * sizeof_T -> oxenc.is_hex arg = false)) ->
     exists text,
       extract_1part_msg sizeof_T m val cmd_name value_name
       = inr (send_reply m ["400"; text], val, false)).
Proof.
  intros n m val cmd vn. split; [|split].
  - intros arg Hd Hlen Hhex. split.
    + now apply extract_1part_msg_bare_hex.
    + rewrite from_hex_length, Hlen. apply div2_double.
  - intros arg Hd Hlen Hnz. now apply extract_1part_msg_raw with (raw := arg).
  - intros Hbad.
    destruct (extract_1part_msg_outcome n m val cmd vn) as [Hrej|[v Hacc]]; [exact Hrej|].
    exfalso. unfold extract_1part_msg in Hacc.
    destruct (data m) as [|arg [|arg2 rest]] eqn:Hd; cbn [List.length Nat.eqb negb] in Hacc;
      try discriminate Hacc.
    destruct (Hbad arg eq_refl) as [Hraw Hhex].
    unfold data0 in Hacc. rewrite Hd in Hacc. cbn [nth] in Hacc.
    destruct ((String.length arg =? 2 + 2 * n)
              && (starts_with arg "0x" || starts_with arg "0X") && oxenc.is_hex arg) eqn:H1.
    { apply andb_true_iff in H1. destruct H1 as [H1 Hh].
      apply andb_true_iff in H1. destruct H1 as [_ H0x].
      rewrite (is_hex_0x _ H0x) in Hh. discriminate. }
    destruct ((String.length arg =? 2 * n) && oxenc.is_hex arg) eqn:H2.
    { apply andb_true_iff in H2. destruct H2 as [Hl Hh]. apply Nat.eqb_eq in Hl.
      rewrite (Hhex Hl) in Hh. discriminate. }
    destruct (String.length arg =? n) eqn:H3.
    { apply Nat.eqb_eq in H3. contradiction. }
    discriminate Hacc.
Qed.

(** Every responder answers a request with exactly one reply, whatever
    the message, and raises nothing of its own.  The status is [200]
    exactly when the signer has produced a signature, and then it has
    produced one;
    otherwise the status is [400] (or [403] for an exit or liquidation
    request) and nothing has been signed. *)
Theorem responders_send_one_reply :
  forall (P : Primitives) (c : core) (m : Message) (uninitialised : string),
    (exists status body sigs,
        get_reward_balance c m uninitialised = inr (send_reply m [status; body], sigs) /\
        ((status = "200" /\ List.length sigs = 1) \/ (status = "400" /\ sigs = []))) /\
    (exists status body sigs,
        get_exit c m uninitialised = inr (send_reply m [status; body], sigs) /\
        ((status = "200" /\ List.length sigs = 1) \/
         ((status = "400" \/ status = "403") /\ sigs = []))) /\
    (exists status body sigs,
        get_liquidation c m uninitialised = inr (send_reply m [status; body], sigs) /\
        ((status = "200" /\ List.length sigs = 1) \/
         ((status = "400" \/ status = "403") /\ sigs = []))).
Proof.
  intros P c m u. split; [|split].
  - unfold get_reward_balance.
    destruct (extract_1part_msg_outcome sizeof_address m u "BLS rewards" "ETH address")
      as [[text ->]|[v ->]]; cbn [bind negb].
    + do 3 eexists. split; [reflexivity|]. right. split; reflexivity.
    + destruct (get_accrued_earnings c v) as [h amt].
      destruct (amt =? 0)%Z; do 3 eexists; (split; [reflexivity|]).
      * right. split; reflexivity.
      * left. split; reflexivity.
  - unfold get_exit.
    destruct (extract_1part_msg_outcome sizeof_bls_public_key m u "BLS exit" "BLS pubkey")
      as [[text ->]|[v ->]]; cbn [bind negb].
    + do 3 eexists. split; [reflexivity|]. right. split; [now left|reflexivity].
    + destruct (is_node_removable c v); cbn [negb]; do 3 eexists; (split; [reflexivity|]).
      * left. split; reflexivity.
      * right. split; [now right|reflexivity].
  - unfold get_liquidation.
    destruct (extract_1part_msg_outcome sizeof_bls_public_key m u "BLS exit" "BLS pubkey")
      as [[text ->]|[v ->]]; cbn [bind negb].
    + do 3 eexists. split; [reflexivity|]. right. split; [now left|reflexivity].
    + destruct (is_node_liquidatable c v); cbn [negb]; do 3 eexists; (split; [reflexivity|]).
      * left. split; reflexivity.
      * right. split; [now right|reflexivity].
Qed.


(** * The replies on the wire *)

(** The cursor does not stop on an entry whose key sorts after the key
    it is asked for. *)
Lemma required_missing (k find value : string) :
  (Z.of_nat (String.length k) < bt.two64)%Z ->
  bt.front_is value bt.not_e = true ->
  String.ltb k find = false ->
  String.eqb k find = false ->
  bt.required (bt.mkConsumer (bt.bt_string k ++ value)%string None) find
  = inl (out_of_range ("Key " ++ find ++ " not found")%string).
Proof.
  intros Hk Hv Hlt Hne. unfold bt.required. cbn [bt.rest].
  assert (Hskip : forall fuel,
             bt.skip_until fuel (bt.mkConsumer (bt.bt_string k ++ value)%string None) find
             = inr (false, bt.mkConsumer value (Some k))).
  { intros fuel. destruct fuel; cbn [bt.skip_until];
      rewrite consume_key_entry by assumption;
      cbn [bind bt.key_ bt.key_view andb]; rewrite Hlt, Hne; reflexivity. }
  rewrite Hskip. reflexivity.
Qed.

(** It does not find a key that sorts between the first and the second
    entry either. *)
Lemma required_missing_second (k v k2 find value : string) :
  (Z.of_nat (String.length k) < bt.two64)%Z ->
  (Z.of_nat (String.length v) < bt.two64)%Z ->
  (Z.of_nat (String.length k2) < bt.two64)%Z ->
  bt.front_is value bt.not_e = true ->
  String.ltb k find = true ->
  String.ltb k2 find = false ->
  String.eqb k2 find = false ->
  bt.required
    (bt.mkConsumer (bt.bt_string k ++ bt.bt_string v ++ bt.bt_string k2 ++ value)%string None)
    find
  = inl (out_of_range ("Key " ++ find ++ " not found")%string).
Proof.
  intros Hk Hv Hk2 Hval Hlt Hlt2 Hne. unfold bt.required. cbn [bt.rest].
  destruct (String.length (bt.bt_string k ++ bt.bt_string v ++ bt.bt_string k2 ++ value)%string)
    as [|fuel] eqn:Hlen.
  { pose proof (bt_string_front k (bt.bt_string v ++ bt.bt_string k2 ++ value)%string) as H.
    destruct (bt.bt_string k ++ bt.bt_string v ++ bt.bt_string k2 ++ value)%string;
      discriminate. }
  rewrite skip_until_pass_string by assumption.
  destruct fuel; cbn [bt.skip_until];
    rewrite consume_key_entry by assumption;
    cbn [bind bt.key_ bt.key_view andb]; rewrite Hlt2, Hne; reflexivity.
Qed.

(** The reply of [get_reward_balance] for an address with rewards is a
    well-formed dict: read in sorted order it gives back the address,
    the balance, the height and the signature of the responder, and
    nothing is left but the end marker. *)
Theorem get_reward_balance_reply_round_trip :
  forall (P : Primitives) (c : core) (m m1 : Message) (uninitialised addr : string),
    extract_1part_msg sizeof_address m uninitialised "BLS rewards" "ETH address"
    = inr (m1, addr, true) ->
    (Z.of_nat (String.length addr) < bt.two64)%Z ->
    (0 < snd (get_accrued_earnings c addr) < bt.two64)%Z ->
    (0 <= fst (get_accrued_earnings c addr) < bt.two64)%Z ->
    (forall h, String.length (signHash (bls_signer_key c) h) = sizeof_bls_signature) ->
    exists payload sig,
      get_reward_balance c m uninitialised = inr (send_reply m1 ["200"; payload], [sig]) /\
      (d <- bt.bt_dict_consumer payload ;;
       '(a, d) <- bt.require_string_view d "address" ;;
       '(b, d) <- bt.require_uint64 d "balance" ;;
       '(h, d) <- bt.require_uint64 d "height" ;;
       '(s, d) <- bt.require_string_view d "signature" ;;
       ret (a, b, h, s, bt.rest d))
      = inr (addr, snd (get_accrued_earnings c addr), fst (get_accrued_earnings c addr),
             sig, "e").
Proof.
  intros P c m m1 u addr Hext Haddr Hamt Hh Hsig.
  rewrite (get_reward_balance_signs c m m1 u addr Hext) by lia. cbv zeta.
  eexists. eexists. split; [reflexivity|].
  rewrite rewards_payload_eq.
  rewrite bt_dict_consumer_open by apply bt_string_nonempty.
  cbn [bind ret].
  rewrite require_string_view_found by (try assumption; reflexivity). cbn [bind ret].
  rewrite require_uint64_found by (try reflexivity; lia). cbn [bind ret].
  rewrite require_uint64_found by (try reflexivity; lia). cbn [bind ret].
  rewrite require_string_view_found; [reflexivity|reflexivity|].
  rewrite Hsig. reflexivity.
Qed.

(** The replies of the two endpoints do not mix: a dict written by
    [get_exit], with its key under ["exit"], is rejected by the handler
    of [aggregateLiquidation], which asks for ["liquidate"], and a dict
    written by [get_liquidation] is rejected by the handler of
    [aggregateExit], whatever key and signature they carry and whether
    or not the signature would verify. *)
Theorem exit_and_liquidation_replies_do_not_mix :
  forall (P : Primitives) (st : G2 * AggregateExitResponse)
         (request_result : BLSRequestResult) (pk sg : string),
    (Z.of_nat (String.length pk) < bt.two64)%Z ->
    (Z.of_nat (String.length sg) < bt.two64)%Z ->
    exit_on_response "liquidate" st request_result
      ["200";
       bt.str (bt.append_string (bt.append_string bt.bt_dict_producer "exit" pk)
                 "signature" sg)]
    = st /\
    exit_on_response "exit" st request_result
      ["200";
       bt.str (bt.append_string (bt.append_string bt.bt_dict_producer "liquidate" pk)
                 "signature" sg)]
    = st.
Proof.
  intros P st rr pk sg Hpk Hsg. split.
  - unfold exit_on_response, exit_try.
    destruct (success rr); [|reflexivity].
    cbn [negb orb andb List.length Nat.eqb part nth String.eqb Ascii.eqb Bool.eqb].
    rewrite exit_payload_eq.
    rewrite bt_dict_consumer_open by apply bt_string_nonempty.
    cbn [bind ret]. unfold bt.require_string_view at 1.
    rewrite required_missing_second; try assumption; try reflexivity.
    apply bt_string_not_e.
  - unfold exit_on_response, exit_try.
    destruct (success rr); [|reflexivity].
    cbn [negb orb andb List.length Nat.eqb part nth String.eqb Ascii.eqb Bool.eqb].
    rewrite exit_payload_eq.
    rewrite bt_dict_consumer_open by apply bt_string_nonempty.
    cbn [bind ret]. unfold bt.require_string_view at 1.
    rewrite required_missing; try assumption; try reflexivity.
    apply bt_string_not_e.
Qed.


(** * What an accepted response guarantees *)

Lemma bind_inr {A B : Type} (x : M A) (k : A -> M B) (b : B) :
  bind x k = inr b -> exists a, x = inr a /\ k a = inr b.
Proof. destruct x as [e|a]; [discriminate|]. intros H. now exists a. Qed.

Lemma make_from_guts_inr (n : nat) (s v : string) :
  tools.make_from_guts n s = inr v -> v = s /\ String.length s = n.
Proof.
  unfold tools.make_from_guts. destruct (Nat.eqb_spec (String.length s) n); [|discriminate].
  intros [= <-]. now split.
Qed.

Section Accepted.

Context {P : Primitives}.

(** The [try] block of the rewards handler yields a signature exactly
    when every check of the block has passed, on what it has read from
    the dict. *)
Lemma rewards_try_inr (result : BLSRewardsResponse) (request_result : BLSRequestResult)
    (parts : list string) (bls_sig : G2) :
  rewards_try result request_result parts = inr bls_sig <->
  success request_result = true /\ List.length parts = 2 /\ part 0 parts = "200" /\
  exists d0 d1 d2 d3 d4 sig_guts,
    bt.bt_dict_consumer (part 1 parts) = inr d0 /\
    bt.require_uint64 d0 "balance" = inr (amount result, d1) /\
    bt.require_uint64 d1 "height" = inr (height result, d2) /\
    bt.require_string_view d2 "signature" = inr (sig_guts, d3) /\
    String.length sig_guts = sizeof_bls_signature /\
    bt.require_string_view d3 "address" = inr (address result, d4) /\
    String.length (address result) = sizeof_address /\
    bls_sig = from_crypto_signature sig_guts /\
    verifyHash bls_sig (from_crypto_pubkey (bls_pubkey (sn request_result)))
      (signed_hash result) = true.
Proof.
  rename request_result into rr. rename bls_sig into g. split.
  - intros Htry. unfold rewards_try in Htry.
    destruct (success rr) eqn:Hok; [|discriminate].
    destruct (Nat.eqb_spec (List.length parts) 2) as [Hlen|]; [|discriminate].
    destruct (String.eqb_spec (part 0 parts) "200") as [H200|]; [|discriminate].
    cbn [negb orb] in Htry.
    apply bind_inr in Htry. destruct Htry as [d0 [Hd0 Htry]].
    apply bind_inr in Htry. destruct Htry as [[bal d1] [Hbal Htry]].
    apply bind_inr in Htry. destruct Htry as [[hei d2] [Hhei Htry]].
    apply bind_inr in Htry. destruct Htry as [[sig_guts d3] [Hsg Htry]].
    apply bind_inr in Htry. destruct Htry as [sig [Hsig Htry]].
    apply make_from_guts_inr in Hsig. destruct Hsig as [-> Hsiglen].
    apply bind_inr in Htry. destruct Htry as [[addr_guts d4] [Haddr Htry]].
    apply bind_inr in Htry. destruct Htry as [addr [Hmk Htry]].
    apply make_from_guts_inr in Hmk. destruct Hmk as [-> Haddrlen].
    destruct (String.eqb_spec (address result) addr_guts) as [Hecho|]; [|discriminate].
    cbn [negb] in Htry.
    destruct (Z.eqb_spec (amount result) bal) as [Hb|]; [|discriminate].
    destruct (Z.eqb_spec hei (height result)) as [Hh|]; [|discriminate].
    cbn [negb orb] in Htry.
    destruct (verifyHash (from_crypto_signature sig_guts) _ _) eqn:Hver; [|discriminate].
    cbn [negb] in Htry. injection Htry as <-.
    subst bal hei addr_guts.
    split; [reflexivity|]. split; [assumption|]. split; [assumption|].
    exists d0, d1, d2, d3, d4, sig_guts.
    split; [assumption|]. split; [assumption|]. split; [assumption|].
    split; [assumption|]. split; [assumption|]. split; [assumption|].
    split; [assumption|]. split; [reflexivity|assumption].
  - intros [Hok [Hlen [H200 [d0 [d1 [d2 [d3 [d4 [sig_guts
      [Hd0 [Hbal [Hhei [Hsg [Hsiglen [Haddr [Haddrlen [-> Hver]]]]]]]]]]]]]]]]].
    unfold rewards_try. rewrite Hok, Hlen, H200. cbn [Nat.eqb negb orb].
    rewrite String.eqb_refl. cbn [negb].
    rewrite Hd0. cbn [bind]. rewrite Hbal. cbn [bind]. rewrite Hhei. cbn [bind].
    rewrite Hsg. cbn [bind].
    unfold tools.make_from_guts at 1. rewrite Hsiglen, Nat.eqb_refl. cbn [bind ret].
    rewrite Haddr. cbn [bind].
    unfold tools.make_from_guts at 1. rewrite Haddrlen, Nat.eqb_refl. cbn [bind ret].
    rewrite String.eqb_refl, !Z.eqb_refl. cbn [negb orb]. rewrite Hver. reflexivity.
Qed.

(** The same for the exit and liquidation handler. *)
Lemma exit_try_inr (pubkey_key : string) (result : AggregateExitResponse)
    (request_result : BLSRequestResult) (parts : list string) (bls_sig : G2) :
  exit_try pubkey_key result request_result parts = inr bls_sig <->
  success request_result = true /\ List.length parts = 2 /\ part 0 parts = "200" /\
  exists d0 d1 d2 sig_guts,
    bt.bt_dict_consumer (part 1 parts) = inr d0 /\
    bt.require_string_view d0 pubkey_key = inr (exit_pubkey result, d1) /\
    String.length (exit_pubkey result) = sizeof_bls_public_key /\
    bt.require_string_view d1 "signature" = inr (sig_guts, d2) /\
    String.length sig_guts = sizeof_bls_signature /\
    bls_sig = from_crypto_signature sig_guts /\
    verifyHash bls_sig (from_crypto_pubkey (bls_pubkey (sn request_result)))
      (exit_signed_hash result) = true.
Proof.
  rename request_result into rr. rename bls_sig into g. split.
  - intros Htry. unfold exit_try in Htry.
    destruct (success rr) eqn:Hok; [|discriminate].
    destruct (Nat.eqb_spec (List.length parts) 2) as [Hlen|]; [|discriminate].
    destruct (String.eqb_spec (part 0 parts) "200") as [H200|]; [|discriminate].
    cbn [negb orb] in Htry.
    apply bind_inr in Htry. destruct Htry as [d0 [Hd0 Htry]].
    apply bind_inr in Htry. destruct Htry as [[pk_guts d1] [Hpk Htry]].
    apply bind_inr in Htry. destruct Htry as [pk [Hmk Htry]].
    apply make_from_guts_inr in Hmk. destruct Hmk as [-> Hpklen].
    destruct (String.eqb_spec (exit_pubkey result) pk_guts) as [Hecho|]; [|discriminate].
    cbn [negb] in Htry.
    apply bind_inr in Htry. destruct Htry as [[sig_guts d2] [Hsg Htry]].
    apply bind_inr in Htry. destruct Htry as [sig [Hsig Htry]].
    apply make_from_guts_inr in Hsig. destruct Hsig as [-> Hsiglen].
    destruct (verifyHash (from_crypto_signature sig_guts) _ _) eqn:Hver; [|discriminate].
    cbn [negb] in Htry. injection Htry as <-. subst pk_guts.
    split; [reflexivity|]. split; [assumption|]. split; [assumption|].
    exists d0, d1, d2, sig_guts.
    split; [assumption|]. split; [assumption|]. split; [assumption|].
    split; [assumption|]. split; [assumption|]. split; [reflexivity|assumption].
  - intros [Hok [Hlen [H200 [d0 [d1 [d2 [sig_guts
      [Hd0 [Hpk [Hpklen [Hsg [Hsiglen [-> Hver]]]]]]]]]]]]].
    unfold exit_try. rewrite Hok, Hlen, H200. cbn [Nat.eqb negb orb].
    rewrite String.eqb_refl. cbn [negb].
    rewrite Hd0. cbn [bind]. rewrite Hpk. cbn [bind].
    unfold tools.make_from_guts at 1. rewrite Hpklen, Nat.eqb_refl. cbn [bind ret].
    rewrite String.eqb_refl. cbn [negb].
    rewrite Hsg. cbn [bind].
    unfold tools.make_from_guts at 1. rewrite Hsiglen, Nat.eqb_refl. cbn [bind ret].
    rewrite Hver. reflexivity.
Qed.

End Accepted.

(** The handlers fold a signature exactly when they have verified it.
    The [try] block of either handler yields a signature if and only if
    the transport had reported success, the reply had two parts with
    status [200], and the dict of the second part, read with the
    forward-only cursor in the order of the handler, gave what the
    handler checks.  For the rewards handler: the balance and the
    height of the claim, then 128 bytes under [signature], then the 20
    bytes of the claim's address.  For the exit and liquidation handler:
    the 64 bytes of the claim's key under the expected key, then 128
    bytes under [signature].  In both the signature yielded is the
    conversion of those 128 bytes and verifies against the BLS key of
    the peer that answered and the signed hash of the claim. *)
Theorem accepted_response_is_verified :
  forall (P : Primitives) (request_result : BLSRequestResult) (parts : list string)
         (bls_sig : G2),
    (forall result,
        rewards_try result request_result parts = inr bls_sig <->
        success request_result = true /\ List.length parts = 2 /\ part 0 parts = "200" /\
        exists d0 d1 d2 d3 d4 sig_guts,
          bt.bt_dict_consumer (part 1 parts) = inr d0 /\
          bt.require_uint64 d0 "balance" = inr (amount result, d1) /\
          bt.require_uint64 d1 "height" = inr (height result, d2) /\
          bt.require_string_view d2 "signature" = inr (sig_guts, d3) /\
          String.length sig_guts = sizeof_bls_signature /\
          bt.require_string_view d3 "address" = inr (address result, d4) /\
          String.length (address result) = sizeof_address /\
          bls_sig = from_crypto_signature sig_guts /\
          verifyHash bls_sig (from_crypto_pubkey (bls_pubkey (sn request_result)))
            (signed_hash result) = true) /\
    (forall pubkey_key result,
        exit_try pubkey_key result request_result parts = inr bls_sig <->
        success request_result = true /\ List.length parts = 2 /\ part 0 parts = "200" /\
        exists d0 d1 d2 sig_guts,
          bt.bt_dict_consumer (part 1 parts) = inr d0 /\
          bt.require_string_view d0 pubkey_key = inr (exit_pubkey result, d1) /\
          String.length (exit_pubkey result) = sizeof_bls_public_key /\
          bt.require_string_view d1 "signature" = inr (sig_guts, d2) /\
          String.length sig_guts = sizeof_bls_signature /\
          bls_sig = from_crypto_signature sig_guts /\
          verifyHash bls_sig (from_crypto_pubkey (bls_pubkey (sn request_result)))
            (exit_signed_hash result) = true).
Proof.
  intros P rr parts g. split.
  - intros result. apply rewards_try_inr.
  - intros key result. apply exit_try_inr.
Qed.


(** * The aggregate and its contributors *)

Section FoldSum.

Context {P : Primitives} {R : Type}.
Variable snodes : list service_node_address.
Variable try_block : R -> BLSRequestResult -> list string -> M G2.
Variable add_signer : R -> string -> R.
Variable signers : R -> list string.
Variable handler : G2 * R -> BLSRequestResult -> list string -> G2 * R.

Hypothesis handler_eq : forall st request_result parts,
  handler st request_result parts
  = match try_block (snd st) request_result parts with
    | inr bls_sig =>
        (G2_add (fst st) bls_sig, add_signer (snd st) (bls_pubkey (sn request_result)))
    | inl _ => st
    end.
Hypothesis try_block_frame : forall result pk request_result parts,
  try_block (add_signer result pk) request_result parts
  = try_block result request_result parts.
Hypothesis signers_add_signer : forall result pk,
  signers (add_signer result pk) = signers result ++ [pk].

(** After a log of calls the aggregate is the sum of the accepted
    signatures and the contributor list names their senders, both in the
    order of the calls. *)
Lemma replay_contributions log st :
  fst (FanOut.replay snodes handler log st)
  = fold_left G2_add (map snd (contributions snodes try_block (snd st) log)) (fst st) /\
  signers (snd (FanOut.replay snodes handler log st))
  = signers (snd st) ++ map fst (contributions snodes try_block (snd st) log).
Proof.
  revert st. unfold FanOut.replay, contributions.
  induction log as [|c log IH]; intros st; cbn [fold_left flat_map map].
  - now rewrite app_nil_r.
  - destruct (IH (handler st (mkRequestResult (FanOut.snode_at snodes (fst (fst c)))
                                (snd (fst c))) (snd c))) as [IHsig IHkeys].
    rewrite IHsig, IHkeys. clear IHsig IHkeys.
    assert (Hsame : flat_map (contribution snodes try_block
                                (snd (handler st
                                        (mkRequestResult (FanOut.snode_at snodes (fst (fst c)))
                                           (snd (fst c))) (snd c)))) log
                    = flat_map (contribution snodes try_block (snd st)) log).
    { apply flat_map_ext. intros c0. unfold contribution. rewrite handler_eq.
      destruct (try_block (snd st) _ (snd c)); [reflexivity|].
      cbn [snd]. now rewrite try_block_frame. }
    rewrite Hsame. rewrite !map_app. clear Hsame.
    assert (Hc : contribution snodes try_block (snd st) c
                 = match try_block (snd st)
                           (mkRequestResult (FanOut.snode_at snodes (fst (fst c)))
                              (snd (fst c))) (snd c) with
                   | inr bls_sig =>
                       [(bls_pubkey (FanOut.snode_at snodes (fst (fst c))), bls_sig)]
                   | inl _ => []
                   end) by reflexivity.
    rewrite Hc, handler_eq. clear Hc.
    destruct (try_block (snd st) _ (snd c)) as [e|g]; cbn [map app fst snd fold_left sn].
    + split; reflexivity.
    + split; [reflexivity|]. rewrite signers_add_signer, <- app_assoc. reflexivity.
Qed.

Lemma contributions_accepted result log pk g :
  In (pk, g) (contributions snodes try_block result log) ->
  exists call,
    In call log /\
    pk = bls_pubkey (FanOut.snode_at snodes (fst (fst call))) /\
    try_block result
      (mkRequestResult (FanOut.snode_at snodes (fst (fst call))) (snd (fst call))) (snd call)
    = inr g.
Proof.
  unfold contributions. rewrite in_flat_map. intros [call [Hin Hc]].
  exists call. split; [assumption|]. unfold contribution in Hc.
  destruct (try_block result _ (snd call)) as [e|g0]; [contradiction|].
  destruct Hc as [[= <- <-]|[]]. now split.
Qed.

End FoldSum.

Lemma fold_left_G2_add_perm {P : Primitives} (l1 l2 : list G2) :
  (forall x y z, G2_add x (G2_add y z) = G2_add (G2_add x y) z) ->
  (forall x y, G2_add x y = G2_add y x) ->
  Permutation l1 l2 ->
  forall a, fold_left G2_add l1 a = fold_left G2_add l2 a.
Proof.
  intros Hassoc Hcomm. induction 1 as [|x l l' _ IH|x y l|l l' l'' _ IH1 _ IH2];
    intros a; cbn [fold_left].
  - reflexivity.
  - apply IH.
  - f_equal. rewrite <- !Hassoc. f_equal. apply Hcomm.
  - now rewrite IH1.
Qed.

Lemma Forall2_map_fst_snd {X Y : Type} (Q : X -> Y -> Prop) (l : list (X * Y)) :
  (forall x y, In (x, y) l -> Q x y) -> Forall2 Q (map fst l) (map snd l).
Proof.
  induction l as [|[x y] l IH]; intros H; cbn [map fst snd]; constructor.
  - apply H. now left.
  - apply IH. intros x0 y0 Hin. apply H. now right.
Qed.

(** * What a returned result is made of *)

Section Returned.

Context {P : Primitives}.
Variable c : core.

#[local] Abbreviation snodes := (reachable_active_service_node_addresses c).

(** A fan-out that has returned has called its callback on a log that
    holds one answer of the schedule for every peer, and has sent one
    request to every peer. *)
Lemma nodesRequest_returned {A : Type} (request_name message : string)
    (callback : A -> BLSRequestResult -> list string -> A) (a : A)
    (schedule : list FanOut.event) :
  let fin := nodesRequest c request_name message callback a schedule in
  FanOut.returned fin = true ->
  FanOut.acc fin = FanOut.replay snodes callback (FanOut.calls fin) a /\
  Permutation (map FanOut.call_index (FanOut.calls fin)) (seq 0 (List.length snodes)) /\
  (forall call, In call (FanOut.calls fin) ->
                In (FanOut.Reply (fst (fst call)) (snd (fst call)) (snd call)) schedule) /\
  FanOut.sent fin
  = map (fun sn => mkRequest (x_pubkey sn) request_name message) snodes.
Proof.
  intros fin Hret.
  destruct (nodesRequest_acc c request_name message callback a schedule) as [Hinv Hacc].
  fold fin in Hinv, Hacc.
  destruct (returned_all_called snodes request_name message callback a fin Hinv Hret)
    as [_ [_ Hperm]].
  split; [exact Hacc|]. split; [exact Hperm|]. split.
  - intros call. apply nodesRequest_calls.
  - destruct Hinv as [_ _ _ _ Hsent _ Hr]. rewrite Hsent. destruct (Hr Hret) as [-> _].
    unfold FanOut.requests_to, FanOut.snode_at.
    rewrite <- (map_map (fun i => nth i snodes FanOut.default_snode)
                  (fun sn => mkRequest (x_pubkey sn) request_name message)).
    now rewrite map_nth_seq_all.
Qed.

(** The result of a rewards call that has returned, from the log of the
    calls of its handler. *)
Lemma rewards_request_returned (address : string) (schedule : list FanOut.event)
    (r : BLSRewardsResponse) :
  snd (rewards_request c address schedule) = inr (Some r) ->
  let result := rewards_result_init c address (snd (get_accrued_earnings c address))
                  (fst (get_accrued_earnings c address)) in
  exists log,
    Permutation (map FanOut.call_index log) (seq 0 (List.length snodes)) /\
    (forall call, In call log ->
                  In (FanOut.Reply (fst (fst call)) (snd (fst call)) (snd call)) schedule) /\
    fst (rewards_request c address schedule)
    = map (fun sn => mkRequest (x_pubkey sn) "bls.get_reward_balance" address) snodes /\
    r = mkRewards address (snd (get_accrued_earnings c address))
          (fst (get_accrued_earnings c address)) (signed_hash result)
          (map fst (contributions snodes rewards_try result log))
          (to_crypto_signature
             (fold_left G2_add (map snd (contributions snodes rewards_try result log))
                G2_clear)).
Proof.
  intros Hret result.
  destruct (rewards_request_cases c address schedule)
    as [[_ [what Hthrow]]|[[Haddr [Hamt Hh]] _]].
  { rewrite Hthrow in Hret. discriminate. }
  rewrite (rewards_request_valid c address schedule Haddr Hamt Hh) in Hret |- *.
  cbn [snd fst] in Hret |- *. fold result in Hret |- *.
  set (fin := nodesRequest c "bls.get_reward_balance" address rewards_on_response
                (G2_clear, result) schedule) in *.
  destruct (FanOut.returned fin) eqn:Hr; [|discriminate]. injection Hret as <-.
  destruct (nodesRequest_returned "bls.get_reward_balance" address rewards_on_response
              (G2_clear, result) schedule Hr) as [Hacc [Hperm [Hcalls Hsent]]].
  fold fin in Hacc, Hperm, Hcalls, Hsent.
  exists (FanOut.calls fin). split; [exact Hperm|]. split; [exact Hcalls|].
  split; [exact Hsent|].
  destruct (replay_contributions snodes rewards_try add_rewards_signer signers_bls_pubkeys
              rewards_on_response rewards_on_response_eq rewards_try_frame
              (fun _ _ => eq_refl) (FanOut.calls fin) (G2_clear, result)) as [Hsig Hkeys].
  destruct (rewards_replay_frame snodes (FanOut.calls fin) (G2_clear, result))
    as [Ha [Hb [Hc [Hd _]]]].
  rewrite <- Hacc in Hsig, Hkeys, Ha, Hb, Hc, Hd.
  cbn [fst snd] in Hsig, Hkeys, Ha, Hb, Hc, Hd.
  unfold set_rewards_signature. rewrite Hsig, Hkeys, Ha, Hb, Hc, Hd. reflexivity.
Qed.

(** The same for an exit or liquidation call. *)
Lemma aggregateExitOrLiquidate_returned (bls_pubkey0 hash_tag endpoint pubkey_key : string)
    (schedule : list FanOut.event) (r : AggregateExitResponse) :
  snd (aggregateExitOrLiquidate c bls_pubkey0 hash_tag endpoint pubkey_key schedule)
  = inr (Some r) ->
  let result := exit_result_init c bls_pubkey0 hash_tag in
  exists log,
    Permutation (map FanOut.call_index log) (seq 0 (List.length snodes)) /\
    (forall call, In call log ->
                  In (FanOut.Reply (fst (fst call)) (snd (fst call)) (snd call)) schedule) /\
    fst (aggregateExitOrLiquidate c bls_pubkey0 hash_tag endpoint pubkey_key schedule)
    = map (fun sn => mkRequest (x_pubkey sn) endpoint bls_pubkey0) snodes /\
    r = mkExit bls_pubkey0 (exit_signed_hash result)
          (map fst (contributions snodes (exit_try pubkey_key) result log))
          (to_crypto_signature
             (fold_left G2_add
                (map snd (contributions snodes (exit_try pubkey_key) result log))
                G2_clear)).
Proof.
  intros Hret result.
  rewrite aggregateExitOrLiquidate_eq in Hret |- *.
  cbn [snd fst] in Hret |- *. fold result in Hret |- *.
  set (fin := nodesRequest c endpoint bls_pubkey0 (exit_on_response pubkey_key)
                (G2_clear, result) schedule) in *.
  destruct (FanOut.returned fin) eqn:Hr; [|discriminate]. injection Hret as <-.
  destruct (nodesRequest_returned endpoint bls_pubkey0 (exit_on_response pubkey_key)
              (G2_clear, result) schedule Hr) as [Hacc [Hperm [Hcalls Hsent]]].
  fold fin in Hacc, Hperm, Hcalls, Hsent.
  exists (FanOut.calls fin). split; [exact Hperm|]. split; [exact Hcalls|].
  split; [exact Hsent|].
  destruct (replay_contributions snodes (exit_try pubkey_key) add_exit_signer
              exit_signers_bls_pubkeys (exit_on_response pubkey_key)
              (exit_on_response_eq pubkey_key) (exit_try_frame pubkey_key)
              (fun _ _ => eq_refl) (FanOut.calls fin) (G2_clear, result)) as [Hsig Hkeys].
  destruct (exit_replay_frame pubkey_key snodes (FanOut.calls fin) (G2_clear, result))
    as [Ha [Hb _]].
  rewrite <- Hacc in Hsig, Hkeys, Ha, Hb.
  cbn [fst snd] in Hsig, Hkeys, Ha, Hb.
  unfold set_exit_signature. rewrite Hsig, Hkeys, Ha, Hb. reflexivity.
Qed.

End Returned.

Lemma map_nth_seq_firstn {X : Type} (l : list X) (d : X) (n : nat) :
  n <= List.length l -> map (fun i => nth i l d) (seq 0 n) = firstn n l.
Proof.
  revert n. induction l as [|y l IH]; intros n Hn.
  - cbn [List.length] in Hn. now replace n with 0 by lia.
  - destruct n as [|n]; [reflexivity|].
    cbn [List.length] in Hn. cbn [seq map nth firstn]. f_equal.
    rewrite <- seq_shift, map_map. apply IH. lia.
Qed.

(** The requests that a fan-out has handed to the transport are those
    for the first peers of the list. *)
Lemma prefix_sent {P : Primitives} {A : Type} (c : core) (request_name message : string)
    (callback : A -> BLSRequestResult -> list string -> A) (a : A)
    (schedule : list FanOut.event) :
  exists n,
    FanOut.sent (nodesRequest c request_name message callback a schedule)
    = map (fun sn => mkRequest (x_pubkey sn) request_name message)
        (firstn n (reachable_active_service_node_addresses c)).
Proof.
  destruct (nodesRequest_acc c request_name message callback a schedule) as [Hinv _].
  destruct Hinv as [Hnext _ _ _ Hsent _ _].
  exists (FanOut.next_i (nodesRequest c request_name message callback a schedule)).
  rewrite Hsent. unfold FanOut.requests_to, FanOut.snode_at.
  rewrite <- (map_map (fun i => nth i (reachable_active_service_node_addresses c)
                                  FanOut.default_snode)
                (fun sn => mkRequest (x_pubkey sn) request_name message)).
  now rewrite map_nth_seq_firstn.
Qed.


(** The aggregate of a returned result is made of verified signatures
    of its contributors.  For a rewards result and for an exit or
    liquidation result there is one signature per entry of the
    contributor list, in the order of the list, such that each verifies
    against the BLS key of its contributor and the signed hash of the
    result, and the signature of the result is the conversion of their
    sum, added up from the cleared aggregate in that order. *)
Theorem aggregate_is_sum_of_verified_signatures :
  forall (P : Primitives) (c : core),
    (forall address schedule r,
        snd (rewards_request c address schedule) = inr (Some r) ->
        exists sigs,
          Forall2 (fun pk bls_sig =>
                     verifyHash bls_sig (from_crypto_pubkey pk) (signed_hash r) = true)
            (signers_bls_pubkeys r) sigs /\
          signature r = to_crypto_signature (fold_left G2_add sigs G2_clear)) /\
    (forall bls_pubkey0 hash_tag endpoint pubkey_key schedule r,
        snd (aggregateExitOrLiquidate c bls_pubkey0 hash_tag endpoint pubkey_key schedule)
        = inr (Some r) ->
        exists sigs,
          Forall2 (fun pk bls_sig =>
                     verifyHash bls_sig (from_crypto_pubkey pk) (exit_signed_hash r) = true)
            (exit_signers_bls_pubkeys r) sigs /\
          exit_signature r = to_crypto_signature (fold_left G2_add sigs G2_clear)).
Proof.
  intros P c. split.
  - intros address schedule r Hret.
    destruct (rewards_request_returned c address schedule r Hret) as [log [_ [_ [_ ->]]]].
    cbn [signers_bls_pubkeys signature signed_hash].
    eexists. split; [|reflexivity].
    apply Forall2_map_fst_snd. intros pk g Hin.
    apply contributions_accepted in Hin. destruct Hin as [call [_ [-> Htry]]].
    apply rewards_try_inr in Htry.
    destruct Htry
      as [_ [_ [_ [d0 [d1 [d2 [d3 [d4 [sg [_ [_ [_ [_ [_ [_ [_ [_ Hver]]]]]]]]]]]]]]]]].
    exact Hver.
  - intros pk0 tag endpoint key schedule r Hret.
    destruct (aggregateExitOrLiquidate_returned c pk0 tag endpoint key schedule r Hret)
      as [log [_ [_ [_ ->]]]].
    cbn [exit_signers_bls_pubkeys exit_signature exit_signed_hash].
    eexists. split; [|reflexivity].
    apply Forall2_map_fst_snd. intros pk g Hin.
    apply contributions_accepted in Hin. destruct Hin as [call [_ [-> Htry]]].
    apply exit_try_inr in Htry.
    destruct Htry as [_ [_ [_ [d0 [d1 [d2 [sg [_ [_ [_ [_ [_ [_ Hver]]]]]]]]]]]]].
    exact Hver.
Qed.

(** What an entry point has done when it returns a result: it has
    handed the transport exactly one request per entry of the peer
    list, in the order of the list, each to the x25519 key of the peer,
    to the endpoint of the call and with the raw bytes of the address
    or BLS key as its only part; and the transport has answered the
    request of every peer.  Before that, the requests handed over are a
    prefix of these. *)
Theorem entry_points_ask_every_peer_once :
  forall (P : Primitives) (c : core),
    let snodes := reachable_active_service_node_addresses c in
    (forall address schedule,
        exists n,
          fst (rewards_request c address schedule)
          = map (fun sn => mkRequest (x_pubkey sn) "bls.get_reward_balance" address)
              (firstn n snodes)) /\
    (forall address schedule r,
        snd (rewards_request c address schedule) = inr (Some r) ->
        fst (rewards_request c address schedule)
        = map (fun sn => mkRequest (x_pubkey sn) "bls.get_reward_balance" address) snodes /\
        forall i, i < List.length snodes ->
                  exists ok parts, In (FanOut.Reply i ok parts) schedule) /\
    (forall bls_pubkey0 hash_tag endpoint pubkey_key schedule,
        exists n,
          fst (aggregateExitOrLiquidate c bls_pubkey0 hash_tag endpoint pubkey_key schedule)
          = map (fun sn => mkRequest (x_pubkey sn) endpoint bls_pubkey0) (firstn n snodes)) /\
    (forall bls_pubkey0 hash_tag endpoint pubkey_key schedule r,
        snd (aggregateExitOrLiquidate c bls_pubkey0 hash_tag endpoint pubkey_key schedule)
        = inr (Some r) ->
        fst (aggregateExitOrLiquidate c bls_pubkey0 hash_tag endpoint pubkey_key schedule)
        = map (fun sn => mkRequest (x_pubkey sn) endpoint bls_pubkey0) snodes /\
        forall i, i < List.length snodes ->
                  exists ok parts, In (FanOut.Reply i ok parts) schedule).
Proof.
  intros P c snodes.
  assert (Hanswered : forall schedule log,
             Permutation (map FanOut.call_index log) (seq 0 (List.length snodes)) ->
             (forall call, In call log ->
                           In (FanOut.Reply (fst (fst call)) (snd (fst call)) (snd call))
                             schedule) ->
             forall i, i < List.length snodes ->
                       exists ok parts, In (FanOut.Reply i ok parts) schedule).
  { intros schedule log Hperm Hcalls i Hi.
    assert (Hin : In i (map FanOut.call_index log)).
    { apply (Permutation_in i (Permutation_sym Hperm)). apply in_seq. lia. }
    apply in_map_iff in Hin. destruct Hin as [[[j ok] parts] [Hj Hin]].
    cbn in Hj. subst j. exists ok, parts. exact (Hcalls _ Hin). }
  split; [|split; [|split]].
  - intros address schedule.
    destruct (rewards_request_cases c address schedule)
      as [[_ [what Hthrow]]|[[Haddr [Hamt Hh]] _]].
    { exists 0. rewrite Hthrow. reflexivity. }
    rewrite (rewards_request_valid c address schedule Haddr Hamt Hh). cbn [fst].
    apply prefix_sent.
  - intros address schedule r Hret.
    destruct (rewards_request_returned c address schedule r Hret)
      as [log [Hperm [Hcalls [Hsent _]]]].
    split; [exact Hsent|]. exact (Hanswered schedule log Hperm Hcalls).
  - intros pk0 tag endpoint key schedule.
    rewrite aggregateExitOrLiquidate_eq. cbn [fst]. apply prefix_sent.
  - intros pk0 tag endpoint key schedule r Hret.
    destruct (aggregateExitOrLiquidate_returned c pk0 tag endpoint key schedule r Hret)
      as [log [Hperm [Hcalls [Hsent _]]]].
    split; [exact Hsent|]. exact (Hanswered schedule log Hperm Hcalls).
Qed.


(** A log with one call per peer whose answers are those of [answers]
    is, up to the order of the calls, the list of the answers. *)
Lemma log_of_answers (answers : nat -> bool * list string)
    (log : list (nat * bool * list string)) (n : nat) :
  Permutation (map FanOut.call_index log) (seq 0 n) ->
  (forall call, In call log -> answers (fst (fst call)) = (snd (fst call), snd call)) ->
  Permutation log (map (fun i => (i, fst (answers i), snd (answers i))) (seq 0 n)).
Proof.
  intros Hperm Hans.
  assert (Hlog : map (fun i => (i, fst (answers i), snd (answers i)))
                   (map FanOut.call_index log) = log).
  { rewrite map_map. rewrite <- (map_id log) at 2. apply map_ext_in.
    intros [[i ok] parts] Hin. unfold FanOut.call_index. cbn [fst snd].
    pose proof (Hans _ Hin) as H. cbn [fst snd] in H. rewrite H. reflexivity. }
  rewrite <- Hlog at 1. now apply Permutation_map.
Qed.

(** Two logs that hold the same calls in different orders contribute
    the same signatures and keys, in different orders. *)
Lemma contributions_perm {P : Primitives} {R : Type} (snodes : list service_node_address)
    (try_block : R -> BLSRequestResult -> list string -> M G2) (result : R)
    (log1 log2 : list (nat * bool * list string)) :
  Permutation log1 log2 ->
  Permutation (contributions snodes try_block result log1)
    (contributions snodes try_block result log2).
Proof. intros H. unfold contributions. now apply Permutation_flat_map. Qed.

(** The result does not depend on the interleaving.  When addition of
    signatures is associative and commutative and every peer gives the
    same answer in two runs of a call, whatever the order of the
    dispatches, replies and releases in them, the two results carry the
    same aggregate signature, the same claim, and the same contributors
    up to their order. *)
Theorem result_independent_of_interleaving :
  forall (P : Primitives) (c : core) (answers : nat -> bool * list string),
    (forall x y z, G2_add x (G2_add y z) = G2_add (G2_add x y) z) ->
    (forall x y, G2_add x y = G2_add y x) ->
    (forall recipient schedule1 schedule2 r1 r2,
        (forall i ok parts,
            In (FanOut.Reply i ok parts) schedule1 \/ In (FanOut.Reply i ok parts) schedule2 ->
            answers i = (ok, parts)) ->
        snd (rewards_request c recipient schedule1) = inr (Some r1) ->
        snd (rewards_request c recipient schedule2) = inr (Some r2) ->
        signature r1 = signature r2 /\
        Permutation (signers_bls_pubkeys r1) (signers_bls_pubkeys r2) /\
        address r1 = address r2 /\ amount r1 = amount r2 /\ height r1 = height r2 /\
        signed_hash r1 = signed_hash r2) /\
    (forall bls_pubkey0 hash_tag endpoint pubkey_key schedule1 schedule2 r1 r2,
        (forall i ok parts,
            In (FanOut.Reply i ok parts) schedule1 \/ In (FanOut.Reply i ok parts) schedule2 ->
            answers i = (ok, parts)) ->
        snd (aggregateExitOrLiquidate c bls_pubkey0 hash_tag endpoint pubkey_key schedule1)
        = inr (Some r1) ->
        snd (aggregateExitOrLiquidate c bls_pubkey0 hash_tag endpoint pubkey_key schedule2)
        = inr (Some r2) ->
        exit_signature r1 = exit_signature r2 /\
        Permutation (exit_signers_bls_pubkeys r1) (exit_signers_bls_pubkeys r2) /\
        exit_pubkey r1 = exit_pubkey r2 /\ exit_signed_hash r1 = exit_signed_hash r2).
Proof.
  intros P c answers Hassoc Hcomm.
  assert (Hlogs : forall schedule1 schedule2 log1 log2,
             (forall i ok parts,
                 In (FanOut.Reply i ok parts) schedule1 \/
                 In (FanOut.Reply i ok parts) schedule2 ->
                 answers i = (ok, parts)) ->
             Permutation (map FanOut.call_index log1)
               (seq 0 (List.length (reachable_active_service_node_addresses c))) ->
             Permutation (map FanOut.call_index log2)
               (seq 0 (List.length (reachable_active_service_node_addresses c))) ->
             (forall call, In call log1 ->
                           In (FanOut.Reply (fst (fst call)) (snd (fst call)) (snd call))
                             schedule1) ->
             (forall call, In call log2 ->
                           In (FanOut.Reply (fst (fst call)) (snd (fst call)) (snd call))
                             schedule2) ->
             Permutation log1 log2).
  { intros s1 s2 log1 log2 Hans Hp1 Hp2 Hc1 Hc2.
    transitivity (map (fun i => (i, fst (answers i), snd (answers i)))
                    (seq 0 (List.length (reachable_active_service_node_addresses c)))).
    - apply log_of_answers; [assumption|]. intros call Hin. apply Hans. left. now apply Hc1.
    - symmetry. apply log_of_answers; [assumption|].
      intros call Hin. apply Hans. right. now apply Hc2. }
  split.
  - intros recipient schedule1 schedule2 r1 r2 Hans Hret1 Hret2.
    destruct (rewards_request_returned c recipient schedule1 r1 Hret1)
      as [log1 [Hp1 [Hc1 [_ ->]]]].
    destruct (rewards_request_returned c recipient schedule2 r2 Hret2)
      as [log2 [Hp2 [Hc2 [_ ->]]]].
    pose proof (Hlogs schedule1 schedule2 log1 log2 Hans Hp1 Hp2 Hc1 Hc2) as Hperm.
    apply (contributions_perm (reachable_active_service_node_addresses c) rewards_try
             (rewards_result_init c recipient (snd (get_accrued_earnings c recipient))
                (fst (get_accrued_earnings c recipient)))) in Hperm.
    cbn [signature signers_bls_pubkeys address amount height signed_hash].
    split; [|split; [|repeat split]].
    + f_equal. apply fold_left_G2_add_perm; try assumption. now apply Permutation_map.
    + now apply Permutation_map.
  - intros pk0 tag endpoint key schedule1 schedule2 r1 r2 Hans Hret1 Hret2.
    destruct (aggregateExitOrLiquidate_returned c pk0 tag endpoint key schedule1 r1 Hret1)
      as [log1 [Hp1 [Hc1 [_ ->]]]].
    destruct (aggregateExitOrLiquidate_returned c pk0 tag endpoint key schedule2 r2 Hret2)
      as [log2 [Hp2 [Hc2 [_ ->]]]].
    pose proof (Hlogs schedule1 schedule2 log1 log2 Hans Hp1 Hp2 Hc1 Hc2) as Hperm.
    apply (contributions_perm (reachable_active_service_node_addresses c) (exit_try key)
             (exit_result_init c pk0 tag)) in Hperm.
    cbn [exit_signature exit_signers_bls_pubkeys exit_pubkey exit_signed_hash].
    split; [|split; [|split; reflexivity]].
    + f_equal. apply fold_left_G2_add_perm; try assumption. now apply Permutation_map.
    + now apply Permutation_map.
Qed.

(** * The fan-out can always finish *)

Section FanOutProgress.

Context {A : Type}.
Variable snodes : list service_node_address.
Variables request_name message : string.
Variable callback : A -> BLSRequestResult -> list string -> A.

#[local] Abbreviation step := (FanOut.step snodes request_name message callback).
#[local] Abbreviation exec := (FanOut.exec snodes request_name message callback).

(** The loop runs to its end: nothing stops a dispatch. *)
Lemma exec_dispatch_rest (k : nat) (s : FanOut.state) :
  FanOut.returned s = false ->
  FanOut.next_i s + k = List.length snodes ->
  let s' := exec (repeat FanOut.Dispatch k) s in
  FanOut.returned s' = false /\ FanOut.next_i s' = List.length snodes.
Proof.
  revert s. induction k as [|k IH]; intros s Hr Hn; cbn [repeat FanOut.exec].
  - split; [assumption|lia].
  - unfold FanOut.step_or_stay, FanOut.step. rewrite Hr.
    assert (Hlt : (FanOut.next_i s <? List.length snodes) = true)
      by (apply Nat.ltb_lt; lia).
    rewrite Hlt. unfold FanOut.admission. cbn [FanOut.admission_gate].
    match goal with
    | |- context [FanOut.exec _ _ _ _ _ ?s1] =>
        destruct (IH s1 eq_refl) as [H1 H2]; [fanout_fields; lia|]
    end.
    split; assumption.
Qed.

(** Every request in flight can be answered. *)
Lemma exec_reply_all (l : list nat) (s : FanOut.state) :
  FanOut.returned s = false ->
  FanOut.in_flight s = l ->
  let s' := exec (map (fun i => FanOut.Reply i false []) l) s in
  FanOut.returned s' = false /\ FanOut.next_i s' = FanOut.next_i s /\
  FanOut.in_flight s' = [].
Proof.
  revert s. induction l as [|i l IH]; intros s Hr Hl; cbn [map FanOut.exec].
  - now repeat split.
  - unfold FanOut.step_or_stay, FanOut.step. rewrite Hr, Hl.
    cbn [FanOut.mem existsb FanOut.remove_one]. rewrite Nat.eqb_refl. cbn [orb].
    match goal with
    | |- context [FanOut.exec _ _ _ _ _ ?s1] =>
        destruct (IH s1 eq_refl eq_refl) as [H1 [H2 H3]]
    end.
    cbn [FanOut.next_i] in H2. repeat split; assumption.
Qed.

(** Every lambda that has run the callback can release its slot, as
    long as the counter counts it. *)
Lemma exec_release_all (l : list nat) (s : FanOut.state) :
  FanOut.returned s = false ->
  FanOut.in_flight s = [] ->
  FanOut.releasing s = l ->
  FanOut.active_connections s = List.length l ->
  let s' := exec (map FanOut.Release l) s in
  FanOut.returned s' = false /\ FanOut.next_i s' = FanOut.next_i s /\
  FanOut.active_connections s' = 0.
Proof.
  revert s. induction l as [|i l IH]; intros s Hr Hf Hl Ha; cbn [map FanOut.exec].
  - now repeat split.
  - unfold FanOut.step_or_stay, FanOut.step. rewrite Hr, Hl, Ha.
    cbn [FanOut.mem existsb FanOut.remove_one List.length]. rewrite Nat.eqb_refl. cbn [orb].
    match goal with
    | |- context [FanOut.exec _ _ _ _ _ ?s1] =>
        destruct (IH s1 eq_refl Hf eq_refl eq_refl) as [H1 [H2 H3]]
    end.
    cbn [FanOut.next_i] in H2. repeat split; assumption.
Qed.

(** From every state of a run there is a continuation after which the
    call has returned. *)
Lemma reachable_can_return (a : A) (s : FanOut.state) :
  FanOut.reachable snodes request_name message callback a s ->
  exists schedule, FanOut.returned (exec schedule s) = true.
Proof.
  intros Hs. destruct (FanOut.returned s) eqn:Hr.
  { exists []. exact Hr. }
  pose proof (reachable_invariant snodes request_name message callback a s Hs) as Hinv.
  set (k := List.length snodes - FanOut.next_i s).
  set (s1 := exec (repeat FanOut.Dispatch k) s).
  destruct (exec_dispatch_rest k s Hr) as [Hr1 Hn1].
  { destruct Hinv as [Hnext _ _ _ _ _ _]. unfold k. lia. }
  fold s1 in Hr1, Hn1.
  set (s2 := exec (map (fun i => FanOut.Reply i false []) (FanOut.in_flight s1)) s1).
  destruct (exec_reply_all (FanOut.in_flight s1) s1 Hr1 eq_refl) as [Hr2 [Hn2 Hf2]].
  fold s2 in Hr2, Hn2, Hf2.
  assert (Hs2 : FanOut.reachable snodes request_name message callback a s2).
  { unfold s2, s1. now repeat apply exec_reachable. }
  pose proof (reachable_invariant snodes request_name message callback a s2 Hs2) as Hinv2.
  set (s3 := exec (map FanOut.Release (FanOut.releasing s2)) s2).
  destruct (exec_release_all (FanOut.releasing s2) s2 Hr2 Hf2 eq_refl) as [Hr3 [Hn3 Ha3]].
  { destruct Hinv2 as [_ Hact _ _ _ _ _]. rewrite Hact, Hf2. reflexivity. }
  fold s3 in Hr3, Hn3, Ha3.
  exists (repeat FanOut.Dispatch k
          ++ map (fun i => FanOut.Reply i false []) (FanOut.in_flight s1)
          ++ map FanOut.Release (FanOut.releasing s2) ++ [FanOut.Join]).
  rewrite !exec_app. fold s1. fold s2. fold s3. cbn [FanOut.exec].
  unfold FanOut.step_or_stay, FanOut.step. rewrite Hr3, Hn3, Hn2, Hn1, Ha3.
  rewrite Nat.eqb_refl. reflexivity.
Qed.

End FanOutProgress.

(** The fan-out neither trips its assertion nor gets stuck.  In every
    state of a run of [nodesRequest] that has not returned: a reply
    lambda that has run the callback finds the counter of active
    connections positive, so [assert(active_connections)] holds and the
    decrement takes the counter down by one; and there is a way for the
    run to go on (the remaining dispatches, an answer to every request
    in flight, the release of every slot, the final wait) after which
    the call has returned. *)
Theorem nodesRequest_never_stuck :
  forall (A : Type) (snodes : list service_node_address) (request_name message : string)
         (callback : A -> BLSRequestResult -> list string -> A) (a : A) (s : FanOut.state),
    FanOut.reachable snodes request_name message callback a s ->
    (forall i, FanOut.returned s = false -> In i (FanOut.releasing s) ->
               exists s', FanOut.step snodes request_name message callback
                            (FanOut.Release i) s = Some s' /\
                          S (FanOut.active_connections s') = FanOut.active_connections s) /\
    (exists schedule,
        FanOut.returned (FanOut.exec snodes request_name message callback schedule s) = true).
Proof.
  intros A snodes request_name message callback a s Hs. split.
  - intros i Hr Hin.
    destruct (reachable_invariant snodes request_name message callback a s Hs)
      as [_ Hact _ _ _ _ _].
    unfold FanOut.step. rewrite Hr.
    apply (mem_In i) in Hin. rewrite Hin.
    destruct (FanOut.active_connections s) as [|n] eqn:Ha.
    + apply mem_In in Hin. destruct (FanOut.releasing s); [contradiction|].
      cbn [List.length] in Hact. lia.
    + eexists. split; [reflexivity|]. reflexivity.
  - exact (reachable_can_return snodes request_name message callback a s Hs).
Qed.


(** A log whose calls are all rejected contributes nothing. *)
Lemma contributions_rejected {P : Primitives} {R : Type} (snodes : list service_node_address)
    (try_block : R -> BLSRequestResult -> list string -> M G2) (result : R)
    (log : list (nat * bool * list string)) :
  (forall call, In call log ->
                succeeded (try_block result
                             (mkRequestResult (FanOut.snode_at snodes (fst (fst call)))
                                (snd (fst call))) (snd call)) = false) ->
  contributions snodes try_block result log = [].
Proof.
  unfold contributions. induction log as [|call log IH]; intros Hall; [reflexivity|].
  cbn [flat_map]. rewrite IH by (intros c0 Hin; apply Hall; now right).
  unfold contribution. specialize (Hall call (or_introl eq_refl)).
  destruct (try_block result _ (snd call)); [reflexivity|discriminate].
Qed.

(** A rewards aggregation collects nothing from peers that answer as
    [get_reward_balance] does.  When every answer in a run of
    [rewards_request] is a transport failure, a reply whose status is
    not [200], or a reply of status [200] with a dict that holds
    address, balance, height and signature in sorted order, then the
    result that is returned has no contributors and the signature of
    the cleared aggregate, whatever the replies carry. *)
Theorem rewards_request_collects_nothing_from_sorted_replies :
  forall (P : Primitives) (c : core) (recipient : string) (schedule : list FanOut.event)
         (r : BLSRewardsResponse),
    snd (rewards_request c recipient schedule) = inr (Some r) ->
    (forall i ok parts,
        In (FanOut.Reply i ok parts) schedule ->
        ok = false \/ part 0 parts <> "200" \/
        exists a b h sg,
          (Z.of_nat (String.length a) < bt.two64)%Z /\
          (0 <= b < bt.two64)%Z /\ (0 <= h < bt.two64)%Z /\
          (Z.of_nat (String.length sg) < bt.two64)%Z /\
          parts = ["200";
                   bt.str (bt.append_string
                             (bt.append_uint64
                                (bt.append_uint64
                                   (bt.append_string bt.bt_dict_producer "address" a)
                                   "balance" b)
                                "height" h)
                             "signature" sg)]) ->
    signers_bls_pubkeys r = [] /\ signature r = to_crypto_signature G2_clear.
Proof.
  intros P c recipient schedule r Hret Hans.
  destruct (rewards_request_returned c recipient schedule r Hret) as [log [_ [Hcalls [_ ->]]]].
  cbn [signers_bls_pubkeys signature].
  rewrite contributions_rejected; [split; reflexivity|].
  intros [[i ok] parts] Hin. cbn [fst snd].
  specialize (Hcalls _ Hin). cbn [fst snd] in Hcalls.
  destruct (Hans i ok parts Hcalls) as [->|[Hstatus|[a [b [h [sg [Ha [Hb [Hh [Hsg ->]]]]]]]]]].
  - now apply rewards_try_transport_failure.
  - unfold rewards_try. apply String.eqb_neq in Hstatus. rewrite Hstatus.
    cbn [negb]. rewrite orb_true_r. reflexivity.
  - now apply rewards_try_sorted_reply_fails.
Qed.


(** * The exit and liquidation flows on the request that is sent *)

Section SentRequest.

Context {P : Primitives}.

(** Every request of an exit or liquidation call carries the raw bytes
    of the key as its message. *)
Lemma sent_request_message (c : core) (pk hash_tag endpoint pubkey_key : string)
    (schedule : list FanOut.event) (q : omq_request) :
  In q (fst (aggregateExitOrLiquidate c pk hash_tag endpoint pubkey_key schedule)) ->
  req_name q = endpoint /\ req_message q = pk.
Proof.
  rewrite aggregateExitOrLiquidate_eq. cbn [fst].
  destruct (prefix_sent c endpoint pk (exit_on_response pubkey_key)
              (G2_clear, exit_result_init c pk hash_tag) schedule) as [n ->].
  rewrite in_map_iff. intros [sn [<- _]]. split; reflexivity.
Qed.

(** A responder that receives the raw bytes of a key accepts them and
    goes on with the content of its local variable. *)
Lemma extract_1part_msg_sent_key (pk local cmd_name value_name : string) :
  String.length pk = sizeof_bls_public_key ->
  extract_1part_msg sizeof_bls_public_key (mkMessage [pk] []) local cmd_name value_name
  = inr (mkMessage [pk] [], local, true).
Proof.
  intros Hpk. apply extract_1part_msg_raw with (raw := pk);
    [reflexivity | assumption | discriminate].
Qed.

(** The exit and liquidation handler on a dict with a key first and the
    signature second. *)
Lemma exit_on_response_dict (pubkey_key : string) (st : G2 * AggregateExitResponse)
    (request_result : BLSRequestResult) (pk sg : string) :
  (Z.of_nat (String.length pubkey_key) < bt.two64)%Z ->
  String.length pk = sizeof_bls_public_key ->
  String.length sg = sizeof_bls_signature ->
  exit_on_response pubkey_key st request_result
    ["200";
     bt.str (bt.append_string (bt.append_string bt.bt_dict_producer pubkey_key pk)
               "signature" sg)]
  = if success request_result
       && String.eqb (exit_pubkey (snd st)) pk
       && verifyHash (from_crypto_signature sg)
            (from_crypto_pubkey (bls_pubkey (sn request_result)))
            (exit_signed_hash (snd st))
    then (G2_add (fst st) (from_crypto_signature sg),
          add_exit_signer (snd st) (bls_pubkey (sn request_result)))
    else st.
Proof.
  intros Hkey Hpk Hsg.
  unfold exit_on_response, exit_try.
  destruct (success request_result) eqn:Hok; [|reflexivity].
  cbn [negb orb andb List.length Nat.eqb part nth String.eqb Ascii.eqb Bool.eqb].
  rewrite exit_payload_eq.
  rewrite bt_dict_consumer_open by apply bt_string_nonempty.
  cbn [bind ret].
  assert (Hpk64 : (Z.of_nat (String.length pk) < bt.two64)%Z)
    by (rewrite Hpk; reflexivity).
  assert (Hsg128 : (Z.of_nat (String.length sg) < bt.two64)%Z)
    by (rewrite Hsg; reflexivity).
  rewrite require_string_view_found by assumption. cbn [bind ret].
  unfold tools.make_from_guts at 1. rewrite Hpk, Nat.eqb_refl. cbn [bind ret].
  destruct (String.eqb (exit_pubkey (snd st)) pk); cbn [negb]; [|reflexivity].
  rewrite require_string_view_found by (try assumption; reflexivity). cbn [bind ret].
  unfold tools.make_from_guts at 1. rewrite Hsg, Nat.eqb_refl. cbn [bind ret].
  destruct (verifyHash _ _ _); reflexivity.
Qed.

(** A dict that echoes another key than the key of the claim is
    rejected before its signature is looked at. *)
Lemma exit_try_other_key (pubkey_key : string) (result : AggregateExitResponse)
    (request_result : BLSRequestResult) (pk sg : string) :
  (Z.of_nat (String.length pubkey_key) < bt.two64)%Z ->
  String.length pk = sizeof_bls_public_key ->
  pk <> exit_pubkey result ->
  succeeded
    (exit_try pubkey_key result request_result
       ["200";
        bt.str (bt.append_string (bt.append_string bt.bt_dict_producer pubkey_key pk)
                  "signature" sg)]) = false.
Proof.
  intros Hkey Hpk Hne. unfold exit_try.
  destruct (success request_result); [|reflexivity].
  cbn [negb orb andb List.length Nat.eqb part nth String.eqb Ascii.eqb Bool.eqb].
  rewrite exit_payload_eq.
  rewrite bt_dict_consumer_open by apply bt_string_nonempty.
  cbn [bind ret].
  assert (Hpk64 : (Z.of_nat (String.length pk) < bt.two64)%Z)
    by (rewrite Hpk; reflexivity).
  rewrite require_string_view_found by assumption. cbn [bind ret].
  unfold tools.make_from_guts at 1. rewrite Hpk, Nat.eqb_refl. cbn [bind ret].
  replace (String.eqb (exit_pubkey result) pk) with false; [reflexivity|].
  symmetry. apply String.eqb_neq. intros Heq. now apply Hne.
Qed.

Lemma exit_try_other_status (pubkey_key : string) (result : AggregateExitResponse)
    (request_result : BLSRequestResult) (parts : list string) :
  part 0 parts <> "200" ->
  succeeded (exit_try pubkey_key result request_result parts) = false.
Proof.
  intros Hne. unfold exit_try. apply String.eqb_neq in Hne. rewrite Hne.
  cbn [negb]. rewrite orb_true_r. reflexivity.
Qed.

(** A full round in which every answer is rejected returns the cleared
    aggregate. *)
Lemma aggregateExitOrLiquidate_all_rejected (c : core)
    (pk hash_tag endpoint pubkey_key : string) (schedule : list FanOut.event)
    (r : AggregateExitResponse) :
  snd (aggregateExitOrLiquidate c pk hash_tag endpoint pubkey_key schedule) = inr (Some r) ->
  (forall i ok parts,
      In (FanOut.Reply i ok parts) schedule ->
      succeeded (exit_try pubkey_key (exit_result_init c pk hash_tag)
                   (mkRequestResult
                      (FanOut.snode_at (reachable_active_service_node_addresses c) i) ok)
                   parts) = false) ->
  exit_signers_bls_pubkeys r = [] /\ exit_signature r = to_crypto_signature G2_clear.
Proof.
  intros Hret Hrej.
  destruct (aggregateExitOrLiquidate_returned c pk hash_tag endpoint pubkey_key schedule r
              Hret) as [log [_ [Hcalls [_ ->]]]].
  cbn [exit_signers_bls_pubkeys exit_signature].
  rewrite contributions_rejected; [split; reflexivity|].
  intros [[i ok] parts] Hin. cbn [fst snd].
  apply Hrej. exact (Hcalls _ Hin).
Qed.

End SentRequest.

(** The exit and liquidation flows end to end, on the request that the
    aggregator sends.  The request carries the raw 64 bytes of the key;
    [extract_1part_msg] accepts them without storing them, so the
    responder goes on with the content of its local variable: it
    replies [403] when that content is not removable (liquidatable) and
    otherwise [200] with a dict that echoes and signs that content.
    The handler of the aggregator folds the reply exactly when the
    content is removable (liquidatable) for the responder, equals the
    key that was asked about, and the signature verifies.  Hence a
    round in which no responder's local variable happens to hold the
    key returns no contributors and the cleared aggregate. *)
Theorem exit_flow_on_sent_request :
  forall (P : Primitives) (aggregator : core) (pk : string),
    String.length pk = sizeof_bls_public_key ->
    (forall responder peer aggSig local schedule q,
        String.length local = sizeof_bls_public_key ->
        (forall h, String.length (signHash (bls_signer_key responder) h)
                   = sizeof_bls_signature) ->
        In q (fst (aggregateExit aggregator pk schedule)) ->
        let m := mkMessage [req_message q] [] in
        let sig := signHash (bls_signer_key responder)
                     (keccak [signer_buildTagHash responder removalTag; local]) in
        let claim := exit_result_init aggregator pk removalTag in
        exists reply sigs,
          get_exit responder m local = inr (send_reply m reply, sigs) /\
          exit_on_response "exit" (aggSig, claim) (mkRequestResult peer true) reply
          = if is_node_removable responder local && String.eqb pk local
               && verifyHash (from_crypto_signature sig)
                    (from_crypto_pubkey (bls_pubkey peer)) (exit_signed_hash claim)
            then (G2_add aggSig (from_crypto_signature sig),
                  add_exit_signer claim (bls_pubkey peer))
            else (aggSig, claim)) /\
    (forall responder peer aggSig local schedule q,
        String.length local = sizeof_bls_public_key ->
        (forall h, String.length (signHash (bls_signer_key responder) h)
                   = sizeof_bls_signature) ->
        In q (fst (aggregateLiquidation aggregator pk schedule)) ->
        let m := mkMessage [req_message q] [] in
        let sig := signHash (bls_signer_key responder)
                     (keccak [signer_buildTagHash responder liquidateTag; local]) in
        let claim := exit_result_init aggregator pk liquidateTag in
        exists reply sigs,
          get_liquidation responder m local = inr (send_reply m reply, sigs) /\
          exit_on_response "liquidate" (aggSig, claim) (mkRequestResult peer true) reply
          = if is_node_liquidatable responder local && String.eqb pk local
               && verifyHash (from_crypto_signature sig)
                    (from_crypto_pubkey (bls_pubkey peer)) (exit_signed_hash claim)
            then (G2_add aggSig (from_crypto_signature sig),
                  add_exit_signer claim (bls_pubkey peer))
            else (aggSig, claim)) /\
    (forall (responders : nat -> core) (locals : nat -> string) schedule r,
        (forall i, String.length (locals i) = sizeof_bls_public_key) ->
        (forall i, locals i <> pk) ->
        (forall i ok parts,
            In (FanOut.Reply i ok parts) schedule ->
            ok = false \/
            exists sigs,
              get_exit (responders i) (mkMessage [pk] []) (locals i)
              = inr (send_reply (mkMessage [pk] []) parts, sigs)) ->
        snd (aggregateExit aggregator pk schedule) = inr (Some r) ->
        exit_signers_bls_pubkeys r = [] /\ exit_signature r = to_crypto_signature G2_clear) /\
    (forall (responders : nat -> core) (locals : nat -> string) schedule r,
        (forall i, String.length (locals i) = sizeof_bls_public_key) ->
        (forall i, locals i <> pk) ->
        (forall i ok parts,
            In (FanOut.Reply i ok parts) schedule ->
            ok = false \/
            exists sigs,
              get_liquidation (responders i) (mkMessage [pk] []) (locals i)
              = inr (send_reply (mkMessage [pk] []) parts, sigs)) ->
        snd (aggregateLiquidation aggregator pk schedule) = inr (Some r) ->
        exit_signers_bls_pubkeys r = [] /\ exit_signature r = to_crypto_signature G2_clear).
Proof.
  intros P aggregator pk Hpk. split; [|split; [|split]].
  - intros responder peer g local schedule q Hlocal Hsig Hq.
    apply sent_request_message in Hq. destruct Hq as [_ ->]. cbv zeta.
    pose proof (extract_1part_msg_sent_key pk local "BLS exit" "BLS pubkey" Hpk) as Hext.
    destruct (is_node_removable responder local) eqn:Hok.
    + rewrite (get_exit_signs responder _ _ local local Hext Hok). cbv zeta.
      eexists. eexists. split; [reflexivity|].
      rewrite exit_on_response_dict by (try assumption; try apply Hsig; reflexivity).
      cbn [success sn snd fst exit_pubkey exit_signed_hash exit_result_init andb].
      reflexivity.
    + rewrite (get_exit_not_removable responder _ _ local local Hext Hok).
      eexists. eexists. split; [reflexivity|]. reflexivity.
  - intros responder peer g local schedule q Hlocal Hsig Hq.
    apply sent_request_message in Hq. destruct Hq as [_ ->]. cbv zeta.
    pose proof (extract_1part_msg_sent_key pk local "BLS exit" "BLS pubkey" Hpk) as Hext.
    destruct (is_node_liquidatable responder local) eqn:Hok.
    + rewrite (get_liquidation_signs responder _ _ local local Hext Hok). cbv zeta.
      eexists. eexists. split; [reflexivity|].
      rewrite exit_on_response_dict by (try assumption; try apply Hsig; reflexivity).
      cbn [success sn snd fst exit_pubkey exit_signed_hash exit_result_init andb].
      reflexivity.
    + rewrite (get_liquidation_not_liquidatable responder _ _ local local Hext Hok).
      eexists. eexists. split; [reflexivity|]. reflexivity.
  - intros responders locals schedule r Hlen Hother Hans Hret.
    apply (aggregateExitOrLiquidate_all_rejected aggregator pk removalTag "bls.get_exit"
             "exit" schedule r Hret).
    intros i ok parts Hin. destruct (Hans i ok parts Hin) as [->|[sigs Hreply]].
    { now apply exit_try_transport_failure. }
    pose proof (extract_1part_msg_sent_key pk (locals i) "BLS exit" "BLS pubkey" Hpk)
      as Hext.
    destruct (is_node_removable (responders i) (locals i)) eqn:Hok.
    + rewrite (get_exit_signs (responders i) _ _ (locals i) (locals i) Hext Hok) in Hreply.
      cbv zeta in Hreply. injection Hreply as Hreply _. subst parts.
      apply exit_try_other_key; [reflexivity | apply Hlen | apply Hother].
    + rewrite (get_exit_not_removable (responders i) _ _ (locals i) (locals i) Hext Hok)
        in Hreply.
      injection Hreply as Hreply _. subst parts.
      apply exit_try_other_status. discriminate.
  - intros responders locals schedule r Hlen Hother Hans Hret.
    apply (aggregateExitOrLiquidate_all_rejected aggregator pk liquidateTag
             "bls.get_liquidation" "liquidate" schedule r Hret).
    intros i ok parts Hin. destruct (Hans i ok parts Hin) as [->|[sigs Hreply]].
    { now apply exit_try_transport_failure. }
    pose proof (extract_1part_msg_sent_key pk (locals i) "BLS exit" "BLS pubkey" Hpk)
      as Hext.
    destruct (is_node_liquidatable (responders i) (locals i)) eqn:Hok.
    + rewrite (get_liquidation_signs (responders i) _ _ (locals i) (locals i) Hext Hok)
        in Hreply.
      cbv zeta in Hreply. injection Hreply as Hreply _. subst parts.
      apply exit_try_other_key; [reflexivity | apply Hlen | apply Hother].
    + rewrite (get_liquidation_not_liquidatable (responders i) _ _ (locals i) (locals i)
                 Hext Hok) in Hreply.
      injection Hreply as Hreply _. subst parts.
      apply exit_try_other_status. discriminate.
Qed.


(** What the rewards handler does accept.  On a reply of status [200]
    whose dict holds the entries in the order in which the handler
    reads them (balance, height, signature, address), with a 128-byte
    signature and a 20-byte address, the handler folds the signature
    and appends the sender's key exactly when the transport succeeded,
    address, balance and height are those of the claim and the
    signature verifies against the sender's key and the signed hash of
    the claim; otherwise it changes nothing. *)
Theorem rewards_on_response_read_order_reply :
  forall (P : Primitives) (st : G2 * BLSRewardsResponse) (request_result : BLSRequestResult)
         (a : string) (b h : Z) (sg : string),
    (0 <= b < bt.two64)%Z -> (0 <= h < bt.two64)%Z ->
    String.length sg = sizeof_bls_signature ->
    String.length a = sizeof_address ->
    rewards_on_response st request_result
      ["200";
       String "d"
         (bt.bt_string "balance" ++ bt.bt_uint64 b ++ bt.bt_string "height" ++ bt.bt_uint64 h
            ++ bt.bt_string "signature" ++ bt.bt_string sg
            ++ bt.bt_string "address" ++ bt.bt_string a ++ "e")%string]
    = if success request_result
         && String.eqb (address (snd st)) a
         && (amount (snd st) =? b)%Z && (h =? height (snd st))%Z
         && verifyHash (from_crypto_signature sg)
              (from_crypto_pubkey (bls_pubkey (sn request_result)))
              (signed_hash (snd st))
      then (G2_add (fst st) (from_crypto_signature sg),
            add_rewards_signer (snd st) (bls_pubkey (sn request_result)))
      else st.
Proof.
  intros P st rr a b h sg Hb Hh Hsg Ha.
  unfold rewards_on_response, rewards_try.
  destruct (success rr) eqn:Hok; [|reflexivity].
  cbn [negb orb andb List.length Nat.eqb part nth String.eqb Ascii.eqb Bool.eqb].
  rewrite bt_dict_consumer_open by apply bt_string_nonempty.
  cbn [bind ret].
  assert (Ha20 : (Z.of_nat (String.length a) < bt.two64)%Z) by (rewrite Ha; reflexivity).
  assert (Hsg128 : (Z.of_nat (String.length sg) < bt.two64)%Z) by (rewrite Hsg; reflexivity).
  rewrite require_uint64_found by (try assumption; reflexivity). cbn [bind ret].
  rewrite require_uint64_found by (try assumption; reflexivity). cbn [bind ret].
  rewrite require_string_view_found by (try assumption; reflexivity). cbn [bind ret].
  unfold tools.make_from_guts at 1. rewrite Hsg, Nat.eqb_refl. cbn [bind ret].
  rewrite require_string_view_found by (try assumption; reflexivity). cbn [bind ret].
  unfold tools.make_from_guts at 1. rewrite Ha, Nat.eqb_refl. cbn [bind ret].
  destruct (String.eqb (address (snd st)) a); cbn [negb]; [|reflexivity].
  destruct (amount (snd st) =? b)%Z; cbn [negb orb andb]; [|reflexivity].
  destruct (h =? height (snd st))%Z; cbn [negb orb andb]; [|reflexivity].
  destruct (verifyHash _ _ _); reflexivity.
Qed.


(** * More of the code at explicit inputs *)

Section MoreExamples.

#[local] Existing Instance Toy.primitives.

(** The recipient's address sent as bare hex is decoded to its 20 bytes. *)
Lemma extract_1part_msg_decides_witness :
  extract_1part_msg sizeof_address (mkMessage [Toy.recipient_hex] []) EmptyString
    "BLS rewards" "ETH address"
  = inr (mkMessage [Toy.recipient_hex] [], Toy.recipient, true) /\
  String.length Toy.recipient = sizeof_address.
Proof.
  destruct (extract_1part_msg_decides sizeof_address (mkMessage [Toy.recipient_hex] [])
              EmptyString "BLS rewards" "ETH address") as [Hhex _].
  exact (Hhex Toy.recipient_hex eq_refl eq_refl eq_refl).
Defined.

(** The reply of the node with key 3 read back in sorted order. *)
Lemma get_reward_balance_reply_round_trip_witness :
  exists payload sig,
    get_reward_balance (Toy.node 3) (mkMessage [Toy.recipient_hex] []) EmptyString
    = inr (send_reply (mkMessage [Toy.recipient_hex] []) ["200"; payload], [sig]) /\
    (d <- bt.bt_dict_consumer payload ;;
     '(a, d) <- bt.require_string_view d "address" ;;
     '(b, d) <- bt.require_uint64 d "balance" ;;
     '(h, d) <- bt.require_uint64 d "height" ;;
     '(s, d) <- bt.require_string_view d "signature" ;;
     ret (a, b, h, s, bt.rest d))
    = inr (Toy.recipient, 1234%Z, 77%Z, sig, "e").
Proof.
  apply (get_reward_balance_reply_round_trip Toy.primitives (Toy.node 3)
           (mkMessage [Toy.recipient_hex] []) (mkMessage [Toy.recipient_hex] [])
           EmptyString Toy.recipient).
  - vm_compute. reflexivity.
  - vm_compute. reflexivity.
  - split; vm_compute; reflexivity.
  - split; [vm_compute; discriminate | vm_compute; reflexivity].
  - intros h. apply encode_integer_be_length.
Defined.

(** The valid exit reply of [alice] handed to the liquidation handler. *)
Lemma exit_and_liquidation_replies_do_not_mix_witness :
  let claim := exit_result_init (Toy.node 1) Toy.leaving liquidateTag in
  let sig := Toy.sign 3 (exit_signed_hash
                           (exit_result_init (Toy.node 1) Toy.leaving removalTag)) in
  exit_on_response "liquidate" (G2_clear, claim) (mkRequestResult Toy.alice true)
    ["200";
     bt.str (bt.append_string (bt.append_string bt.bt_dict_producer "exit" Toy.leaving)
               "signature" sig)]
  = (G2_clear, claim).
Proof.
  cbv zeta.
  destruct (exit_and_liquidation_replies_do_not_mix Toy.primitives
              (G2_clear, exit_result_init (Toy.node 1) Toy.leaving liquidateTag)
              (mkRequestResult Toy.alice true) Toy.leaving
              (Toy.sign 3 (exit_signed_hash
                             (exit_result_init (Toy.node 1) Toy.leaving removalTag))))
    as [Hmix _].
  - vm_compute. reflexivity.
  - vm_compute. reflexivity.
  - exact Hmix.
Defined.

(** The exit reply of [alice] is accepted, hence her signature verifies. *)
Lemma accepted_response_is_verified_witness :
  let claim := exit_result_init (Toy.node 1) Toy.leaving removalTag in
  let bls_sig := from_crypto_signature (Toy.sign 3 (exit_signed_hash claim)) in
  exit_try "exit" claim (mkRequestResult Toy.alice true) (Toy.exit_reply 3) = inr bls_sig /\
  verifyHash bls_sig (from_crypto_pubkey (bls_pubkey Toy.alice)) (exit_signed_hash claim)
  = true.
Proof.
  cbv zeta.
  assert (Htry : exit_try "exit" (exit_result_init (Toy.node 1) Toy.leaving removalTag)
                   (mkRequestResult Toy.alice true) (Toy.exit_reply 3)
                 = inr (from_crypto_signature
                          (Toy.sign 3 (exit_signed_hash
                                         (exit_result_init (Toy.node 1) Toy.leaving
                                            removalTag))))).
  { vm_compute. reflexivity. }
  split; [exact Htry|].
  destruct (accepted_response_is_verified Toy.primitives (mkRequestResult Toy.alice true)
              (Toy.exit_reply 3)
              (from_crypto_signature
                 (Toy.sign 3 (exit_signed_hash
                                (exit_result_init (Toy.node 1) Toy.leaving removalTag)))))
    as [_ Hexit].
  destruct (proj1 (Hexit "exit" (exit_result_init (Toy.node 1) Toy.leaving removalTag)) Htry)
    as [_ [_ [_ [d0 [d1 [d2 [sg [_ [_ [_ [_ [_ [_ Hver]]]]]]]]]]]]].
  exact Hver.
Defined.

(** Two of three peers contribute to an exit: the aggregate is the sum
    of two signatures that verify against their keys. *)
Lemma aggregate_is_sum_of_verified_signatures_witness :
  exists r,
    snd (aggregateExitOrLiquidate (Toy.node 1) Toy.leaving removalTag "bls.get_exit" "exit"
           [FanOut.Dispatch; FanOut.Dispatch; FanOut.Dispatch;
            FanOut.Reply 2 true (Toy.exit_reply 7); FanOut.Reply 1 false [];
            FanOut.Release 1; FanOut.Reply 0 true (Toy.exit_reply 3);
            FanOut.Release 0; FanOut.Release 2; FanOut.Join])
    = inr (Some r) /\
    exit_signers_bls_pubkeys r = [bls_pubkey Toy.carol; bls_pubkey Toy.alice] /\
    exists sigs,
      Forall2 (fun pk bls_sig =>
                 verifyHash bls_sig (from_crypto_pubkey pk) (exit_signed_hash r) = true)
        (exit_signers_bls_pubkeys r) sigs /\
      exit_signature r = to_crypto_signature (fold_left G2_add sigs G2_clear).
Proof.
  destruct (aggregate_is_sum_of_verified_signatures Toy.primitives (Toy.node 1))
    as [_ Hexit].
  eexists. split; [vm_compute; reflexivity|].
  split; [reflexivity|].
  apply (Hexit Toy.leaving removalTag "bls.get_exit" "exit"
           [FanOut.Dispatch; FanOut.Dispatch; FanOut.Dispatch;
            FanOut.Reply 2 true (Toy.exit_reply 7); FanOut.Reply 1 false [];
            FanOut.Release 1; FanOut.Reply 0 true (Toy.exit_reply 3);
            FanOut.Release 0; FanOut.Release 2; FanOut.Join]).
  vm_compute. reflexivity.
Defined.

(** The requests of a rewards call over three peers, and the answers
    the run has waited for. *)
Lemma entry_points_ask_every_peer_once_witness :
  let schedule := FanOut.sequential [(true, Toy.reward_reply 3); (false, []); (false, [])] in
  fst (rewards_request (Toy.node 1) Toy.recipient schedule)
  = [mkRequest "x-alice" "bls.get_reward_balance" Toy.recipient;
     mkRequest "x-bob" "bls.get_reward_balance" Toy.recipient;
     mkRequest "x-carol" "bls.get_reward_balance" Toy.recipient] /\
  forall i, i < 3 -> exists ok parts, In (FanOut.Reply i ok parts) schedule.
Proof.
  cbv zeta.
  destruct (entry_points_ask_every_peer_once Toy.primitives (Toy.node 1))
    as [_ [Hrewards _]].
  assert (Hret : exists r,
             snd (rewards_request (Toy.node 1) Toy.recipient
                    (FanOut.sequential
                       [(true, Toy.reward_reply 3); (false, []); (false, [])]))
             = inr (Some r)).
  { eexists. vm_compute. reflexivity. }
  destruct Hret as [r Hret].
  exact (Hrewards Toy.recipient _ r Hret).
Defined.

(** Two runs of an exit call in which the replies arrive in opposite
    orders. *)
Lemma result_independent_of_interleaving_witness :
  let schedule1 :=
    FanOut.sequential [(true, Toy.exit_reply 3); (false, []); (true, Toy.exit_reply 7)] in
  let schedule2 :=
    [FanOut.Dispatch; FanOut.Dispatch; FanOut.Dispatch;
     FanOut.Reply 2 true (Toy.exit_reply 7); FanOut.Reply 1 false [];
     FanOut.Release 1; FanOut.Reply 0 true (Toy.exit_reply 3);
     FanOut.Release 0; FanOut.Release 2; FanOut.Join] in
  exists r1 r2,
    snd (aggregateExit (Toy.node 1) Toy.leaving schedule1) = inr (Some r1) /\
    snd (aggregateExit (Toy.node 1) Toy.leaving schedule2) = inr (Some r2) /\
    exit_signers_bls_pubkeys r1 = [bls_pubkey Toy.alice; bls_pubkey Toy.carol] /\
    exit_signers_bls_pubkeys r2 = [bls_pubkey Toy.carol; bls_pubkey Toy.alice] /\
    exit_signature r1 = exit_signature r2 /\
    Permutation (exit_signers_bls_pubkeys r1) (exit_signers_bls_pubkeys r2).
Proof.
  cbv zeta.
  destruct (result_independent_of_interleaving Toy.primitives (Toy.node 1)
              (fun i => match i with
                        | 0 => (true, Toy.exit_reply 3)
                        | 1 => (false, [])
                        | _ => (true, Toy.exit_reply 7)
                        end)
              Z.add_assoc Z.add_comm) as [_ Hexit].
  eexists. eexists.
  split; [vm_compute; reflexivity|].
  split; [vm_compute; reflexivity|].
  split; [reflexivity|]. split; [reflexivity|].
  match goal with
  | |- exit_signature ?r1 = exit_signature ?r2 /\ _ =>
      destruct (Hexit Toy.leaving removalTag "bls.get_exit" "exit"
                  (FanOut.sequential
                     [(true, Toy.exit_reply 3); (false, []); (true, Toy.exit_reply 7)])
                  [FanOut.Dispatch; FanOut.Dispatch; FanOut.Dispatch;
                   FanOut.Reply 2 true (Toy.exit_reply 7); FanOut.Reply 1 false [];
                   FanOut.Release 1; FanOut.Reply 0 true (Toy.exit_reply 3);
                   FanOut.Release 0; FanOut.Release 2; FanOut.Join] r1 r2)
        as [Hsig [Hperm _]]
  end.
  - intros i ok parts [Hin|Hin];
      cbn [FanOut.sequential FanOut.sequential_from In] in Hin;
      repeat match type of Hin with
             | _ \/ _ => destruct Hin as [Hin|Hin]
             end;
      try discriminate Hin; try contradiction;
      injection Hin as <- <- <-; reflexivity.
  - vm_compute. reflexivity.
  - vm_compute. reflexivity.
  - split; [exact Hsig | exact Hperm].
Defined.

(** A run over three peers with one request unanswered and one slot
    not released: the release is enabled and the run can finish. *)
Lemma nodesRequest_never_stuck_witness :
  let callback := fun (a : unit) (_ : BLSRequestResult) (_ : list string) => a in
  let s := FanOut.exec [Toy.alice; Toy.bob; Toy.carol] "bls.get_exit" Toy.leaving callback
             [FanOut.Dispatch; FanOut.Dispatch; FanOut.Reply 0 false []] (FanOut.init tt) in
  FanOut.releasing s = [0] /\ FanOut.in_flight s = [1] /\
  (exists s', FanOut.step [Toy.alice; Toy.bob; Toy.carol] "bls.get_exit" Toy.leaving callback
                (FanOut.Release 0) s = Some s' /\
              S (FanOut.active_connections s') = FanOut.active_connections s) /\
  exists schedule,
    FanOut.returned (FanOut.exec [Toy.alice; Toy.bob; Toy.carol] "bls.get_exit" Toy.leaving
                       callback schedule s) = true.
Proof.
  cbv zeta. split; [reflexivity|]. split; [reflexivity|].
  destruct (nodesRequest_never_stuck unit [Toy.alice; Toy.bob; Toy.carol] "bls.get_exit"
              Toy.leaving (fun (a : unit) (_ : BLSRequestResult) (_ : list string) => a) tt
              (FanOut.exec [Toy.alice; Toy.bob; Toy.carol] "bls.get_exit" Toy.leaving
                 (fun (a : unit) (_ : BLSRequestResult) (_ : list string) => a)
                 [FanOut.Dispatch; FanOut.Dispatch; FanOut.Reply 0 false []]
                 (FanOut.init tt))) as [Hrelease Hfinish].
  - apply exec_reachable. apply FanOut.reach_init.
  - split; [|exact Hfinish]. apply Hrelease; [reflexivity | now left].
Defined.

(** Every peer answers the rewards request as [get_reward_balance]
    does, or not at all: nothing is collected. *)
Lemma rewards_request_collects_nothing_from_sorted_replies_witness :
  exists r,
    snd (rewards_request (Toy.node 1) Toy.recipient
           (FanOut.sequential
              [(true, Toy.reward_reply 3); (false, []); (true, Toy.reward_reply 7)]))
    = inr (Some r) /\
    signers_bls_pubkeys r = [] /\ signature r = to_crypto_signature G2_clear.
Proof.
  eexists. split; [vm_compute; reflexivity|].
  eapply (rewards_request_collects_nothing_from_sorted_replies Toy.primitives (Toy.node 1)
            Toy.recipient
            (FanOut.sequential
               [(true, Toy.reward_reply 3); (false, []); (true, Toy.reward_reply 7)])).
  - vm_compute. reflexivity.
  - intros i ok parts Hin. cbn [FanOut.sequential FanOut.sequential_from In] in Hin.
    repeat match type of Hin with
           | _ \/ _ => destruct Hin as [Hin|Hin]
           end;
      try contradiction;
      try match type of Hin with
          | FanOut.Dispatch = _ => discriminate Hin
          | FanOut.Release _ = _ => discriminate Hin
          | FanOut.Join = _ => discriminate Hin
          end;
      injection Hin as <- <- <-.
    + right. right.
      exists Toy.recipient, 1234%Z, 77%Z,
        (Toy.sign 3 (signed_hash (rewards_result_init (Toy.node 1) Toy.recipient 1234 77))).
      split; [vm_compute; reflexivity|].
      split; [split; [discriminate | reflexivity]|].
      split; [split; [discriminate | reflexivity]|].
      split; vm_compute; reflexivity.
    + left. reflexivity.
    + right. right.
      exists Toy.recipient, 1234%Z, 77%Z,
        (Toy.sign 7 (signed_hash (rewards_result_init (Toy.node 1) Toy.recipient 1234 77))).
      split; [vm_compute; reflexivity|].
      split; [split; [discriminate | reflexivity]|].
      split; [split; [discriminate | reflexivity]|].
      split; vm_compute; reflexivity.
Defined.

(** A reply with the entries in the order in which the handler reads
    them is folded. *)
Lemma rewards_on_response_read_order_reply_witness :
  let claim := rewards_result_init (Toy.node 1) Toy.recipient 1234 77 in
  let sig := Toy.sign 3 (signed_hash claim) in
  rewards_on_response (G2_clear, claim) (mkRequestResult Toy.alice true)
    ["200";
     String "d"
       (bt.bt_string "balance" ++ bt.bt_uint64 1234 ++ bt.bt_string "height" ++ bt.bt_uint64 77
          ++ bt.bt_string "signature" ++ bt.bt_string sig
          ++ bt.bt_string "address" ++ bt.bt_string Toy.recipient ++ "e")%string]
  = (G2_add G2_clear (from_crypto_signature sig),
     add_rewards_signer claim (bls_pubkey Toy.alice)).
Proof.
  cbv zeta.
  rewrite (rewards_on_response_read_order_reply Toy.primitives
             (G2_clear, rewards_result_init (Toy.node 1) Toy.recipient 1234 77)
             (mkRequestResult Toy.alice true) Toy.recipient 1234 77
             (Toy.sign 3 (signed_hash
                            (rewards_result_init (Toy.node 1) Toy.recipient 1234 77)))).
  - vm_compute. reflexivity.
  - vm_compute. split; [discriminate | reflexivity].
  - vm_compute. split; [discriminate | reflexivity].
  - vm_compute. reflexivity.
  - vm_compute. reflexivity.
Defined.

(** Three nodes are asked about the leaving node.  With zeroed local
    variables each replies [403] and the round returns no contributor.
    A responder whose local variable happens to hold the key replies
    with a signature that the aggregator folds. *)
Lemma exit_flow_on_sent_request_witness :
  let zeros := zero_bytes sizeof_bls_public_key in
  let reply k local :=
    Toy.reply_of (get_exit (Toy.node k) (mkMessage [Toy.leaving] []) local) in
  let claim := exit_result_init (Toy.node 1) Toy.leaving removalTag in
  reply 3%Z zeros
  = ["403";
     ("Forbidden: The BLS pubkey " ++ zeros ++ " is not currently removable.")%string] /\
  (exists r,
      snd (aggregateExit (Toy.node 1) Toy.leaving
             (FanOut.sequential
                [(true, reply 3%Z zeros); (true, reply 5%Z zeros); (true, reply 7%Z zeros)]))
      = inr (Some r) /\
      exit_signers_bls_pubkeys r = [] /\ exit_signature r = to_crypto_signature G2_clear) /\
  exit_on_response "exit" (G2_clear, claim) (mkRequestResult Toy.alice true)
    (reply 3%Z Toy.leaving)
  = (G2_add G2_clear (from_crypto_signature (Toy.sign 3 (exit_signed_hash claim))),
     add_exit_signer claim (bls_pubkey Toy.alice)).
Proof.
  cbv zeta.
  destruct (exit_flow_on_sent_request Toy.primitives (Toy.node 1) Toy.leaving eq_refl)
    as [Hexit [_ [Hround _]]].
  split; [vm_compute; reflexivity|]. split.
  - eexists. split; [vm_compute; reflexivity|].
    apply (Hround (fun i => Toy.node (match i with 0 => 3%Z | 1 => 5%Z | _ => 7%Z end))
             (fun _ => zero_bytes sizeof_bls_public_key)
             (FanOut.sequential
                [(true, Toy.reply_of (get_exit (Toy.node 3) (mkMessage [Toy.leaving] [])
                                        (zero_bytes sizeof_bls_public_key)));
                 (true, Toy.reply_of (get_exit (Toy.node 5) (mkMessage [Toy.leaving] [])
                                        (zero_bytes sizeof_bls_public_key)));
                 (true, Toy.reply_of (get_exit (Toy.node 7) (mkMessage [Toy.leaving] [])
                                        (zero_bytes sizeof_bls_public_key)))])).
    + intros i. reflexivity.
    + intros i. vm_compute. discriminate.
    + intros i ok parts Hin. cbn [FanOut.sequential FanOut.sequential_from In] in Hin.
      repeat match type of Hin with
             | _ \/ _ => destruct Hin as [Hin|Hin]
             end;
        try contradiction;
        try match type of Hin with
            | FanOut.Dispatch = _ => discriminate Hin
            | FanOut.Release _ = _ => discriminate Hin
            | FanOut.Join = _ => discriminate Hin
            end;
        injection Hin as <- <- <-; right; exists []; vm_compute; reflexivity.
    + vm_compute. reflexivity.
  - destruct (Hexit (Toy.node 3) Toy.alice G2_clear Toy.leaving [FanOut.Dispatch]
                (mkRequest "x-alice" "bls.get_exit" Toy.leaving) eq_refl
                (fun h => encode_integer_be_length sizeof_bls_signature _))
      as [reply [sigs [Hget Hfold]]].
    { left. vm_compute. reflexivity. }
    cbv zeta in Hget, Hfold. cbn [req_message] in Hget, Hfold.
    assert (Hreply : Toy.reply_of (get_exit (Toy.node 3) (mkMessage [Toy.leaving] [])
                                     Toy.leaving) = reply).
    { rewrite Hget. reflexivity. }
    rewrite Hreply, Hfold.
    match goal with
    | |- (if ?cond then _ else _) = _ =>
        assert (Hcond : cond = true) by (vm_compute; reflexivity); rewrite Hcond
    end.
    vm_compute. reflexivity.
Defined.

End MoreExamples.
